(** * pgAdmin 4 schema helpers: [schemas/utils.py]

    A shallow embedding of the helper routines of
    [web/pgadmin/browser/server_groups/servers/databases/schemas/utils.py]
    (data-type formatting, trigger-flag decoding, rule-definition parsing and
    vacuum-setting normalisation), and the properties the specification
    states about them.

    Conventions of the embedding.
    - Python [int] is [Z] (unbounded, so [&] and [>>] are [Z.land] and
      [Z.shiftr]); Python [float] is the kernel's binary64 [float]; Python
      [str] is [string], one [ascii] per code point (ASCII text).
    - A Python [dict] with string keys is a [gmap string _]; a row of a
      result set is such a dict.
    - Code that can raise runs in the [outcome] monad: [Ret v] is a normal
      return, [Raise e] an exception (of class [Exception]) that leaves the
      function.
    - The collaborators (template rendering, the query executor) are not
      part of the module: what they give back is an argument of the
      function that calls them. *)

From Stdlib Require Import ZArith String Ascii List Lia DecimalString.
From Stdlib Require Import Floats.
From stdpp Require Import gmap strings list fin_maps.

Local Open Scope string_scope.
Local Open Scope Z_scope.

(** ** Python values and exceptions *)

Inductive pyval :=
  | VNone
  | VBool (b : bool)
  | VInt (z : Z)
  | VFloat (f : float)
  | VStr (s : string).

Inductive exn_class :=
  | KeyError
  | IndexError
  | TypeError
  | ValueError
  | OverflowError
  | UnboundLocalError
  | OtherError.

(** An exception: its class and the text [str(e)] gives. *)
Record exn := Exn { exn_kind : exn_class; exn_str : string }.

Inductive outcome (A : Type) :=
  | Ret (a : A)
  | Raise (e : exn).
Arguments Ret {A} a.
Arguments Raise {A} e.

#[global] Instance outcome_ret : MRet outcome := fun A a => Ret a.
#[global] Instance outcome_bind : MBind outcome := fun A B f m =>
  match m with
  | Ret a => f a
  | Raise e => Raise e
  end.

(** [try: body  except Exception as e: handler(e)]. *)
Definition try_except {A} (body : outcome A) (handler : exn -> outcome A) : outcome A :=
  match body with
  | Ret a => Ret a
  | Raise e => handler e
  end.

Definition returns {A} (o : outcome A) : Prop := exists a, o = Ret a.

(** The double-quote character, and [repr] of a plain string key as
    [KeyError] prints it. *)
Definition dquote : string := String "034"%char "".
Definition squote : string := "'".
Definition repr_str (s : string) : string := squote +:+ s +:+ squote.

(** [d[k]] on a dict. *)
Definition getitem {A} (d : gmap string A) (k : string) : outcome A :=
  match d !! k with
  | Some v => Ret v
  | None => Raise (Exn KeyError (repr_str k))
  end.

(** *** Truth value and equality of Python values *)

Definition float_is_zero (f : float) : bool := PrimFloat.eqb f PrimFloat.zero.

Definition truthy (v : pyval) : bool :=
  match v with
  | VNone => false
  | VBool b => b
  | VInt z => negb (z =? 0)
  | VFloat f => negb (float_is_zero f)
  | VStr s => negb (String.eqb s "")
  end.

(** Exact comparison of a float with an integer, as Python's [==] does it. *)
Definition float_eq_Z (f : float) (z : Z) : bool :=
  match Prim2SF f with
  | S754_zero _ => z =? 0
  | S754_finite s m e =>
      let mz := if s then Z.neg m else Z.pos m in
      if 0 <=? e then mz * 2 ^ e =? z else mz =? z * 2 ^ (- e)
  | _ => false
  end.

Definition py_eq (v w : pyval) : bool :=
  match v, w with
  | VNone, VNone => true
  | VStr a, VStr b => String.eqb a b
  | VBool a, VBool b => Bool.eqb a b
  | VBool a, VInt z | VInt z, VBool a => Z.b2z a =? z
  | VInt a, VInt b => a =? b
  | VFloat f, VFloat g => PrimFloat.eqb f g
  | VFloat f, VInt z | VInt z, VFloat f => float_eq_Z f z
  | VFloat f, VBool b | VBool b, VFloat f => float_eq_Z f (Z.b2z b)
  | _, _ => false
  end.

(** [v in (c1, c2, ...)]. *)
Definition py_in (v : pyval) (cs : list pyval) : bool := existsb (py_eq v) cs.

(** [v & n] for an integer constant [n]. *)
Definition py_band (v : pyval) (n : Z) : outcome Z :=
  match v with
  | VInt z => Ret (Z.land z n)
  | VBool b => Ret (Z.land (Z.b2z b) n)
  | _ => Raise (Exn TypeError "unsupported operand type(s) for &")
  end.

(** *** Result sets *)

(** What travels next to a status flag: the result-set dict of the query
    executor (its ['rows'] entry holds the rows), an error message, or the
    list a helper built. *)
Inductive payload :=
  | PDict (d : gmap string (list (gmap string pyval)))
  | PStr (msg : string)
  | PList (l : list (gmap string pyval)).

(** [rset['rows']]. *)
Definition payload_rows (p : payload) : outcome (list (gmap string pyval)) :=
  match p with
  | PDict d => getitem d "rows"
  | PStr _ => Raise (Exn TypeError "string indices must be integers")
  | PList _ => Raise (Exn TypeError "list indices must be integers or slices, not str")
  end.

(** Reading a local variable that may not have been assigned yet; the
    message is the one of CPython up to 3.10. *)
Definition read_local {A} (name : string) (v : option A) : outcome A :=
  match v with
  | Some a => Ret a
  | None =>
      Raise (Exn UnboundLocalError
               ("local variable '" +:+ name +:+ "' referenced before assignment"))
  end.

(** ** [trigger_definition] *)

Module Trigger.

Definition TRIGGER_TYPE_ROW : Z := Z.shiftl 1 0.
Definition TRIGGER_TYPE_BEFORE : Z := Z.shiftl 1 1.
Definition TRIGGER_TYPE_INSERT : Z := Z.shiftl 1 2.
Definition TRIGGER_TYPE_DELETE : Z := Z.shiftl 1 3.
Definition TRIGGER_TYPE_UPDATE : Z := Z.shiftl 1 4.
Definition TRIGGER_TYPE_TRUNCATE : Z := Z.shiftl 1 5.
Definition TRIGGER_TYPE_INSTEAD : Z := Z.shiftl 1 6.

(** [data['tgtype'] & bit], taken as a condition. *)
Definition has_flag (data : gmap string pyval) (bit : Z) : outcome bool :=
  t ← getitem data "tgtype";
  x ← py_band t bit;
  Ret (negb (x =? 0)).

Definition set_flag (data : gmap string pyval) (key : string) (bit : Z)
  : outcome (gmap string pyval) :=
  b ← has_flag data bit;
  Ret (<[key := VBool b]> data).

Definition set_fires (data : gmap string pyval) : outcome (gmap string pyval) :=
  before ← has_flag data TRIGGER_TYPE_BEFORE;
  if before : bool then Ret (<["fires" := VStr "BEFORE"]> data)
  else
    instead ← has_flag data TRIGGER_TYPE_INSTEAD;
    if instead : bool then Ret (<["fires" := VStr "INSTEAD OF"]> data)
    else Ret (<["fires" := VStr "AFTER"]> data).

Definition trigger_definition (data : gmap string pyval) : outcome (gmap string pyval) :=
  data ← set_fires data;
  data ← set_flag data "is_row_trigger" TRIGGER_TYPE_ROW;
  data ← set_flag data "evnt_insert" TRIGGER_TYPE_INSERT;
  data ← set_flag data "evnt_delete" TRIGGER_TYPE_DELETE;
  data ← set_flag data "evnt_update" TRIGGER_TYPE_UPDATE;
  data ← set_flag data "evnt_truncate" TRIGGER_TYPE_TRUNCATE;
  Ret data.

(** What the specification says the decoder produces from flags [t]. *)
Definition fires_of (t : Z) : string :=
  if Z.testbit t 1 then "BEFORE"
  else if Z.testbit t 6 then "INSTEAD OF"
  else "AFTER".

Definition decoded (t : Z) (data : gmap string pyval) : gmap string pyval :=
  <["evnt_truncate" := VBool (Z.testbit t 5)]>
  (<["evnt_update" := VBool (Z.testbit t 4)]>
  (<["evnt_delete" := VBool (Z.testbit t 3)]>
  (<["evnt_insert" := VBool (Z.testbit t 2)]>
  (<["is_row_trigger" := VBool (Z.testbit t 0)]>
  (<["fires" := VStr (fires_of t)]> data))))).

End Trigger.

(** ** Python string operations *)

Module PyStr.

Definition len (s : string) : Z := Z.of_nat (String.length s).

(** [s.startswith(p)]. *)
Definition startswith (s p : string) : bool := String.prefix p s.

(** [s.endswith(suf)]: some suffix of [s] is [suf]. *)
Fixpoint endswith (s suf : string) : bool :=
  String.eqb s suf ||
  match s with
  | EmptyString => false
  | String _ s' => endswith s' suf
  end.

(** [s.find(sub)]: the least index where [sub] occurs, or [-1]. *)
Fixpoint find_from (s sub : string) (i : Z) : Z :=
  if String.prefix sub s then i
  else match s with
       | EmptyString => -1
       | String _ s' => find_from s' sub (i + 1)
       end.

Definition find (s sub : string) : Z := find_from s sub 0.

Fixpoint take (n : nat) (s : string) : string :=
  match n, s with
  | S n', String c s' => String c (take n' s')
  | _, _ => EmptyString
  end.

Fixpoint drop (n : nat) (s : string) : string :=
  match n, s with
  | S n', String _ s' => drop n' s'
  | _, _ => s
  end.

(** A slice bound [i] of [s[lo:hi]], clipped as Python clips it. *)
Definition clip (s : string) (i : Z) : nat :=
  Z.to_nat (Z.min (len s) (if i <? 0 then Z.max 0 (len s + i) else i)).

(** [s[lo:hi]] with step 1; [None] is an omitted bound. *)
Definition slice (s : string) (lo hi : option Z) : string :=
  let a := match lo with Some i => clip s i | None => O end in
  let b := match hi with Some i => clip s i | None => String.length s end in
  take (b - a) (drop a s).

(** [s[i]]. *)
Definition index (s : string) (i : Z) : outcome string :=
  let j := if i <? 0 then len s + i else i in
  if (0 <=? j) && (j <? len s) then Ret (take 1 (drop (Z.to_nat j) s))
  else Raise (Exn IndexError "string index out of range").

Fixpoint mem (c : ascii) (chars : string) : bool :=
  match chars with
  | EmptyString => false
  | String d chars' => Ascii.eqb c d || mem c chars'
  end.

(** [s.rstrip(chars)]: drop the trailing characters that occur in [chars]. *)
Fixpoint rstrip (s chars : string) : string :=
  match s with
  | EmptyString => EmptyString
  | String c s' =>
      match rstrip s' chars with
      | EmptyString => if mem c chars then EmptyString else String c EmptyString
      | r => String c r
      end
  end.

(** [str(z)] for an integer. *)
Definition str_int (z : Z) : string := NilZero.string_of_int (Z.to_int z).

Definition is_digit (c : ascii) : bool :=
  let n := nat_of_ascii c in (48 <=? n)%nat && (n <=? 57)%nat.

(** Whitespace, as [\s] and [str.strip] see it on ASCII text. *)
Definition is_space (c : ascii) : bool :=
  let n := nat_of_ascii c in
  ((9 <=? n)%nat && (n <=? 13)%nat) || ((28 <=? n)%nat && (n <=? 32)%nat).

Definition lower_char (c : ascii) : ascii :=
  let n := nat_of_ascii c in
  if (65 <=? n)%nat && (n <=? 90)%nat then ascii_of_nat (n + 32) else c.

Definition upper_char (c : ascii) : ascii :=
  let n := nat_of_ascii c in
  if (97 <=? n)%nat && (n <=? 122)%nat then ascii_of_nat (n - 32) else c.

Fixpoint map_chars (f : ascii -> ascii) (s : string) : string :=
  match s with
  | EmptyString => EmptyString
  | String c s' => String (f c) (map_chars f s')
  end.

(** [s.lower()] and [s.capitalize()]. *)
Definition lower (s : string) : string := map_chars lower_char s.

Definition capitalize (s : string) : string :=
  match s with
  | EmptyString => EmptyString
  | String c s' => String (upper_char c) (lower s')
  end.

Fixpoint repeat (s : string) (n : nat) : string :=
  match n with
  | O => EmptyString
  | S n' => s +:+ repeat s n'
  end.

End PyStr.

(** ** Regular expressions: the fragment of [re] the module uses

    A backtracking matcher in the order Python's engine tries alternatives:
    the result of [rmatch] lists every way the expression can match a prefix
    of the text, most preferred first. All quantifiers are greedy. *)

Module Re.

Inductive regex :=
  | Eps
  | Chr (c : ascii)
  | Dot
  | Space
  | Digit
  | Seq (r1 r2 : regex)
  | Alt (r1 r2 : regex)
  | Star (r : regex)
  | Plus (r : regex)
  | Opt (r : regex)
  | Group (n : nat) (r : regex).

(** The text still to read, and the groups captured so far. *)
Definition mstate : Type := string * gmap nat string.

Definition newline : ascii := "010"%char.

Definition one_char (p : ascii -> bool) (st : mstate) : list mstate :=
  match st.1 with
  | String c rest => if p c then [(rest, st.2)] else []
  | EmptyString => []
  end.

(** What was read between two states of one match. *)
Definition consumed (before after : string) : string :=
  PyStr.take (String.length before - String.length after) before.

(** Greedy repetition: one more round first, stopping here as the last
    resort. A round that reads nothing is not repeated. *)
Fixpoint iterate (step : mstate -> list mstate) (fuel : nat) (st : mstate) : list mstate :=
  match fuel with
  | O => [st]
  | S fuel' =>
      flat_map (fun st' =>
        if (String.length st'.1 <? String.length st.1)%nat
        then iterate step fuel' st' else []) (step st) ++ [st]
  end.

Fixpoint rmatch (r : regex) (st : mstate) : list mstate :=
  match r with
  | Eps => [st]
  | Chr c => one_char (Ascii.eqb c) st
  | Dot => one_char (fun d => negb (Ascii.eqb d newline)) st
  | Space => one_char PyStr.is_space st
  | Digit => one_char PyStr.is_digit st
  | Seq r1 r2 => flat_map (rmatch r2) (rmatch r1 st)
  | Alt r1 r2 => rmatch r1 st ++ rmatch r2 st
  | Star r1 => iterate (rmatch r1) (String.length st.1) st
  | Plus r1 =>
      flat_map (fun st' => iterate (rmatch r1) (String.length st'.1) st') (rmatch r1 st)
  | Opt r1 => rmatch r1 st ++ [st]
  | Group n r1 =>
      map (fun st' => (st'.1, <[n := consumed st.1 st'.1]> st'.2)) (rmatch r1 st)
  end.

(** A literal word. *)
Fixpoint lit (w : string) : regex :=
  match w with
  | EmptyString => Eps
  | String c w' => Seq (Chr c) (lit w')
  end.

(** [re.search(r, s)]: the groups of the leftmost match, if there is one. *)
Fixpoint search (r : regex) (s : string) : option (gmap nat string) :=
  match rmatch r (s, ∅) with
  | st :: _ => Some st.2
  | [] =>
      match s with
      | EmptyString => None
      | String _ s' => search r s'
      end
  end.

(** [re.sub(r, '', s)]: delete the non-overlapping matches, leftmost first.
    [skip] counts the characters of the current match still to delete. *)
Fixpoint sub_from (r : regex) (skip : nat) (s : string) : string :=
  match s with
  | EmptyString => EmptyString
  | String c s' =>
      match skip with
      | S k => sub_from r k s'
      | O =>
          match rmatch r (s, ∅) with
          | st :: _ =>
              match (String.length s - String.length st.1)%nat with
              | O => String c (sub_from r O s')
              | S k => sub_from r k s'
              end
          | [] => String c (sub_from r O s')
          end
      end
  end.

Definition sub_empty (r : regex) (s : string) : string := sub_from r O s.

End Re.

(** ** [DataTypeReader] *)

Module DataTypeReader.
Import PyStr.

Definition L_types : list pyval :=
  [ VInt 1560; VStr "bit";
    VInt 1561; VStr "bit[]";
    VInt 1562; VStr "varbit"; VStr "bit varying";
    VInt 1563; VStr "varbit[]"; VStr "bit varying[]";
    VInt 1042; VStr "bpchar"; VStr "character";
    VInt 1043; VStr "varchar"; VStr "character varying";
    VInt 1014; VStr "bpchar[]"; VStr "character[]";
    VInt 1015; VStr "varchar[]"; VStr "character varying[]" ].

Definition D_types : list pyval :=
  [ VInt 1083; VStr "time"; VStr "time without time zone";
    VInt 1114; VStr "timestamp";
    VStr "timestamp without time zone";
    VInt 1115; VStr "timestamp[]";
    VStr "timestamp without time zone[]";
    VInt 1183; VStr "time[]";
    VStr "time without time zone[]";
    VInt 1184; VStr "timestamptz";
    VStr "timestamp with time zone";
    VInt 1185; VStr "timestamptz[]";
    VStr "timestamp with time zone[]";
    VInt 1186; VStr "interval";
    VInt 1187; VStr "interval[]"; VStr "interval[]";
    VInt 1266; VStr "timetz"; VStr "time with time zone";
    VInt 1270; VStr "timetz"; VStr "time with time zone[]" ].

Definition P_types : list pyval :=
  [ VInt 1231; VStr "numeric[]";
    VInt 1700; VStr "numeric" ].

(** Returns [(length, precision, typeval)]. *)
Definition get_length_precision (elemoid_or_name : pyval) : bool * bool * string :=
  let precision := false in
  let length := false in
  let typeval := "" in
  let typeval :=
    if truthy elemoid_or_name then
      if py_in elemoid_or_name L_types then "L"
      else if py_in elemoid_or_name D_types then "D"
      else if py_in elemoid_or_name P_types then "P"
      else " "
    else typeval in
  let precision := if String.eqb typeval "P" then true else precision in
  let length :=
    if precision || String.eqb typeval "L" || String.eqb typeval "D"
    then true else length in
  (length, precision, typeval).

(** The length suffix of [get_full_type] (the block under
    [if typmod != -1]); [name] is the stripped base name. *)
Definition type_length (name : string) (typmod : Z) : string :=
  if typmod =? -1 then ""
  else
    let length := "(" in
    let length :=
      if String.eqb name "numeric" then
        let _len := Z.shiftr (typmod - 4) 16 in
        let _prec := Z.land (typmod - 4) 65535 in
        length +:+ str_int _len +:+ "," +:+ str_int _prec
      else if String.eqb name "time" || String.eqb name "timetz"
              || String.eqb name "time without time zone"
              || String.eqb name "time with time zone"
              || String.eqb name "timestamp" || String.eqb name "timestamptz"
              || String.eqb name "timestamp without time zone"
              || String.eqb name "timestamp with time zone"
              || String.eqb name "bit" || String.eqb name "bit varying"
              || String.eqb name "varbit" then
        length +:+ str_int typmod
      else if String.eqb name "interval" then
        length +:+ str_int (Z.land typmod 65535)
      else if String.eqb name "date" then
        ""
      else
        length +:+ str_int (typmod - 4) in
    if 0 <? len length then length +:+ ")" else length.

(** The names of the [elif] of [get_full_type] that prints the modifier
    as it is. *)
Definition verbatim_types : list string :=
  [ "time"; "timetz"; "time without time zone"; "time with time zone";
    "timestamp"; "timestamptz"; "timestamp without time zone";
    "timestamp with time zone"; "bit"; "bit varying"; "varbit" ].

(** The schema-prefix step: the name [get_full_type] goes on with. *)
Definition skip_schema (schema typname : string) : outcome string :=
  if 0 <=? find typname (schema +:+ dquote +:+ ".") then
    index typname (len schema + 3)
  else if 0 <=? find typname (schema +:+ ".") then
    index typname (len schema + 1)
  else Ret typname.

(** The array markers and the quotes (the three [if]s that follow): a
    leading [_] or a trailing [[]] makes [numdims] at least 1 and is
    dropped, then one pair of surrounding double quotes is dropped. *)
Definition strip_markers (name : string) (numdims : Z) : Z * string :=
  let '(numdims, name) :=
    if startswith name "_"
    then ((if numdims =? 0 then 1 else numdims), slice name (Some 1) None)
    else (numdims, name) in
  let '(numdims, name) :=
    if endswith name "[]"
    then ((if numdims =? 0 then 1 else numdims), slice name None (Some (-2)))
    else (numdims, name) in
  let name :=
    if startswith name dquote && endswith name dquote
    then slice name (Some 1) (Some (-1)) else name in
  (numdims, name).

(** The loop [while numdims: array += '[]'; numdims -= 1] under
    [if numdims > 0]. *)
Definition array_suffix (numdims : Z) : string :=
  if 0 <? numdims then repeat "[]" (Z.to_nat numdims) else "".

(** The final [return] chain. *)
Definition display (schema name length array : string) : string :=
  if String.eqb name "char" && String.eqb schema "pg_catalog" then
    dquote +:+ "char" +:+ dquote +:+ array
  else if String.eqb name "time with time zone" then
    "time" +:+ length +:+ " with time zone" +:+ array
  else if String.eqb name "time without time zone" then
    "time" +:+ length +:+ " without time zone" +:+ array
  else if String.eqb name "timestamp with time zone" then
    "timestamp" +:+ length +:+ " with time zone" +:+ array
  else if String.eqb name "timestamp without time zone" then
    "timestamp" +:+ length +:+ " without time zone" +:+ array
  else name +:+ length +:+ array.

Definition get_full_type (nsp : option string) (typname : string) (isDup : bool)
    (numdims typmod : Z) : outcome string :=
  let schema := match nsp with Some s => s | None => "" end in
  name ← skip_schema schema typname;
  let '(numdims, name) := strip_markers name numdims in
  let array := array_suffix numdims in
  let length := type_length name typmod in
  Ret (display schema name length array).

(** The pattern [(\(\d+\))] of [parse_type_name]. *)
Definition paren_digits : Re.regex :=
  Re.Group 1 (Re.Seq (Re.Chr "(") (Re.Seq (Re.Plus Re.Digit) (Re.Chr ")"))).

(** The middle of [parse_type_name]: the length suffix is cut off. *)
Definition strip_length (type_name : string) : string :=
  let idx := find type_name "(" in
  if negb (idx =? 0) && endswith type_name ")" then
    slice type_name None (Some idx)
  else if negb (idx =? 0) && startswith type_name "time" then
    let end_idx := find type_name ")" in
    if negb (end_idx =? 1) then Re.sub_empty paren_digits type_name
    else type_name
  else type_name.

Definition parse_type_name (type_name : string) : string :=
  let is_array := endswith type_name "[]" in
  let type_name := if is_array then rstrip type_name "[]" else type_name in
  let type_name := strip_length type_name in
  if is_array then type_name +:+ "[]" else type_name.

(** The names of types the module knows: the textual entries of the three
    classification tables, and the two further names [get_full_type]
    treats on their own. *)
Definition names_of (ids : list pyval) : list string :=
  omap (fun v => match v with VStr s => Some s | _ => None end) ids.

Definition known_type_names : list string :=
  names_of (L_types ++ D_types ++ P_types) ++ ["date"; "char"].

(** The known names once [strip_markers] has dropped the array marker. *)
Definition known_base_names : list string :=
  [ "bit"; "varbit"; "bit varying"; "bpchar"; "character"; "varchar";
    "character varying"; "time"; "time without time zone"; "timestamp";
    "timestamp without time zone"; "timestamptz"; "timestamp with time zone";
    "interval"; "timetz"; "time with time zone"; "numeric"; "date"; "char" ].

(** The array suffix [parse_type_name] gives back: one pair of brackets,
    whatever the number of dimensions. *)
Definition one_array_suffix (k : nat) : string :=
  match k with O => "" | S _ => "[]" end.

(** The time and timestamp names that carry their precision in the
    middle. *)
Definition zoned (t q : string) : Prop :=
  (t = "time" \/ t = "timestamp") /\
  (q = " with time zone" \/ q = " without time zone").

(** The last character of a string. *)
Fixpoint last_char (s : string) : option ascii :=
  match s with
  | EmptyString => None
  | String c s' =>
      match last_char s' with
      | None => Some c
      | r => r
      end
  end.

Fixpoint all_digits (s : string) : bool :=
  match s with
  | EmptyString => true
  | String c s' => is_digit c && all_digits s'
  end.

(** *** [get_types] *)

(** The entry [get_types] appends for one row. *)
Definition type_entry (typname : pyval) (typeval : string) (precision length : bool)
    (min_val max_val : Z) (is_collatable : pyval) : gmap string pyval :=
  <["label" := typname]>
  (<["value" := typname]>
  (<["typval" := VStr typeval]>
  (<["precision" := VBool precision]>
  (<["length" := VBool length]>
  (<["min_val" := VInt min_val]>
  (<["max_val" := VInt max_val]>
  (<["is_collatable" := is_collatable]> ∅))))))).

(** One round of the loop over the rows. [typeval] is the local variable
    of that name as the round finds it: [None] while it is unbound. The
    result is the variable after the round, and the entry appended. *)
Definition type_row (typeval : option string) (row : gmap string pyval)
  : outcome (option string * gmap string pyval) :=
  let precision := false in
  let length := false in
  let min_val := 0 in
  let max_val := 0 in
  elemoid ← getitem row "elemoid";
  let '(length, precision, typeval) :=
    if truthy elemoid then
      let '(l, p, t) := get_length_precision elemoid in (l, p, Some t)
    else (length, precision, typeval) in
  bounds ← (if length : bool then
              tv ← read_local "typeval" typeval;
              let min_val := if String.eqb tv "D" then 0 else 1 in
              let max_val :=
                if precision : bool then 1000
                else if negb (min_val =? 0) then 2147483647
                else 10 in
              Ret (min_val, max_val)
            else Ret (min_val, max_val));
  typname ← getitem row "typname";
  tv ← read_local "typeval" typeval;
  is_collatable ← getitem row "is_collatable";
  Ret (typeval,
       type_entry typname tv precision length bounds.1 bounds.2 is_collatable).

Fixpoint type_rows (rows : list (gmap string pyval)) (typeval : option string)
    (res : list (gmap string pyval)) : outcome (list (gmap string pyval)) :=
  match rows with
  | [] => Ret res
  | row :: rows' =>
      '(typeval, entry) ← type_row typeval row;
      type_rows rows' typeval (res ++ [entry])
  end.

(** [get_types]. [reply] is what rendering the query and running it with
    [conn.execute_2darray] gives inside the [try]: a pair [(status, rset)],
    or an exception. *)
Definition get_types (reply : outcome (bool * payload)) : outcome (bool * payload) :=
  try_except
    ('(status, rset) ← reply;
     if negb status then Ret (status, rset)
     else
       rows ← payload_rows rset;
       res ← type_rows rows None [];
       Ret (true, PList res))
    (fun e => Ret (false, PStr (exn_str e))).

(** The work of [get_types] once the query has succeeded. *)
Definition rows_of_reply (rset : payload) : outcome (list (gmap string pyval)) :=
  rows ← payload_rows rset; type_rows rows None [].

(** A row that has the three keys the loop reads. *)
Definition complete_row (row : gmap string pyval) : Prop :=
  is_Some (row !! "elemoid") /\ is_Some (row !! "typname") /\
  is_Some (row !! "is_collatable").

Definition unbound_typeval : string :=
  "local variable 'typeval' referenced before assignment".

(** Two rows for examples: [numeric], and a row without element type. *)
Definition numeric_row : gmap string pyval :=
  <["elemoid" := VInt 1700]> (<["typname" := VStr "numeric"]>
    {[ "is_collatable" := VBool false ]}).

Definition untyped_row : gmap string pyval :=
  <["elemoid" := VNone]> (<["typname" := VStr "x"]>
    {[ "is_collatable" := VBool true ]}).

End DataTypeReader.

(** ** [parse_rule_definition] *)

Module Rule.
Import Re.

(** The event pattern: [ON], whitespace, group 1 (a greedy run of any
    characters but newline), whitespace, [TO]. *)
Definition event_re : regex :=
  Seq (lit "ON") (Seq (Plus Space) (Seq (Group 1 (Star Dot)) (Seq (Plus Space) (lit "TO")))).

(** The instead pattern: whitespace, group 1 ([INSTEAD]), whitespace. *)
Definition instead_re : regex :=
  Seq (Plus Space) (Seq (Group 1 (lit "INSTEAD")) (Plus Space)).

(** The condition pattern: [WHERE], whitespace, group 1 (a greedy run of
    any characters but newline), whitespace, [DO]. *)
Definition condition_re : regex :=
  Seq (lit "WHERE") (Seq (Plus Space) (Seq (Group 1 (Star Dot)) (Seq (Plus Space) (lit "DO")))).

(** The statement pattern: [DO], whitespace, optionally [INSTEAD] and
    whitespace, then group 1: a greedy run of group 2 (any character,
    newline included). *)
Definition statement_re : regex :=
  Seq (Seq (lit "DO") (Plus Space))
    (Seq (Opt (Seq (lit "INSTEAD") (Plus Space)))
       (Group 1 (Star (Group 2 (Alt Dot (Chr newline)))))).

(** [re.search(r, v)] followed by [.group(1) if match is not None else None]. *)
Definition search_group1 (r : regex) (v : pyval) : outcome (option string) :=
  match v with
  | VStr s => Ret (search r s ≫= (fun caps => caps !! 1%nat))
  | _ => Raise (Exn TypeError "expected string or bytes-like object")
  end.

Inductive rule_result :=
  | RuleData (res_data : gmap string pyval)
  | InternalServerError (errormsg : string).

Definition parse_rule_definition (res : gmap string (list (gmap string pyval)))
  : outcome rule_result :=
  try_except
    (rows ← getitem res "rows";
     res_data ← match rows with
                | r :: _ => Ret r
                | [] => Raise (Exn IndexError "list index out of range")
                end;
     data_def ← getitem res_data "definition";
     event_data ← search_group1 event_re data_def;
     let event := default "" event_data in
     instead_data ← search_group1 instead_re data_def;
     let instead := match instead_data with Some _ => true | None => false end in
     condition_data ← search_group1 condition_re data_def;
     let condition := default "" condition_data in
     statement_data ← search_group1 statement_re data_def;
     let statement := default "" statement_data in
     let res_data := <["event" := VStr (PyStr.capitalize (PyStr.lower event))]> res_data in
     let res_data := <["do_instead" := VBool instead]> res_data in
     let res_data := <["statements" := VStr statement]> res_data in
     let res_data := <["condition" := VStr condition]> res_data in
     Ret (RuleData res_data))
    (fun e => Ret (InternalServerError (exn_str e))).

(** The two rule texts of the specification. *)
Definition rule_text_1 : string :=
  "CREATE RULE r AS ON INSERT TO t WHERE (cond) DO INSTEAD (stmt);".

Definition rule_text_2 : string :=
  "CREATE RULE r AS ON UPDATE TO t DO (stmt);".

(** A result set whose first row holds [text] as its definition. *)
Definition rule_res (text : string) : gmap string (list (gmap string pyval)) :=
  {[ "rows" := [ {[ "definition" := VStr text ]} ] ]}.

(** The fields [parse_rule_definition] adds to a row. *)
Definition with_fields (event : string) (do_instead : bool) (statements condition : string)
    (row : gmap string pyval) : gmap string pyval :=
  <["condition" := VStr condition]>
  (<["statements" := VStr statements]>
  (<["do_instead" := VBool do_instead]>
  (<["event" := VStr event]> row))).

End Rule.

(** ** The builtins [int()] and [float()]

    Python 3 semantics on ASCII text: surrounding whitespace is dropped, a
    sign may lead, digits may be grouped by single underscores; [float()]
    rounds the decimal to the nearest binary64, ties to even. *)

Module Builtins.
Import PyStr.

Fixpoint lstrip_space (s : string) : string :=
  match s with
  | String c s' => if is_space c then lstrip_space s' else s
  | EmptyString => EmptyString
  end.

Fixpoint rstrip_space (s : string) : string :=
  match s with
  | EmptyString => EmptyString
  | String c s' =>
      match rstrip_space s' with
      | EmptyString => if is_space c then EmptyString else String c EmptyString
      | r => String c r
      end
  end.

Definition strip (s : string) : string := rstrip_space (lstrip_space s).

Definition read_sign (s : string) : bool * string :=
  match s with
  | String c s' =>
      if Ascii.eqb c "-" then (true, s')
      else if Ascii.eqb c "+" then (false, s')
      else (false, s)
  | EmptyString => (false, s)
  end.

(** The digits at the head of [s] (underscores dropped) and the rest. *)
Fixpoint digit_run (s : string) : string * string :=
  match s with
  | String c s' =>
      if is_digit c then let '(d, r) := digit_run s' in (String c d, r)
      else if Ascii.eqb c "_" then
        match s' with
        | String c2 _ => if is_digit c2 then digit_run s' else (EmptyString, s)
        | EmptyString => (EmptyString, s)
        end
      else (EmptyString, s)
  | EmptyString => (EmptyString, s)
  end.

Definition digitpart (s : string) : option (string * string) :=
  match s with
  | String c _ => if is_digit c then Some (digit_run s) else None
  | EmptyString => None
  end.

Fixpoint digits_value (acc : Z) (d : string) : Z :=
  match d with
  | EmptyString => acc
  | String c d' => digits_value (10 * acc + Z.of_nat (nat_of_ascii c - 48)) d'
  end.

Definition int_of_str (s : string) : option Z :=
  let '(neg, s1) := read_sign (strip s) in
  match digitpart s1 with
  | Some (d, EmptyString) =>
      let v := digits_value 0 d in Some (if neg : bool then - v else v)
  | _ => None
  end.

(** The binary64 nearest to [(-1)^neg * m * 10^e], for [0 <= m]. *)
Definition dec_to_float (neg : bool) (m e : Z) : float :=
  match m with
  | Z.pos p =>
      if 0 <=? e then
        SF2Prim (binary_normalize prec emax
                   ((if neg then Z.neg p else Z.pos p) * 10 ^ e) 0 false)
      else
        match 10 ^ (- e) with
        | Z.pos q => SF2Prim (SFdiv prec emax (S754_finite neg p 0) (S754_finite false q 0))
        | _ => PrimFloat.nan
        end
  | _ => if neg then PrimFloat.neg_zero else PrimFloat.zero
  end.

(** The exponent part that may end a float literal. *)
Definition read_exponent (s : string) : option Z :=
  match s with
  | EmptyString => Some 0
  | String c r =>
      if Ascii.eqb c "e" || Ascii.eqb c "E" then
        let '(eneg, r1) := read_sign r in
        match digitpart r1 with
        | Some (d, EmptyString) =>
            let v := digits_value 0 d in Some (if eneg : bool then - v else v)
        | _ => None
        end
      else None
  end.

Definition float_of_str (s : string) : option float :=
  let '(neg, s1) := read_sign (strip s) in
  let word := lower s1 in
  if String.eqb word "inf" || String.eqb word "infinity" then
    Some (if neg : bool then PrimFloat.neg_infinity else PrimFloat.infinity)
  else if String.eqb word "nan" then Some PrimFloat.nan
  else
    let '(ip, s2) := match digitpart s1 with
                     | Some (d, r) => (d, r)
                     | None => (EmptyString, s1)
                     end in
    let '(fp, s3) := match s2 with
                     | String c r =>
                         if Ascii.eqb c "." then
                           match digitpart r with
                           | Some (d, r') => (d, r')
                           | None => (EmptyString, r)
                           end
                         else (EmptyString, s2)
                     | EmptyString => (EmptyString, s2)
                     end in
    if String.eqb ip "" && String.eqb fp "" then None
    else
      match read_exponent s3 with
      | Some e => Some (dec_to_float neg (digits_value 0 (ip +:+ fp)) (e - len fp))
      | None => None
      end.

(** [int(v)]. *)
Definition py_int (v : pyval) : outcome pyval :=
  match v with
  | VInt z => Ret (VInt z)
  | VBool b => Ret (VInt (Z.b2z b))
  | VFloat f =>
      match Prim2SF f with
      | S754_zero _ => Ret (VInt 0)
      | S754_finite s m e =>
          let a := if 0 <=? e then Z.pos m * 2 ^ e else Z.pos m / 2 ^ (- e) in
          Ret (VInt (if s then - a else a))
      | S754_infinity _ => Raise (Exn OverflowError "cannot convert float infinity to integer")
      | S754_nan => Raise (Exn ValueError "cannot convert float NaN to integer")
      end
  | VStr s =>
      match int_of_str s with
      | Some z => Ret (VInt z)
      | None => Raise (Exn ValueError ("invalid literal for int() with base 10: " +:+ repr_str s))
      end
  | VNone =>
      Raise (Exn TypeError
        "int() argument must be a string, a bytes-like object or a number, not 'NoneType'")
  end.

(** [float(v)]. *)
Definition py_float (v : pyval) : outcome pyval :=
  match v with
  | VFloat f => Ret (VFloat f)
  | VInt z =>
      match binary_normalize prec emax z 0 false with
      | S754_infinity _ => Raise (Exn OverflowError "int too large to convert to float")
      | x => Ret (VFloat (SF2Prim x))
      end
  | VBool b => Ret (VFloat (if b then PrimFloat.one else PrimFloat.zero))
  | VStr s =>
      match float_of_str s with
      | Some f => Ret (VFloat f)
      | None => Raise (Exn ValueError ("could not convert string to float: " +:+ repr_str s))
      end
  | VNone =>
      Raise (Exn TypeError "float() argument must be a string or a number, not 'NoneType'")
  end.

End Builtins.

(** ** [VacuumSettings] *)

Module VacuumSettings.
Import Builtins.

(** What the three methods return: the value of
    [internal_server_error(errormsg=res)], the result set [res], or the
    list [res['rows']]. *)
Inductive vacuum_result :=
  | ServerError (errormsg : payload)
  | Res (res : payload)
  | ResRows (rows : list (gmap string pyval)).

Section WithFloatText.

(** The text Python prints for a float ([repr]); the module only needs it
    to name a float used as a key, so it is kept as a parameter. *)
Variable float_repr : float -> string.

Definition py_repr (v : pyval) : string :=
  match v with
  | VNone => "None"
  | VBool b => if b then "True" else "False"
  | VInt z => PyStr.str_int z
  | VFloat f => float_repr f
  | VStr s => repr_str s
  end.

(** [str(v)], which is what ['{0}'.format(v)] inserts. *)
Definition py_str (v : pyval) : string :=
  match v with
  | VStr s => s
  | _ => py_repr v
  end.

(** [d[k]] for a dict with string keys and any value [k]. *)
Definition lookup_key {A} (d : gmap string A) (k : pyval) : outcome A :=
  match k with
  | VStr s => getitem d s
  | _ => Raise (Exn KeyError (py_repr k))
  end.

(** [l[i]] on a list, for a constant index. *)
Definition list_item (l : list pyval) (i : nat) : outcome pyval :=
  match l !! i with
  | Some v => Ret v
  | None => Raise (Exn IndexError "list index out of range")
  end.

(** [vacuum_fields[kind][row_name][i]]. *)
Definition field (vacuum_fields : gmap string (gmap string (list pyval)))
    (kind : string) (row_name : pyval) (i : nat) : outcome pyval :=
  sub ← getitem vacuum_fields kind;
  triple ← lookup_key sub row_name;
  list_item triple i.

(** [for row in rows: body(row)], the body updating the row in place. *)
Fixpoint for_rows (body : gmap string pyval -> outcome (gmap string pyval))
    (rows : list (gmap string pyval)) : outcome (list (gmap string pyval)) :=
  match rows with
  | [] => Ret []
  | row :: rows' =>
      row' ← body row;
      rest ← for_rows body rows';
      Ret (row' :: rest)
  end.

(** [res] once the loop has updated the rows of [res['rows']] in place. *)
Definition with_rows (res : payload) (rows : list (gmap string pyval)) : payload :=
  match res with
  | PDict d => PDict (<["rows" := rows]> d)
  | _ => res
  end.

Definition table_row (vacuum_fields : gmap string (gmap string (list pyval)))
    (row : gmap string pyval) : outcome (gmap string pyval) :=
  row_name ← getitem row "name";
  v ← field vacuum_fields "table" row_name 0;
  let row := <["name" := v]> row in
  v ← field vacuum_fields "table" row_name 1;
  let row := <["label" := v]> row in
  v ← field vacuum_fields "table" row_name 2;
  let row := <["column_type" := v]> row in
  Ret row.

(** In all three methods [vacuum_fields] is the configuration resource
    [vacuum_fields.json] once parsed, and [reply] is what rendering the
    defaults query and running it with [conn.execute_dict] gives. *)
Definition get_vacuum_table_settings
    (vacuum_fields : gmap string (gmap string (list pyval)))
    (reply : outcome (bool * payload)) : outcome vacuum_result :=
  _ ← getitem vacuum_fields "table";
  '(status, res) ← reply;
  if negb status then Ret (ServerError res)
  else
    rows ← payload_rows res;
    rows ← for_rows (table_row vacuum_fields) rows;
    Ret (Res (with_rows res rows)).

Definition toast_row (vacuum_fields : gmap string (gmap string (list pyval)))
    (row : gmap string pyval) : outcome (gmap string pyval) :=
  row_name ← getitem row "name";
  v ← field vacuum_fields "toast" row_name 0;
  let row := <["name" := v]> row in
  v ← field vacuum_fields "toast" row_name 1;
  let row := <["label" := v]> row in
  v ← field vacuum_fields "table" row_name 2;
  let row := <["column_type" := v]> row in
  Ret row.

Definition get_vacuum_toast_settings
    (vacuum_fields : gmap string (gmap string (list pyval)))
    (reply : outcome (bool * payload)) : outcome vacuum_result :=
  _ ← getitem vacuum_fields "toast";
  '(status, res) ← reply;
  if negb status then Ret (ServerError res)
  else
    rows ← payload_rows res;
    rows ← for_rows (toast_row vacuum_fields) rows;
    Ret (Res (with_rows res rows)).

(** [float(x)] when the column type is ['number'], [int(x)] otherwise. *)
Definition coerce (column_type x : pyval) : outcome pyval :=
  if py_eq column_type (VStr "number") then py_float x else py_int x.

Definition parse_table_row (vacuum_fields : gmap string (gmap string (list pyval)))
    (result : gmap string pyval) (type : string)
    (row : gmap string pyval) : outcome (gmap string pyval) :=
  row_name ← getitem row "name";
  v ← field vacuum_fields type row_name 0;
  let row := <["name" := v]> row in
  v ← field vacuum_fields type row_name 1;
  let row := <["label" := v]> row in
  v ← field vacuum_fields type row_name 2;
  let row := <["column_type" := v]> row in
  name ← getitem row "name";
  live ← lookup_key result name;
  match live with
  | VNone => Ret row
  | _ =>
      column_type ← getitem row "column_type";
      name ← getitem row "name";
      live ← lookup_key result name;
      value ← coerce column_type live;
      Ret (<["setting" := value]> (<["value" := value]> row))
  end.

Definition parse_toast_row (vacuum_fields : gmap string (gmap string (list pyval)))
    (result : gmap string pyval) (type : string)
    (row : gmap string pyval) : outcome (gmap string pyval) :=
  row_old_name ← getitem row "name";
  v ← field vacuum_fields type row_old_name 0;
  let row_name := "toast_" +:+ py_str v in
  v ← field vacuum_fields type row_old_name 0;
  let row := <["name" := v]> row in
  v ← field vacuum_fields type row_old_name 1;
  let row := <["label" := v]> row in
  v ← field vacuum_fields type row_old_name 2;
  let row := <["column_type" := v]> row in
  live ← getitem result row_name;
  guard ← (if truthy live
           then live ← getitem result row_name;
                Ret (match live with VNone => false | _ => true end)
           else Ret false);
  if guard : bool then
    column_type ← getitem row "column_type";
    live ← getitem result row_name;
    value ← coerce column_type live;
    Ret (<["setting" := value]> (<["value" := value]> row))
  else Ret row.

(** [type is 'table'] compares identities; the string literals of a
    CPython module are interned, so it is modelled as equality of text. *)
Definition parse_vacuum_data
    (vacuum_fields : gmap string (gmap string (list pyval)))
    (reply : outcome (bool * payload))
    (result : gmap string pyval) (type : string) : outcome vacuum_result :=
  _ ← getitem vacuum_fields type;
  '(status, res) ← reply;
  if negb status then Ret (ServerError res)
  else if String.eqb type "table" then
    rows ← payload_rows res;
    rows ← for_rows (parse_table_row vacuum_fields result type) rows;
    Ret (ResRows rows)
  else if String.eqb type "toast" then
    rows ← payload_rows res;
    rows ← for_rows (parse_toast_row vacuum_fields result type) rows;
    Ret (ResRows rows)
  else
    rows ← payload_rows res;
    Ret (ResRows rows).

(** The row once the three configured fields are set. *)
Definition described (name label column_type : pyval) (row : gmap string pyval)
  : gmap string pyval :=
  <["column_type" := column_type]> (<["label" := label]> (<["name" := name]> row)).

(** The row once a live value is stored as well. *)
Definition stored (value : pyval) (row : gmap string pyval) : gmap string pyval :=
  <["setting" := value]> (<["value" := value]> row).

End WithFloatText.

(** A configuration resource and rows for examples. The toast sub-mapping
    has a key, [toast_only], that the table sub-mapping lacks. *)
Definition scale_factor : string := "autovacuum_vacuum_scale_factor".
Definition threshold : string := "autovacuum_vacuum_threshold".

Definition example_fields : gmap string (gmap string (list pyval)) :=
  <["table" :=
      <[scale_factor := [VStr scale_factor; VStr "Scale factor"; VStr "number"]]>
      {[ threshold := [VStr threshold; VStr "Threshold"; VStr "integer"] ]}]>
  {[ "toast" :=
      <[scale_factor := [VStr scale_factor; VStr "Scale factor"; VStr "number"]]>
      (<[threshold := [VStr threshold; VStr "Threshold"; VStr "integer"]]>
      {[ "toast_only" := [VStr "toast_only"; VStr "Only for TOAST"; VStr "integer"] ]}) ]}.

(** A row of the defaults query. *)
Definition default_row (name : string) (setting : pyval) : gmap string pyval :=
  <["name" := VStr name]> {[ "setting" := setting ]}.

Definition example_reply (rows : list (gmap string pyval)) : outcome (bool * payload) :=
  Ret (true, PDict {[ "rows" := rows ]}).

(** A stand-in for the text of floats, where an example needs one. *)
Definition no_float_text (f : float) : string := "".

(** The binary64 nearest to 0.2. *)
Definition float_0_2 : float := 0x1.999999999999ap-3%float.

End VacuumSettings.

(** ** [SchemaChildModule] *)

Module SchemaChildModule.

(** [a and b], [a or b] and [not a]: the operators give back one of their
    operands and do not evaluate the second one when the first decides. *)
Definition py_and (a b : outcome pyval) : outcome pyval :=
  x ← a; if truthy x then b else Ret x.

Definition py_or (a b : outcome pyval) : outcome pyval :=
  x ← a; if truthy x then Ret x else b.

Definition py_not (a : outcome pyval) : outcome pyval :=
  x ← a; Ret (VBool (negb (truthy x))).

(** [kwargs['schema_name'] in self.SUPPORTED_SCHEMAS]. *)
Definition schema_listed (SUPPORTED_SCHEMAS : option (list pyval))
    (kwargs : gmap string pyval) : outcome pyval :=
  v ← getitem kwargs "schema_name";
  match SUPPORTED_SCHEMAS with
  | Some l => Ret (VBool (py_in v l))
  | None => Raise (Exn TypeError "argument of type 'NoneType' is not iterable")
  end.

(** [BackendSupported]. The two class attributes are arguments;
    [parent] is what [CollectionNodeModule.BackendSupported] gives when it
    is called. *)
Definition BackendSupported (CATALOG_DB_SUPPORTED : bool)
    (SUPPORTED_SCHEMAS : option (list pyval)) (kwargs : gmap string pyval)
    (parent : outcome pyval) : outcome pyval :=
  py_and
    (py_or
       (py_and (getitem kwargs "is_catalog")
          (py_or
             (py_and (Ret (VBool CATALOG_DB_SUPPORTED)) (getitem kwargs "db_support"))
             (py_and (py_not (Ret (VBool CATALOG_DB_SUPPORTED)))
                (py_and (py_not (getitem kwargs "db_support"))
                   (py_or
                      (Ret (VBool (match SUPPORTED_SCHEMAS with
                                   | None => true | Some _ => false end)))
                      (schema_listed SUPPORTED_SCHEMAS kwargs))))))
       (py_and (py_not (getitem kwargs "is_catalog"))
          (Ret (VBool CATALOG_DB_SUPPORTED))))
    parent.

(** [module_use_template_javascript]. *)
Definition module_use_template_javascript : bool := false.

End SchemaChildModule.

(** ** Vocabulary of the further trigger properties *)

Module TriggerVocabulary.

(** The flags read from [tgtype]: an [int], or a [bool] taken as 0 or 1. *)
Definition as_flags (v : pyval) : option Z :=
  match v with
  | VInt z => Some z
  | VBool b => Some (Z.b2z b)
  | _ => None
  end.

(** The keys [trigger_definition] writes. *)
Definition trigger_keys : list string :=
  [ "fires"; "is_row_trigger"; "evnt_insert"; "evnt_delete"; "evnt_update";
    "evnt_truncate" ].

End TriggerVocabulary.

(** ** Vocabulary of the further type properties *)

Module TypesVocabulary.

(** The bounds [get_types] gives with each type value. *)
Definition bounds_of (typeval : string) : Z * Z :=
  if String.eqb typeval "L" then (1, 2147483647)
  else if String.eqb typeval "D" then (0, 10)
  else if String.eqb typeval "P" then (1, 1000)
  else (0, 0).

(** The keys of an entry of [get_types]. *)
Definition entry_keys : list string :=
  [ "label"; "value"; "typval"; "precision"; "length"; "min_val"; "max_val";
    "is_collatable" ].

(** The entry, key by key: what is read under each of the eight keys, and
    no key besides them. *)
Definition entry_with (entry : gmap string pyval) (typname : pyval)
    (typeval : string) (precision length : bool) (min_val max_val : Z)
    (is_collatable : pyval) : Prop :=
  entry !! "label" = Some typname /\
  entry !! "value" = Some typname /\
  entry !! "typval" = Some (VStr typeval) /\
  entry !! "precision" = Some (VBool precision) /\
  entry !! "length" = Some (VBool length) /\
  entry !! "min_val" = Some (VInt min_val) /\
  entry !! "max_val" = Some (VInt max_val) /\
  entry !! "is_collatable" = Some is_collatable /\
  dom entry = list_to_set entry_keys.

(** What an entry of [get_types] owes to its row: a row with a truthy
    [elemoid] is classified by it, any other row has the flags false and
    the bounds zero, next to whatever type value is current. *)
Definition entry_of_row (row entry : gmap string pyval) : Prop :=
  exists elemoid typname is_collatable,
    row !! "elemoid" = Some elemoid /\
    row !! "typname" = Some typname /\
    row !! "is_collatable" = Some is_collatable /\
    if truthy elemoid then
      let '(length, precision, typeval) :=
        DataTypeReader.get_length_precision elemoid in
      entry_with entry typname typeval precision length
        (bounds_of typeval).1 (bounds_of typeval).2 is_collatable
    else
      exists typeval, entry_with entry typname typeval false false 0 0 is_collatable.

(** The first row, if there is one, has a truthy [elemoid]. *)
Definition classified_head (rows : list (gmap string pyval)) : Prop :=
  match rows with
  | [] => True
  | row :: _ => exists elemoid, row !! "elemoid" = Some elemoid /\ truthy elemoid = true
  end.

End TypesVocabulary.

(** ** Vocabulary of the further vacuum properties *)

Module VacuumVocabulary.

(** The row is named by a text that the sub-mapping [sub] configures with
    at least the three fields [name], [label] and [column_type]. *)
Definition configured (sub : gmap string (list pyval)) (row : gmap string pyval)
    (name label column_type : pyval) : Prop :=
  exists n rest,
    row !! "name" = Some (VStr n) /\
    sub !! n = Some (name :: label :: column_type :: rest).

(** [row'] is [row] with its three configured fields set. *)
Definition described_by (sub : gmap string (list pyval))
    (row row' : gmap string pyval) : Prop :=
  exists name label column_type,
    configured sub row name label column_type /\
    row' = VacuumSettings.described name label column_type row.

(** [row'] is [row] with [name] and [label] set from what [toast]
    configures for its name and [column_type] from what [table] configures
    for it. *)
Definition toast_described_by (toast table : gmap string (list pyval))
    (row row' : gmap string pyval) : Prop :=
  exists n name label rest t0 t1 column_type rest',
    row !! "name" = Some (VStr n) /\
    toast !! n = Some (name :: label :: rest) /\
    table !! n = Some (t0 :: t1 :: column_type :: rest') /\
    row' = VacuumSettings.described name label column_type row.

(** [row'] is [row] with its three configured fields set and, maybe, one
    value stored under [value] and [setting]. *)
Definition parsed_by (sub : gmap string (list pyval))
    (row row' : gmap string pyval) : Prop :=
  exists name label column_type,
    configured sub row name label column_type /\
    (row' = VacuumSettings.described name label column_type row \/
     exists value,
       row' = VacuumSettings.stored value
                (VacuumSettings.described name label column_type row)).

End VacuumVocabulary.

(** ** Vocabulary of the further rule properties *)

Module RuleVocabulary.

(** A run of whitespace. *)
Fixpoint all_space (s : string) : bool :=
  match s with
  | EmptyString => true
  | String c s' => PyStr.is_space c && all_space s'
  end.

(** [text] holds the word [w] between two characters of whitespace. *)
Definition spaced_word (w text : string) : Prop :=
  exists pre c1 c2 post,
    PyStr.is_space c1 = true /\ PyStr.is_space c2 = true /\
    text = pre +:+ String c1 (w +:+ String c2 post).

(** The keys [parse_rule_definition] writes. *)
Definition rule_keys : list string :=
  [ "event"; "do_instead"; "statements"; "condition" ].

End RuleVocabulary.

(** ** Vocabulary of the event and condition of a rule *)

Module RuleFieldVocabulary.

(** Every character of the text is of the class [p]. *)
Fixpoint all_chars (p : ascii -> bool) (s : string) : bool :=
  match s with
  | EmptyString => true
  | String c s' => p c && all_chars p s'
  end.

(** A text without newline. *)
Definition one_line (s : string) : bool :=
  all_chars (fun c => negb (Ascii.eqb c Re.newline)) s.

(** A non-empty run of whitespace. *)
Definition blank (s : string) : Prop :=
  s <> "" /\ all_chars PyStr.is_space s = true.

(** [text] holds [e], on one line, after the word [w1] and before the
    word [w2], with whitespace on both sides of it. *)
Definition between_words (w1 w2 e text : string) : Prop :=
  exists pre ws ws' post,
    blank ws /\ blank ws' /\ one_line e = true /\
    text = pre +:+ (w1 +:+ (ws +:+ (e +:+ (ws' +:+ (w2 +:+ post))))).

End RuleFieldVocabulary.

(** * Properties *)

(** [simpl] may unfold the concatenation of strings. *)
#[local] Arguments String.append !s1 s2 : simpl nomatch.

Local Open Scope list_scope.

(** ** The outcome monad *)

Lemma bind_ret {A B} (a : A) (f : A -> outcome B) : Ret a ≫= f = f a.
Proof. reflexivity. Qed.

Lemma bind_raise {A B} (e : exn) (f : A -> outcome B) : Raise e ≫= f = Raise e.
Proof. reflexivity. Qed.

Lemma getitem_some {A} (d : gmap string A) k v : d !! k = Some v -> getitem d k = Ret v.
Proof. intros H. unfold getitem. by rewrite H. Qed.

Lemma getitem_none {A} (d : gmap string A) k :
  d !! k = None -> getitem d k = Raise (Exn KeyError (repr_str k)).
Proof. intros H. unfold getitem. by rewrite H. Qed.

(** ** Trigger flags *)

Module TriggerFacts.
Import Trigger.

(** Masking with a single bit is non-zero exactly when that bit is set. *)
Lemma land_bit (t k : Z) :
  0 <= k -> negb (Z.land t (Z.shiftl 1 k) =? 0) = Z.testbit t k.
Proof.
  intros Hk. rewrite Z.shiftl_1_l.
  destruct (Z.testbit t k) eqn:E.
  - apply negb_true_iff, Z.eqb_neq. intros H0.
    assert (Z.testbit (Z.land t (2 ^ k)) k = false) as H by (rewrite H0; apply Z.bits_0).
    rewrite Z.land_spec, E, Z.pow2_bits_true in H by lia. discriminate.
  - apply negb_false_iff, Z.eqb_eq. apply Z.bits_inj'. intros n Hn.
    rewrite Z.land_spec, Z.bits_0, Z.pow2_bits_eqb by lia.
    destruct (Z.eqb_spec k n) as [->|]; [rewrite E|]; auto using andb_false_r.
Qed.

Lemma has_flag_int (data : gmap string pyval) t k :
  data !! "tgtype" = Some (VInt t) -> 0 <= k ->
  has_flag data (Z.shiftl 1 k) = Ret (Z.testbit t k).
Proof.
  intros H Hk. unfold has_flag. rewrite (getitem_some _ _ _ H). simpl.
  by rewrite land_bit.
Qed.

Lemma set_flag_int (data : gmap string pyval) t key k :
  data !! "tgtype" = Some (VInt t) -> 0 <= k ->
  set_flag data key (Z.shiftl 1 k) = Ret (<[key := VBool (Z.testbit t k)]> data).
Proof. intros H Hk. unfold set_flag. by rewrite (has_flag_int _ t). Qed.

Lemma set_fires_int (data : gmap string pyval) t :
  data !! "tgtype" = Some (VInt t) ->
  set_fires data = Ret (<["fires" := VStr (fires_of t)]> data).
Proof.
  intros H. unfold set_fires, fires_of, TRIGGER_TYPE_BEFORE, TRIGGER_TYPE_INSTEAD.
  rewrite !(has_flag_int _ t) by (done || lia).
  by destruct (Z.testbit t 1), (Z.testbit t 6).
Qed.

(** C2. For every record holding an integer [tgtype], [trigger_definition]
    succeeds and sets [fires] to BEFORE when bit 1 is set, else to
    INSTEAD OF when bit 6 is set, else to AFTER, and sets [is_row_trigger]
    and the four event flags to bits 0, 2, 3, 4 and 5 of the flags; all
    other bits are ignored. *)
Theorem trigger_definition_decodes (data : gmap string pyval) (t : Z) :
  data !! "tgtype" = Some (VInt t) ->
  trigger_definition data = Ret (decoded t data).
Proof.
  intros H. unfold trigger_definition, decoded.
  rewrite (set_fires_int _ t H), bind_ret.
  unfold TRIGGER_TYPE_ROW, TRIGGER_TYPE_INSERT, TRIGGER_TYPE_DELETE,
    TRIGGER_TYPE_UPDATE, TRIGGER_TYPE_TRUNCATE.
  repeat (rewrite (set_flag_int _ t), bind_ret;
          [ | by rewrite ?lookup_insert_ne | lia ]).
  reflexivity.
Qed.

(** The flags 0: AFTER, not a row trigger, no event. *)
Lemma trigger_definition_zero :
  ({[ "tgtype" := VInt 0 ]} : gmap string pyval) !! "tgtype" = Some (VInt 0) /\
  trigger_definition {[ "tgtype" := VInt 0 ]} =
    Ret (<["evnt_truncate" := VBool false]>
        (<["evnt_update" := VBool false]>
        (<["evnt_delete" := VBool false]>
        (<["evnt_insert" := VBool false]>
        (<["is_row_trigger" := VBool false]>
        (<["fires" := VStr "AFTER"]> {[ "tgtype" := VInt 0 ]})))))).
Proof.
  split; [reflexivity|].
  apply (trigger_definition_decodes {[ "tgtype" := VInt 0 ]} 0). reflexivity.
Defined.

(** BEFORE and INSTEAD both set: BEFORE wins. *)
Example trigger_before_wins :
  trigger_definition {[ "tgtype" := VInt 66 ]} ≫= (fun d => Ret (d !! "fires"))
  = Ret (Some (VStr "BEFORE")).
Proof. reflexivity. Qed.

End TriggerFacts.

(** ** Type classification *)

Module ClassifyFacts.
Import DataTypeReader.

Lemma py_in_app v l1 l2 : py_in v (l1 ++ l2) = py_in v l1 || py_in v l2.
Proof. apply existsb_app. Qed.

(** C3, as the code has it. Every identifier of the L, D and P enumerations
    is classified in its bucket (length only, length only, length and
    precision); every other identifier that is truthy yields
    [(False, False, ' ')], the type value being one space and not the empty
    string; the empty string is the type value of falsy identifiers
    ([None], [0], the empty string) only. The function is a function of its
    argument alone. *)
Theorem get_length_precision_buckets :
  Forall (fun v => get_length_precision v = (true, false, "L")) L_types /\
  Forall (fun v => get_length_precision v = (true, false, "D")) D_types /\
  Forall (fun v => get_length_precision v = (true, true, "P")) P_types /\
  (forall v, truthy v = true ->
     py_in v (L_types ++ D_types ++ P_types) = false ->
     get_length_precision v = (false, false, " ")) /\
  (forall v, truthy v = false -> get_length_precision v = (false, false, "")).
Proof.
  split; [|split; [|split; [|split]]].
  - unfold L_types. repeat constructor.
  - unfold D_types. repeat constructor.
  - unfold P_types. repeat constructor.
  - intros v Ht Hin. rewrite !py_in_app in Hin.
    apply orb_false_elim in Hin as [HL Hin].
    apply orb_false_elim in Hin as [HD HP].
    unfold get_length_precision. by rewrite Ht, HL, HD, HP.
  - intros v Ht. unfold get_length_precision. by rewrite Ht.
Qed.

(** An identifier outside the enumeration, classified through the theorem. *)
Lemma get_length_precision_integer :
  truthy (VStr "integer") = true /\
  py_in (VStr "integer") (L_types ++ D_types ++ P_types) = false /\
  get_length_precision (VStr "integer") = (false, false, " ").
Proof.
  split; [reflexivity|]. split; [reflexivity|].
  apply (proj1 (proj2 (proj2 (proj2 get_length_precision_buckets)))); reflexivity.
Defined.

(** C3 as the specification states it fails: the unknown, non-empty
    identifier ['integer'] does not yield [(False, False, '')]. *)
Lemma get_length_precision_unknown_not_empty :
  truthy (VStr "integer") = true /\
  py_in (VStr "integer") (L_types ++ D_types ++ P_types) = false /\
  get_length_precision (VStr "integer") = (false, false, " ") /\
  get_length_precision (VStr "integer") <> (false, false, "").
Proof. repeat split; try reflexivity. discriminate. Qed.

End ClassifyFacts.

(** ** Strings *)

Module PyStrFacts.
Import PyStr.

Lemma append_nil_r (s : string) : s +:+ "" = s.
Proof. induction s; simpl; congruence. Qed.

Lemma append_assoc (a b c : string) : (a +:+ b) +:+ c = a +:+ (b +:+ c).
Proof. induction a; simpl; congruence. Qed.

Lemma length_append (a b : string) :
  String.length (a +:+ b) = (String.length a + String.length b)%nat.
Proof. induction a; simpl; congruence. Qed.

Lemma mem_app c (a b : string) : mem c (a +:+ b) = mem c a || mem c b.
Proof. induction a; simpl; [done|]. rewrite IHa. by rewrite orb_assoc. Qed.

Lemma prefix_mem c (p s : string) :
  String.prefix p s = true -> mem c p = true -> mem c s = true.
Proof.
  revert s. induction p as [|a p IH]; intros s Hp Hm; [discriminate|].
  destruct s as [|b s]; [discriminate|]. simpl in *.
  destruct (ascii_dec a b) as [->|]; [|discriminate].
  destruct (Ascii.eqb c b); [done|]. simpl in *. eauto.
Qed.

(** A text that lacks a character of [sub] does not contain [sub]. *)
Lemma find_from_absent c (s sub : string) i :
  mem c sub = true -> mem c s = false -> find_from s sub i = -1.
Proof.
  intros Hsub. revert i. induction s as [|b s IH]; intros i Hs.
  - cbn [find_from]. destruct (String.prefix sub "") eqn:E; [|done].
    by rewrite (prefix_mem c _ _ E Hsub) in Hs.
  - cbn [find_from]. destruct (String.prefix sub (String b s)) eqn:E.
    + by rewrite (prefix_mem c _ _ E Hsub) in Hs.
    + simpl in Hs. apply orb_false_elim in Hs as [_ Hs]. by apply IH.
Qed.

Lemma find_absent c (s sub : string) :
  mem c sub = true -> mem c s = false -> find s sub = -1.
Proof. apply find_from_absent. Qed.

End PyStrFacts.

(** ** Formatting a type name *)

Module FormatFacts.
Import PyStr PyStrFacts DataTypeReader.

(** A name without a dot has no schema prefix to skip. *)
Lemma skip_schema_no_dot (schema typname : string) :
  mem "." typname = false -> skip_schema schema typname = Ret typname.
Proof.
  intros H. unfold skip_schema.
  rewrite (find_absent "." typname (schema +:+ dquote +:+ ".")), (find_absent "." typname (schema +:+ "."));
    try done; rewrite !mem_app; simpl; by rewrite ?orb_true_r.
Qed.

(** When a schema prefix is found, what is kept of the type name is one
    character of it. *)
Lemma skip_schema_one_char (schema typname name : string) :
  0 <= find typname (schema +:+ ".") \/ 0 <= find typname (schema +:+ dquote +:+ ".") ->
  skip_schema schema typname = Ret name ->
  String.length name = 1%nat.
Proof.
  assert (Hidx : forall s i, index s i = Ret name -> String.length name = 1%nat).
  { intros s i. unfold index.
    destruct (_ && _) eqn:E; [|discriminate]. intros [= <-].
    apply andb_true_iff in E as [E1 E2].
    apply Z.leb_le in E1. apply Z.ltb_lt in E2. unfold len in E2.
    set (j := if i <? 0 then _ else _) in *.
    assert (Hj : (Z.to_nat j < String.length s)%nat) by lia.
    clearbody j. revert Hj. generalize (Z.to_nat j). clear.
    induction s as [|c s IH]; intros [|n] Hn; simpl in *; try lia.
    apply IH. lia. }
  intros Hfound. unfold skip_schema.
  destruct (0 <=? find typname (schema +:+ dquote +:+ ".")) eqn:E1; [by apply Hidx|].
  destruct (0 <=? find typname (schema +:+ ".")) eqn:E2; [by apply Hidx|].
  apply Z.leb_gt in E1, E2. lia.
Qed.

(** C4 fails on the code: with schema [myschema] and the type name
    [myschema."mytype"] the prefix is found, but the name is then taken to
    be the single character at the index after the prefix (the opening
    quote), not the rest of the type name, and the display string is empty
    instead of [mytype]. *)
Theorem get_full_type_schema_prefix_lost :
  get_full_type (Some "myschema") ("myschema." +:+ dquote +:+ "mytype" +:+ dquote)
    false 0 (-1) = Ret "".
Proof. reflexivity. Qed.

(** C5, with the example the code supports. When [typmod != -1] the length
    suffix is: for [numeric], [((typmod - 4) >> 16, (typmod - 4) & 0xFFFF)];
    for the time and timestamp names and [bit], [bit varying], [varbit],
    [(typmod)] as it is; for [interval], [(typmod & 0xFFFF)]; for [date],
    nothing; for every other name, [(typmod - 4)]. In particular, schema
    [public], name [numeric] and modifier [655368] give [numeric(10,4)]. *)
Theorem type_length_decodes (typmod : Z) :
  typmod <> -1 ->
  type_length "numeric" typmod =
    "(" +:+ str_int (Z.shiftr (typmod - 4) 16) +:+ ","
        +:+ str_int (Z.land (typmod - 4) 65535) +:+ ")" /\
  (forall name, In name verbatim_types ->
     type_length name typmod = "(" +:+ str_int typmod +:+ ")") /\
  type_length "interval" typmod = "(" +:+ str_int (Z.land typmod 65535) +:+ ")" /\
  type_length "date" typmod = "" /\
  (forall name, name <> "numeric" -> ~ In name verbatim_types ->
     name <> "interval" -> name <> "date" ->
     type_length name typmod = "(" +:+ str_int (typmod - 4) +:+ ")") /\
  get_full_type (Some "public") "numeric" false 0 655368 = Ret "numeric(10,4)".
Proof.
  intros Hm. apply Z.eqb_neq in Hm.
  assert (Hclose : forall x, (if 0 <? len ("(" +:+ x) then ("(" +:+ x) +:+ ")" else "(" +:+ x)
                             = "(" +:+ x +:+ ")").
  { intros x. unfold len. simpl String.length. rewrite Nat2Z.inj_succ.
    replace (0 <? Z.succ (Z.of_nat (String.length x))) with true
      by (symmetry; apply Z.ltb_lt; lia).
    reflexivity. }
  repeat split.
  - unfold type_length. rewrite Hm. cbn [String.eqb Ascii.eqb Bool.eqb].
    rewrite Hclose. by rewrite !append_assoc.
  - intros name Hin. unfold type_length. rewrite Hm.
    simpl in Hin.
    repeat (destruct Hin as [<- | Hin]; [apply Hclose|]). done.
  - unfold type_length. rewrite Hm. apply Hclose.
  - unfold type_length. by rewrite Hm.
  - intros name H1 H2 H3 H4. unfold type_length. rewrite Hm.
    simpl in H2.
    repeat match goal with
           | |- context [String.eqb name ?c] =>
               destruct (String.eqb_spec name c) as [->|_];
               [exfalso; (congruence || (apply H2; tauto))|]
           end.
    apply Hclose.
Qed.

(** A modifier other than [-1], decoded through the theorem. *)
Lemma type_length_numeric_10_4 :
  655368 <> -1 /\ type_length "numeric" 655368 = "(10,4)".
Proof.
  split; [lia|]. apply (type_length_decodes 655368). lia.
Defined.

(** C5 as the specification states it fails in its example: the modifier
    [655364] is [10 * 65536 + 4], so the scale [(655364 - 4) & 0xFFFF] is 0
    and the display string is [numeric(10,0)], not [numeric(10,4)]. *)
Lemma get_full_type_numeric_655364 :
  Z.land (655364 - 4) 65535 = 0 /\
  get_full_type (Some "public") "numeric" false 0 655364 = Ret "numeric(10,0)" /\
  get_full_type (Some "public") "numeric" false 0 655364 <> Ret "numeric(10,4)".
Proof. repeat split; try reflexivity. discriminate. Qed.

End FormatFacts.

(** ** Rule definitions *)

Module RuleFacts.
Import Rule.

(** C6. The two rule texts of the specification parse to the fields it
    gives; and for any text, each field is found by its own pattern and
    falls back on the empty string (on [False] for [do_instead]) when that
    pattern does not match, the call returning the row all the same. *)
Theorem parse_rule_definition_fields :
  parse_rule_definition (rule_res rule_text_1) =
    Ret (RuleData (with_fields "Insert" true "(stmt);" "(cond)"
                     {[ "definition" := VStr rule_text_1 ]})) /\
  parse_rule_definition (rule_res rule_text_2) =
    Ret (RuleData (with_fields "Update" false "(stmt);" ""
                     {[ "definition" := VStr rule_text_2 ]})) /\
  (forall res row rest text,
     res !! "rows" = Some (row :: rest) ->
     row !! "definition" = Some (VStr text) ->
     exists event do_instead statements condition,
       parse_rule_definition res =
         Ret (RuleData (with_fields event do_instead statements condition row)) /\
       (Re.search event_re text = None -> event = "") /\
       (Re.search instead_re text = None -> do_instead = false) /\
       (Re.search statement_re text = None -> statements = "") /\
       (Re.search condition_re text = None -> condition = "")).
Proof.
  split; [reflexivity|]. split; [reflexivity|].
  intros res row rest text Hrows Hdef.
  exists (PyStr.capitalize (PyStr.lower
            (default "" (Re.search event_re text ≫= (fun caps => caps !! 1%nat))))),
    (match Re.search instead_re text ≫= (fun caps => caps !! 1%nat) with
     | Some _ => true | None => false end),
    (default "" (Re.search statement_re text ≫= (fun caps => caps !! 1%nat))),
    (default "" (Re.search condition_re text ≫= (fun caps => caps !! 1%nat))).
  split.
  - unfold parse_rule_definition.
    rewrite (getitem_some _ _ _ Hrows), bind_ret, bind_ret.
    rewrite (getitem_some _ _ _ Hdef), bind_ret.
    reflexivity.
  - repeat split; intros ->; reflexivity.
Qed.

(** The general part of the theorem, used on the second text. *)
Lemma parse_rule_definition_no_where :
  rule_res rule_text_2 !! "rows" = Some [ {[ "definition" := VStr rule_text_2 ]} ] /\
  ({[ "definition" := VStr rule_text_2 ]} : gmap string pyval) !! "definition"
    = Some (VStr rule_text_2) /\
  Re.search condition_re rule_text_2 = None /\
  exists event do_instead statements condition,
    parse_rule_definition (rule_res rule_text_2) =
      Ret (RuleData (with_fields event do_instead statements condition
                       {[ "definition" := VStr rule_text_2 ]})) /\
    condition = "".
Proof.
  split; [reflexivity|]. split; [reflexivity|]. split; [reflexivity|].
  destruct (proj2 (proj2 parse_rule_definition_fields)
              (rule_res rule_text_2) {[ "definition" := VStr rule_text_2 ]} []
              rule_text_2 eq_refl eq_refl)
    as (event & do_instead & statements & condition & Hret & _ & _ & _ & Hcond).
  exists event, do_instead, statements, condition.
  split; [exact Hret|]. apply Hcond. reflexivity.
Defined.

(** Without rows the exception is turned into the server-error value. *)
Example parse_rule_definition_no_rows :
  parse_rule_definition {[ "rows" := [] ]} =
    Ret (InternalServerError "list index out of range").
Proof. reflexivity. Qed.

End RuleFacts.

(** ** Listing the types *)

Module TypesFacts.
Import DataTypeReader TypesVocabulary.

Lemma get_types_ret (status : bool) (rset : payload) :
  get_types (Ret (status, rset)) =
    if status then
      match rows_of_reply rset with
      | Ret res => Ret (true, PList res)
      | Raise e => Ret (false, PStr (exn_str e))
      end
    else Ret (false, rset).
Proof.
  unfold get_types, rows_of_reply. destruct status; simpl; [|done].
  destruct (payload_rows rset) as [rows|e]; simpl; [|done].
  by destruct (type_rows rows None []).
Qed.

(** C8. [get_types] always returns a pair and never raises: a failure the
    executor reports is returned as it came, status flag and message; an
    exception raised by rendering or running the query, or while the rows
    are processed (a row without the expected keys, a result set without
    rows), is returned as [(False, str(e))]; otherwise the entries are
    returned with [True]. *)
Theorem get_types_never_raises (reply : outcome (bool * payload)) :
  returns (get_types reply) /\
  (forall rset, reply = Ret (false, rset) -> get_types reply = Ret (false, rset)) /\
  (forall e, reply = Raise e -> get_types reply = Ret (false, PStr (exn_str e))) /\
  (forall rset e, reply = Ret (true, rset) -> rows_of_reply rset = Raise e ->
     get_types reply = Ret (false, PStr (exn_str e))) /\
  (forall rset res, reply = Ret (true, rset) -> rows_of_reply rset = Ret res ->
     get_types reply = Ret (true, PList res)).
Proof.
  repeat split.
  - destruct reply as [[status rset]|e]; [|by eexists].
    rewrite get_types_ret. destruct status; [|by eexists].
    destruct (rows_of_reply rset); by eexists.
  - by intros rset ->.
  - by intros e ->.
  - intros rset e -> He. by rewrite get_types_ret, He.
  - intros rset res -> He. by rewrite get_types_ret, He.
Qed.

(** A row without [typname] is a malformed row: its [KeyError] comes back
    as the message. *)
Lemma get_types_malformed_row :
  rows_of_reply (PDict {[ "rows" := [ {[ "elemoid" := VInt 1700 ]} ] ]})
    = Raise (Exn KeyError "'typname'") /\
  get_types (Ret (true, PDict {[ "rows" := [ {[ "elemoid" := VInt 1700 ]} ] ]}))
    = Ret (false, PStr "'typname'").
Proof.
  split; [reflexivity|].
  apply (proj1 (proj2 (proj2 (proj2
           (get_types_never_raises
              (Ret (true, PDict {[ "rows" := [ {[ "elemoid" := VInt 1700 ]} ] ]}))))))
           (PDict {[ "rows" := [ {[ "elemoid" := VInt 1700 ]} ] ]})
           (Exn KeyError "'typname'")); reflexivity.
Defined.

(** *** The classification variable across rows *)

(** A row with a truthy [elemoid] is classified afresh, whatever the
    variable held. *)
Lemma type_row_truthy (tv : option string) (row : gmap string pyval) e :
  complete_row row -> row !! "elemoid" = Some e -> truthy e = true ->
  exists entry, type_row tv row = Ret (Some (get_length_precision e).2, entry).
Proof.
  intros (_ & [n Hn] & [c Hc]) He Ht. unfold type_row.
  rewrite (getitem_some _ _ _ He), bind_ret, Ht.
  destruct (get_length_precision e) as [[l p] t]. simpl.
  rewrite (getitem_some _ _ _ Hn), (getitem_some _ _ _ Hc).
  destruct l; simpl; by eexists.
Qed.

(** A row with a falsy [elemoid] keeps the variable: bound, it is the type
    value of the entry, next to flags that are false and bounds that are
    zero. *)
Lemma type_row_falsy_bound (t : string) (row : gmap string pyval) e n c :
  row !! "elemoid" = Some e -> truthy e = false ->
  row !! "typname" = Some n -> row !! "is_collatable" = Some c ->
  type_row (Some t) row = Ret (Some t, type_entry n t false false 0 0 c).
Proof.
  intros He Ht Hn Hc. unfold type_row.
  rewrite (getitem_some _ _ _ He), bind_ret, Ht. simpl.
  by rewrite (getitem_some _ _ _ Hn), (getitem_some _ _ _ Hc).
Qed.

(** Unbound, reading it raises. *)
Lemma type_row_falsy_unbound (row : gmap string pyval) e :
  row !! "elemoid" = Some e -> truthy e = false -> is_Some (row !! "typname") ->
  type_row None row = Raise (Exn UnboundLocalError unbound_typeval).
Proof.
  intros He Ht [n Hn]. unfold type_row.
  rewrite (getitem_some _ _ _ He), bind_ret, Ht. simpl.
  by rewrite (getitem_some _ _ _ Hn).
Qed.

Lemma type_row_bound (t : string) (row : gmap string pyval) :
  complete_row row -> exists t' entry, type_row (Some t) row = Ret (Some t', entry).
Proof.
  intros Hrow. pose proof Hrow as ([e He] & [n Hn] & [c Hc]).
  destruct (truthy e) eqn:Ht.
  - destruct (type_row_truthy (Some t) row e Hrow He Ht) as [entry H]. eauto.
  - rewrite (type_row_falsy_bound t row e n c) by done. eauto.
Qed.

(** Once the variable is bound, complete rows are all processed, each
    appending one entry. *)
Lemma type_rows_bound (rows : list (gmap string pyval)) :
  Forall complete_row rows ->
  forall t res, exists out, type_rows rows (Some t) res = Ret (res ++ out).
Proof.
  induction 1 as [|row rows Hrow _ IH]; intros t res.
  - exists []. simpl. by rewrite app_nil_r.
  - destruct (type_row_bound t row Hrow) as (t' & entry & Hstep).
    destruct (IH t' (res ++ [entry])) as [out Hout].
    exists (entry :: out). simpl. rewrite Hstep, bind_ret, Hout.
    by rewrite <- app_assoc.
Qed.

Lemma type_rows_stale (pre post : list (gmap string pyval)) r1 r2 e1 e2 n2 c2 :
  Forall complete_row (pre ++ r1 :: r2 :: post) ->
  r1 !! "elemoid" = Some e1 -> truthy e1 = true ->
  r2 !! "elemoid" = Some e2 -> truthy e2 = false ->
  r2 !! "typname" = Some n2 -> r2 !! "is_collatable" = Some c2 ->
  forall tv res,
    (tv = None -> pre <> [] ->
     exists r0 e0, head pre = Some r0 /\ r0 !! "elemoid" = Some e0 /\ truthy e0 = true) ->
    exists out,
      type_rows (pre ++ r1 :: r2 :: post) tv res = Ret out /\
      out !! (length res + length pre + 1)%nat =
        Some (type_entry n2 (get_length_precision e1).2 false false 0 0 c2).
Proof.
  intros Hall He1 Ht1 He2 Ht2 Hn2 Hc2.
  induction pre as [|r0 pre IH]; intros tv res Hhead.
  - simpl in Hall. apply Forall_cons in Hall as [H1 Hall].
    apply Forall_cons in Hall as [H2 Hpost].
    destruct (type_row_truthy tv r1 e1 H1 He1 Ht1) as [en1 Hstep1].
    destruct (type_rows_bound post Hpost (get_length_precision e1).2
                ((res ++ [en1]) ++ [type_entry n2 (get_length_precision e1).2 false false 0 0 c2]))
      as [out Hout].
    eexists. split.
    + simpl. rewrite Hstep1, bind_ret.
      rewrite (type_row_falsy_bound _ r2 e2 n2 c2) by done.
      rewrite bind_ret. exact Hout.
    + rewrite <- !app_assoc. simpl.
      rewrite lookup_app_r by lia.
      replace (length res + 0 + 1 - length res)%nat with 1%nat by lia. reflexivity.
  - simpl in Hall. apply Forall_cons in Hall as [H0 Hall].
    assert (exists t' en0, type_row tv r0 = Ret (Some t', en0)) as (t' & en0 & Hstep0).
    { destruct tv as [t|].
      - by apply type_row_bound.
      - destruct (Hhead eq_refl ltac:(done)) as (r & e0 & [= <-] & He0 & Ht0).
        destruct (type_row_truthy None r0 e0 H0 He0 Ht0) as [en0 H]. eauto. }
    destruct (IH Hall (Some t') (res ++ [en0])) as (out & Hout & Hidx); [done|].
    exists out. split.
    + simpl. by rewrite Hstep0, bind_ret.
    + rewrite <- Hidx. f_equal. rewrite length_app. simpl. lia.
Qed.

(** What [type_entry] builds, read key by key. *)
Lemma type_entry_with (typname : pyval) (typeval : string) (precision length : bool)
    (min_val max_val : Z) (is_collatable : pyval) :
  entry_with (type_entry typname typeval precision length min_val max_val is_collatable)
    typname typeval precision length min_val max_val is_collatable.
Proof.
  unfold entry_with, type_entry.
  repeat (split; [by rewrite ?lookup_insert_ne, ?lookup_insert_eq by done|]).
  rewrite !dom_insert_L, dom_empty_L. unfold entry_keys. cbn [list_to_set].
  apply set_eq. intros x. rewrite !elem_of_union, !elem_of_singleton. tauto.
Qed.

(** C10. The variable [typeval] is assigned only for rows with a truthy
    [elemoid] and read for every row. So when the first row has a falsy
    [elemoid] the call returns [(False, message)], the message of the
    unbound-variable error; and when a row with a falsy [elemoid] follows a
    classified row, the call succeeds and the entry of that row holds,
    under [typval], the classification of the row before it, under
    [precision] and [length] the value [False], under [min_val] and
    [max_val] the value 0, next to its own [typname] (under [label] and
    [value]) and [is_collatable], and no other key. *)
Theorem get_types_stale_typeval
    (d : gmap string (list (gmap string pyval))) :
  (forall row rows e,
     d !! "rows" = Some (row :: rows) ->
     row !! "elemoid" = Some e -> truthy e = false -> is_Some (row !! "typname") ->
     get_types (Ret (true, PDict d)) = Ret (false, PStr unbound_typeval)) /\
  (forall pre post r1 r2 e1 e2 n2 c2,
     d !! "rows" = Some (pre ++ r1 :: r2 :: post) ->
     Forall complete_row (pre ++ r1 :: r2 :: post) ->
     (pre <> [] -> exists r0 e0,
        head pre = Some r0 /\ r0 !! "elemoid" = Some e0 /\ truthy e0 = true) ->
     r1 !! "elemoid" = Some e1 -> truthy e1 = true ->
     r2 !! "elemoid" = Some e2 -> truthy e2 = false ->
     r2 !! "typname" = Some n2 -> r2 !! "is_collatable" = Some c2 ->
     exists res entry,
       get_types (Ret (true, PDict d)) = Ret (true, PList res) /\
       res !! (length pre + 1)%nat = Some entry /\
       entry !! "typval" = Some (VStr (get_length_precision e1).2) /\
       entry !! "precision" = Some (VBool false) /\
       entry !! "length" = Some (VBool false) /\
       entry !! "min_val" = Some (VInt 0) /\
       entry !! "max_val" = Some (VInt 0) /\
       entry_with entry n2 (get_length_precision e1).2 false false 0 0 c2).
Proof.
  split.
  - intros row rows e Hrows He Ht Hn.
    rewrite get_types_ret. unfold rows_of_reply. simpl.
    rewrite (getitem_some _ _ _ Hrows), bind_ret. simpl.
    by rewrite (type_row_falsy_unbound row e).
  - intros pre post r1 r2 e1 e2 n2 c2 Hrows Hall Hhead He1 Ht1 He2 Ht2 Hn2 Hc2.
    destruct (type_rows_stale pre post r1 r2 e1 e2 n2 c2 Hall He1 Ht1 He2 Ht2 Hn2 Hc2
                None []) as (out & Hout & Hidx); [by intros _|].
    pose proof (type_entry_with n2 (get_length_precision e1).2 false false 0 0 c2) as Hentry.
    exists out, (type_entry n2 (get_length_precision e1).2 false false 0 0 c2).
    split; [|split; [exact Hidx|]].
    + rewrite get_types_ret. unfold rows_of_reply. simpl.
      by rewrite (getitem_some _ _ _ Hrows), bind_ret, Hout.
    + destruct Hentry as (_ & _ & Htv & Hp & Hl & Hmin & Hmax & _).
      do 5 (split; [assumption|]).
      apply type_entry_with.
Qed.

(** The second part of the theorem on two rows: [numeric], then a row
    without element type, whose entry says [P] with no length, no
    precision and bounds 0. *)
Lemma get_types_stale_example :
  exists res entry,
    get_types (Ret (true, PDict {[ "rows" := [numeric_row; untyped_row] ]}))
      = Ret (true, PList res) /\
    res !! 1%nat = Some entry /\
    entry !! "typval" = Some (VStr "P") /\
    entry !! "precision" = Some (VBool false) /\
    entry !! "length" = Some (VBool false) /\
    entry !! "min_val" = Some (VInt 0) /\
    entry !! "max_val" = Some (VInt 0) /\
    entry_with entry (VStr "x") "P" false false 0 0 (VBool true).
Proof.
  apply (proj2 (get_types_stale_typeval {[ "rows" := [numeric_row; untyped_row] ]})
           [] [] numeric_row untyped_row (VInt 1700) VNone (VStr "x") (VBool true));
    try reflexivity.
  - repeat constructor; by eexists.
  - intros H. by destruct H.
Defined.

End TypesFacts.

(** ** Vacuum settings *)

Module VacuumFacts.
Import Builtins VacuumSettings VacuumVocabulary.

Section WithFloatText.
Variable float_repr : float -> string.
Variable vacuum_fields : gmap string (gmap string (list pyval)).

Lemma field_some kind sub n triple i v :
  vacuum_fields !! kind = Some sub -> sub !! n = Some triple -> triple !! i = Some v ->
  field float_repr vacuum_fields kind (VStr n) i = Ret v.
Proof.
  intros Hk Hn Hi. unfold field, lookup_key, list_item.
  by rewrite (getitem_some _ _ _ Hk), bind_ret, (getitem_some _ _ _ Hn), bind_ret, Hi.
Qed.

Lemma field_no_key kind sub n i :
  vacuum_fields !! kind = Some sub -> sub !! n = None ->
  field float_repr vacuum_fields kind (VStr n) i = Raise (Exn KeyError (repr_str n)).
Proof.
  intros Hk Hn. unfold field, lookup_key.
  by rewrite (getitem_some _ _ _ Hk), bind_ret, (getitem_none _ _ Hn).
Qed.

(** The loop stops at the first row whose body raises. *)
Lemma for_rows_raise body (pre post : list (gmap string pyval)) row e :
  Forall (fun r => returns (body r)) pre -> body row = Raise e ->
  for_rows body (pre ++ row :: post) = Raise e.
Proof.
  intros Hpre Hrow. induction Hpre as [|r pre [r' Hr] _ IH]; simpl.
  - by rewrite Hrow.
  - by rewrite Hr, bind_ret, IH.
Qed.

End WithFloatText.

(** The loop returns when its body returns on every row, and then gives
    the rows the body gave, in order. *)
Lemma for_rows_ret body (rows rows' : list (gmap string pyval)) :
  for_rows body rows = Ret rows' <-> Forall2 (fun r r' => body r = Ret r') rows rows'.
Proof.
  revert rows'. induction rows as [|row rows IH]; intros rows'; cbn [for_rows].
  - split; [intros [= <-]; constructor | by inversion 1].
  - split.
    + destruct (body row) as [r'|e] eqn:Hrow; [|done]. rewrite bind_ret.
      destruct (for_rows body rows) as [rest|e] eqn:Hrest; [|done].
      rewrite bind_ret. intros [= <-]. constructor; [done|]. by apply IH.
    + inversion 1 as [|? r' ? rest Hrow Hrest]; subst.
      rewrite Hrow, bind_ret. apply IH in Hrest. by rewrite Hrest.
Qed.

(** One round of the loop of [get_vacuum_toast_settings] returns exactly
    for a row that both sub-mappings configure. *)
Lemma toast_row_described (float_repr : float -> string)
    (vacuum_fields : gmap string (gmap string (list pyval)))
    (toast table : gmap string (list pyval)) (row row' : gmap string pyval) :
  vacuum_fields !! "toast" = Some toast ->
  vacuum_fields !! "table" = Some table ->
  toast_row float_repr vacuum_fields row = Ret row' <->
  toast_described_by toast table row row'.
Proof.
  intros Htoast Htable. split.
  - unfold toast_row, field.
    rewrite (getitem_some _ _ _ Htoast), (getitem_some _ _ _ Htable).
    destruct (row !! "name") as [row_name|] eqn:Hname;
      [rewrite (getitem_some _ _ _ Hname), !bind_ret | by rewrite (getitem_none _ _ Hname)].
    destruct row_name as [| | | |n]; try done. cbn [lookup_key].
    destruct (toast !! n) as [pair|] eqn:Hn;
      [rewrite (getitem_some _ _ _ Hn), !bind_ret | by rewrite (getitem_none _ _ Hn)].
    destruct pair as [|name [|label rest]]; try done.
    cbn [list_item lookup list_lookup]. rewrite !bind_ret.
    destruct (table !! n) as [triple|] eqn:Hn';
      [rewrite (getitem_some _ _ _ Hn'), !bind_ret | by rewrite (getitem_none _ _ Hn')].
    destruct triple as [|t0 [|t1 [|column_type rest']]]; try done.
    cbn [list_item lookup list_lookup]. rewrite !bind_ret. intros [= <-].
    by exists n, name, label, rest, t0, t1, column_type, rest'.
  - intros (n & name & label & rest & t0 & t1 & ct & rest' & Hname & Hn & Hn' & ->).
    unfold toast_row.
    rewrite (getitem_some _ _ _ Hname), bind_ret.
    rewrite (field_some _ _ "toast" toast n (name :: label :: rest) 0%nat name) by done.
    rewrite (field_some _ _ "toast" toast n (name :: label :: rest) 1%nat label) by done.
    by rewrite (field_some _ _ "table" table n (t0 :: t1 :: ct :: rest') 2%nat ct).
Qed.

(** C9. [get_vacuum_toast_settings] takes [name] and [label] of a row from
    the toast sub-mapping and [column_type] from the table sub-mapping; so
    a row whose name is a key of the toast sub-mapping and not of the table
    sub-mapping makes the call raise [KeyError] for that name instead of
    returning. And the call returns exactly when every row of the defaults
    query is named by a text that both sub-mappings configure (two fields
    at least for toast, three for table); what it returns is then the
    result set with, in each row and in the order of the rows, [name] and
    [label] set from the toast fields and [column_type] from the third
    table field, and nothing else changed. *)
Theorem toast_settings_column_type_from_table
    (float_repr : float -> string)
    (vacuum_fields : gmap string (gmap string (list pyval)))
    (toast table : gmap string (list pyval)) :
  vacuum_fields !! "toast" = Some toast ->
  vacuum_fields !! "table" = Some table ->
  (forall row n name label rest t0 t1 column_type rest',
     row !! "name" = Some (VStr n) ->
     toast !! n = Some (name :: label :: rest) ->
     table !! n = Some (t0 :: t1 :: column_type :: rest') ->
     toast_row float_repr vacuum_fields row = Ret (described name label column_type row)) /\
  (forall d pre row post n name label rest,
     d !! "rows" = Some (pre ++ row :: post) ->
     Forall (fun r => returns (toast_row float_repr vacuum_fields r)) pre ->
     row !! "name" = Some (VStr n) ->
     toast !! n = Some (name :: label :: rest) ->
     table !! n = None ->
     get_vacuum_toast_settings float_repr vacuum_fields (Ret (true, PDict d))
       = Raise (Exn KeyError (repr_str n))) /\
  (forall d rows out,
     d !! "rows" = Some rows ->
     get_vacuum_toast_settings float_repr vacuum_fields (Ret (true, PDict d)) = Ret out <->
     exists rows', Forall2 (toast_described_by toast table) rows rows' /\
                   out = Res (PDict (<["rows" := rows']> d))).
Proof.
  intros Htoast Htable. split; [|split].
  - intros row n name label rest t0 t1 ct rest' Hname Hn Hn'. unfold toast_row.
    rewrite (getitem_some _ _ _ Hname), bind_ret.
    rewrite (field_some _ _ "toast" toast n (name :: label :: rest) 0%nat name) by done.
    rewrite (field_some _ _ "toast" toast n (name :: label :: rest) 1%nat label) by done.
    by rewrite (field_some _ _ "table" table n (t0 :: t1 :: ct :: rest') 2%nat ct).
  - intros d pre row post n name label rest Hrows Hpre Hname Hn Hn'.
    unfold get_vacuum_toast_settings.
    rewrite (getitem_some _ _ _ Htoast), bind_ret, bind_ret. simpl.
    rewrite (getitem_some _ _ _ Hrows), bind_ret.
    rewrite (for_rows_raise _ pre post row (Exn KeyError (repr_str n))); try done.
    unfold toast_row.
    rewrite (getitem_some _ _ _ Hname), bind_ret.
    rewrite (field_some _ _ "toast" toast n (name :: label :: rest) 0%nat name) by done.
    rewrite (field_some _ _ "toast" toast n (name :: label :: rest) 1%nat label) by done.
    by rewrite (field_no_key _ _ "table" table n).
  - intros d rows out Hrows. unfold get_vacuum_toast_settings.
    rewrite (getitem_some _ _ _ Htoast), !bind_ret. cbn [negb payload_rows].
    rewrite (getitem_some _ _ _ Hrows), bind_ret.
    assert (Hloop : forall rows',
              for_rows (toast_row float_repr vacuum_fields) rows = Ret rows' <->
              Forall2 (toast_described_by toast table) rows rows').
    { intros rows'. rewrite for_rows_ret. split; intros H.
      - eapply Forall2_impl; [exact H|]. intros r r'.
        by apply toast_row_described.
      - eapply Forall2_impl; [exact H|]. intros r r'.
        by apply toast_row_described. }
    split.
    + destruct (for_rows _ rows) as [rows'|e] eqn:Hfor; [|done].
      rewrite bind_ret. intros [= <-]. exists rows'. split; [by apply Hloop|done].
    + intros (rows' & Hall & ->). apply Hloop in Hall. by rewrite Hall.
Qed.

(** The theorem on the example configuration: the defaults query returns a
    row for [toast_only], and the call raises; it returns the threshold
    row alone, and the call gives the result set back with the three
    fields of that row set. *)
Lemma toast_settings_toast_only_raises :
  get_vacuum_toast_settings no_float_text example_fields
    (example_reply [default_row scale_factor (VStr "0.2"); default_row "toast_only" (VStr "5")])
  = Raise (Exn KeyError "'toast_only'") /\
  get_vacuum_toast_settings no_float_text example_fields
    (example_reply [default_row threshold (VStr "50")])
  = Ret (Res (PDict (<["rows" :=
                        [described (VStr threshold) (VStr "Threshold") (VStr "integer")
                           (default_row threshold (VStr "50"))]]>
                     {[ "rows" := [default_row threshold (VStr "50")] ]}))).
Proof.
  assert (Htoast : example_fields !! "toast" =
            Some (<[scale_factor := [VStr scale_factor; VStr "Scale factor"; VStr "number"]]>
                  (<[threshold := [VStr threshold; VStr "Threshold"; VStr "integer"]]>
                  {[ "toast_only" := [VStr "toast_only"; VStr "Only for TOAST";
                                      VStr "integer"] ]})))
    by reflexivity.
  assert (Htable : example_fields !! "table" =
            Some (<[scale_factor := [VStr scale_factor; VStr "Scale factor"; VStr "number"]]>
                  {[ threshold := [VStr threshold; VStr "Threshold"; VStr "integer"] ]}))
    by reflexivity.
  assert (Hrows : ({[ "rows" := [default_row threshold (VStr "50")] ]}
                     : gmap string (list (gmap string pyval))) !! "rows"
                  = Some [default_row threshold (VStr "50")]) by reflexivity.
  pose proof (toast_settings_column_type_from_table no_float_text example_fields
                _ _ Htoast Htable) as (_ & Hraise & Hret).
  split.
  - apply (Hraise
             {[ "rows" := [default_row scale_factor (VStr "0.2");
                           default_row "toast_only" (VStr "5")] ]}
             [default_row scale_factor (VStr "0.2")] (default_row "toast_only" (VStr "5")) []
             "toast_only" (VStr "toast_only") (VStr "Only for TOAST") [VStr "integer"]);
      try reflexivity.
    repeat constructor. by eexists.
  - apply (proj2 (Hret _ _ _ Hrows)).
    eexists. split; [|reflexivity].
    constructor; [|constructor].
    exists threshold, (VStr threshold), (VStr "Threshold"), [VStr "integer"],
      (VStr threshold), (VStr "Threshold"), (VStr "integer"), [].
    by repeat split.
Defined.

Lemma described_column_type name label column_type (row : gmap string pyval) :
  described name label column_type row !! "column_type" = Some column_type.
Proof. unfold described. by rewrite lookup_insert_eq. Qed.

Lemma described_name name label column_type (row : gmap string pyval) :
  described name label column_type row !! "name" = Some name.
Proof.
  unfold described.
  rewrite lookup_insert_ne by done. rewrite lookup_insert_ne by done.
  apply lookup_insert_eq.
Qed.

(** C7, as the code has it. For a row whose name is configured as
    [[name, label, column_type]]:
    - kind [table] looks the live value up under [name]; [None] leaves the
      row with its three configured fields; any other value, falsy ones
      included, is passed to [float()] when the column type is ['number']
      and to [int()] otherwise, and the result is stored under [value] and
      [setting] -- or the exception of the conversion leaves the call;
    - kind [toast] looks the live value up under ['toast_' + name]; a falsy
      value is skipped as if absent, a truthy one is converted and stored
      in the same way;
    - the live value ['0.2'] of a ['number'] column becomes the float 0.2. *)
Theorem parse_vacuum_data_guards
    (float_repr : float -> string)
    (vacuum_fields : gmap string (gmap string (list pyval)))
    (result : gmap string pyval) (kind : string) (sub : gmap string (list pyval))
    (row : gmap string pyval) (n : string) (name label column_type : pyval)
    (rest : list pyval) :
  vacuum_fields !! kind = Some sub ->
  row !! "name" = Some (VStr n) ->
  sub !! n = Some (name :: label :: column_type :: rest) ->
  (forall live, lookup_key float_repr result name = Ret live ->
     parse_table_row float_repr vacuum_fields result kind row =
       match live with
       | VNone => Ret (described name label column_type row)
       | _ => value ← coerce column_type live;
              Ret (stored value (described name label column_type row))
       end) /\
  (forall live, result !! ("toast_" +:+ py_str float_repr name) = Some live ->
     parse_toast_row float_repr vacuum_fields result kind row =
       if truthy live
       then value ← coerce column_type live;
            Ret (stored value (described name label column_type row))
       else Ret (described name label column_type row)) /\
  (forall x, coerce (VStr "number") x = py_float x) /\
  (forall x, py_eq column_type (VStr "number") = false -> coerce column_type x = py_int x) /\
  coerce (VStr "number") (VStr "0.2") = Ret (VFloat float_0_2).
Proof.
  intros Hkind Hname Hn.
  assert (Hf : forall i v, (name :: label :: column_type :: rest) !! i = Some v ->
             field float_repr vacuum_fields kind (VStr n) i = Ret v).
  { intros i v. by apply field_some with sub. }
  repeat split.
  - intros live Hlive. unfold parse_table_row.
    rewrite (getitem_some _ _ _ Hname), bind_ret.
    rewrite (Hf 0%nat name), (Hf 1%nat label), (Hf 2%nat column_type) by done.
    rewrite !bind_ret. fold (described name label column_type row).
    rewrite (getitem_some _ _ _ (described_name _ _ _ _)), bind_ret.
    rewrite Hlive, bind_ret.
    destruct live; try done;
      rewrite (getitem_some _ _ _ (described_column_type _ _ _ _)), bind_ret;
      cbv beta; rewrite bind_ret; cbv beta; by rewrite Hlive, bind_ret.
  - intros live Hlive. unfold parse_toast_row.
    rewrite (getitem_some _ _ _ Hname), bind_ret.
    rewrite (Hf 0%nat name), (Hf 1%nat label), (Hf 2%nat column_type) by done.
    rewrite !bind_ret. fold (described name label column_type row).
    rewrite (getitem_some _ _ _ Hlive), bind_ret.
    destruct (truthy live) eqn:Ht; [|done].
    rewrite bind_ret.
    replace (match live with VNone => false | _ => true end) with true
      by (by destruct live).
    by rewrite (getitem_some _ _ _ (described_column_type _ _ _ _)), bind_ret.
  - intros x Hct. unfold coerce. by rewrite Hct.
Qed.

(** The theorem on the example configuration: the live value ['0.2'] of the
    scale factor, kind [table]. *)
Lemma parse_table_row_scale_factor :
  parse_table_row no_float_text example_fields {[ scale_factor := VStr "0.2" ]} "table"
    (default_row scale_factor (VStr "0.1"))
  = Ret (stored (VFloat float_0_2)
           (described (VStr scale_factor) (VStr "Scale factor") (VStr "number")
              (default_row scale_factor (VStr "0.1")))).
Proof.
  exact (proj1 (parse_vacuum_data_guards no_float_text example_fields
                  {[ scale_factor := VStr "0.2" ]} "table" _
                  (default_row scale_factor (VStr "0.1")) scale_factor
                  (VStr scale_factor) (VStr "Scale factor") (VStr "number") []
                  eq_refl eq_refl eq_refl)
           (VStr "0.2") eq_refl).
Defined.

(** How the rows reach the two loops. *)
Lemma parse_vacuum_data_rows float_repr vacuum_fields result kind sub d rows :
  vacuum_fields !! kind = Some sub -> d !! "rows" = Some rows ->
  parse_vacuum_data float_repr vacuum_fields (Ret (true, PDict d)) result kind =
    if String.eqb kind "table" then
      rows' ← for_rows (parse_table_row float_repr vacuum_fields result kind) rows;
      Ret (ResRows rows')
    else if String.eqb kind "toast" then
      rows' ← for_rows (parse_toast_row float_repr vacuum_fields result kind) rows;
      Ret (ResRows rows')
    else Ret (ResRows rows).
Proof.
  intros Hkind Hrows. unfold parse_vacuum_data.
  rewrite (getitem_some _ _ _ Hkind), bind_ret, bind_ret. simpl.
  rewrite (getitem_some _ _ _ Hrows), !bind_ret.
  by destruct (String.eqb kind "table"), (String.eqb kind "toast").
Qed.

(** C7 as the specification states it fails for kind [table]: the empty
    string is a live value that is not [None] (and is falsy), yet it is not
    stored, because [int('')] raises and the exception leaves the call. *)
Lemma parse_vacuum_data_table_empty_string :
  VStr "" <> VNone /\ truthy (VStr "") = false /\
  parse_vacuum_data no_float_text example_fields
    (example_reply [default_row threshold (VStr "50")])
    {[ threshold := VStr "" ]} "table"
  = Raise (Exn ValueError "invalid literal for int() with base 10: ''").
Proof. repeat split; try reflexivity. discriminate. Qed.

(** The string ['0'] is truthy: kind [toast] converts and stores it. *)
Example parse_vacuum_data_toast_zero_string :
  parse_vacuum_data no_float_text example_fields
    (example_reply [default_row threshold (VStr "50")])
    {[ "toast_autovacuum_vacuum_threshold" := VStr "0" ]} "toast"
  = Ret (ResRows [stored (VInt 0)
                    (described (VStr threshold) (VStr "Threshold") (VStr "integer")
                       (default_row threshold (VStr "50")))]).
Proof. reflexivity. Qed.

(** The integer 0 is falsy: kind [table] stores it, kind [toast] skips it. *)
Example parse_vacuum_data_zero_int :
  parse_vacuum_data no_float_text example_fields
    (example_reply [default_row threshold (VStr "50")])
    {[ threshold := VInt 0 ]} "table"
  = Ret (ResRows [stored (VInt 0)
                    (described (VStr threshold) (VStr "Threshold") (VStr "integer")
                       (default_row threshold (VStr "50")))]) /\
  parse_vacuum_data no_float_text example_fields
    (example_reply [default_row threshold (VStr "50")])
    {[ "toast_autovacuum_vacuum_threshold" := VInt 0 ]} "toast"
  = Ret (ResRows [described (VStr threshold) (VStr "Threshold") (VStr "integer")
                    (default_row threshold (VStr "50"))]).
Proof. split; reflexivity. Qed.

End VacuumFacts.

(** ** Suffixes, stripping and searching *)

Module SuffixFacts.
Import PyStr PyStrFacts DataTypeReader.

Lemma app_empty (a b : string) : a +:+ b = "" -> b = "".
Proof. destruct a; simpl; [done|discriminate]. Qed.

Lemma last_char_app (a b : string) : b <> "" -> last_char (a +:+ b) = last_char b.
Proof.
  intros Hb. induction a as [|c a IH]; simpl; [done|].
  rewrite IH. destruct b as [|d b]; [done|]. simpl. by destruct (last_char b).
Qed.

Lemma endswith_last (s suf : string) d :
  endswith s suf = true -> last_char suf = Some d -> last_char s = Some d.
Proof.
  intros H Hd. induction s as [|c s IH]; cbn [endswith] in H.
  - rewrite orb_false_r in H. apply String.eqb_eq in H. by subst.
  - apply orb_true_iff in H as [H|H].
    + apply String.eqb_eq in H. by subst.
    + simpl. by rewrite (IH H).
Qed.

(** A text does not end with [suf] when their last characters differ. *)
Lemma endswith_other_last (a b suf : string) c d :
  last_char b = Some c -> last_char suf = Some d -> c <> d ->
  endswith (a +:+ b) suf = false.
Proof.
  intros Hb Hsuf Hne. destruct (endswith (a +:+ b) suf) eqn:E; [|done].
  apply endswith_last with (d := d) in E; [|done].
  rewrite last_char_app in E by (by destruct b). congruence.
Qed.

Lemma endswith_app_r (a b suf : string) :
  endswith b suf = true -> endswith (a +:+ b) suf = true.
Proof.
  intros H. induction a as [|c a IH]; [done|].
  cbn [String.append endswith]. by rewrite IH, orb_true_r.
Qed.

Lemma endswith_repeat (k : nat) : endswith (repeat "[]" (S k)) "[]" = true.
Proof.
  induction k as [|k IH]; [reflexivity|].
  change (repeat "[]" (S (S k))) with ("[]" +:+ repeat "[]" (S k)).
  by apply endswith_app_r.
Qed.

Lemma rstrip_app_empty (a r chars : string) :
  rstrip r chars = "" -> rstrip (a +:+ r) chars = rstrip a chars.
Proof. intros H. induction a as [|c a IH]; simpl; [done|]. by rewrite IH. Qed.

Lemma rstrip_app_keep (a b chars : string) :
  rstrip b chars = b -> b <> "" -> rstrip (a +:+ b) chars = a +:+ b.
Proof.
  intros H Hb. induction a as [|c a IH]; simpl; [done|]. rewrite IH.
  destruct (a +:+ b) eqn:E; [|done]. by apply app_empty in E.
Qed.

Lemma rstrip_repeat (k : nat) : rstrip (repeat "[]" k) "[]" = "".
Proof.
  induction k as [|k IH]; [done|].
  change (repeat "[]" (S k)) with (String "[" (String "]" (repeat "[]" k))).
  cbn [rstrip]. by rewrite IH.
Qed.

(** Stripping the brackets of an array suffix gives back what came before. *)
Lemma rstrip_array (a b : string) (k : nat) :
  rstrip b "[]" = b -> b <> "" ->
  rstrip ((a +:+ b) +:+ repeat "[]" k) "[]" = a +:+ b.
Proof.
  intros H Hb. rewrite rstrip_app_empty by apply rstrip_repeat.
  by apply rstrip_app_keep.
Qed.

Lemma find_from_first c (p r : string) i :
  mem c p = false ->
  find_from (p +:+ String c r) (String c "") i = i + len p.
Proof.
  revert i. induction p as [|b p IH]; intros i Hp.
  - simpl. destruct (ascii_dec c c); [|done]. unfold len. simpl.
    destruct r; simpl; lia.
  - simpl in Hp. apply orb_false_elim in Hp as [Hb Hp].
    apply Ascii.eqb_neq in Hb.
    cbn [String.append find_from String.prefix].
    destruct (ascii_dec c b); [done|]. rewrite IH by done.
    unfold len. cbn [String.length]. lia.
Qed.

(** What [find_from] returns is [-1] or an index from [i] on. *)
Lemma find_from_range (s sub : string) i :
  find_from s sub i = -1 \/ i <= find_from s sub i.
Proof.
  revert i. induction s as [|c s IH]; intros i; cbn [find_from].
  - destruct (String.prefix sub ""); lia.
  - destruct (String.prefix sub (String c s)); [lia|].
    destruct (IH (i + 1)); lia.
Qed.

Lemma take_app (p r : string) : take (String.length p) (p +:+ r) = p.
Proof. induction p as [|c p IH]; simpl; [by destruct r|]. by rewrite IH. Qed.

(** [s[:len(p)]] of a text that starts with [p]. *)
Lemma slice_prefix (p r : string) : slice (p +:+ r) None (Some (len p)) = p.
Proof.
  unfold slice, clip, len. rewrite length_append.
  replace (Z.of_nat (String.length p) <? 0) with false by (symmetry; apply Z.ltb_ge; lia).
  rewrite Z.min_r by lia. rewrite Nat2Z.id, Nat.sub_0_r.
  change (drop 0 (p +:+ r)) with (p +:+ r). apply take_app.
Qed.

End SuffixFacts.

(** ** The pattern of a parenthesised number *)

Module ReFacts.
Import PyStr PyStrFacts DataTypeReader Re.

Lemma flat_map_single {A B} (f : A -> list B) (a : A) : flat_map f [a] = f a.
Proof. simpl. apply app_nil_r. Qed.

Lemma digit_not_close c : is_digit c = true -> Ascii.eqb ")" c = false.
Proof.
  intros H. destruct (Ascii.eqb_spec ")" c) as [<-|]; [discriminate|done].
Qed.

(** After a run of digits the greedy repetition can only go on with the
    closing parenthesis once all the digits are read. *)
Lemma iterate_digits (d r : string) (caps : gmap nat string) (fuel : nat) :
  all_digits d = true -> (String.length d <= fuel)%nat ->
  flat_map (rmatch (Chr ")")) (iterate (rmatch Digit) fuel (d +:+ String ")" r, caps))
    = [(r, caps)].
Proof.
  revert fuel. induction d as [|c d IH]; intros fuel Hd Hfuel.
  - destruct fuel; simpl; reflexivity.
  - simpl in Hd. apply andb_true_iff in Hd as [Hc Hd].
    destruct fuel as [|fuel]; [simpl in Hfuel; lia|].
    cbn [iterate]. cbn [rmatch one_char fst snd String.append]. rewrite Hc.
    rewrite flat_map_single. cbn [fst String.length].
    replace (String.length (d +:+ String ")" r) <? S (String.length (d +:+ String ")" r)))%nat
      with true by (symmetry; apply Nat.ltb_lt; lia).
    rewrite flat_map_app, IH by (done || (simpl in Hfuel; lia)).
    rewrite flat_map_single. cbn [rmatch one_char fst]. by rewrite (digit_not_close c Hc).
Qed.

(** The pattern matches a parenthesised run of digits, and leaves what
    follows it. *)
Lemma rmatch_paren_digits (d r : string) :
  all_digits d = true -> d <> "" ->
  exists caps, rmatch paren_digits (String "(" (d +:+ String ")" r), ∅) = [(r, caps)].
Proof.
  intros Hd Hne. destruct d as [|c d]; [done|].
  simpl in Hd. apply andb_true_iff in Hd as [Hc Hd].
  eexists. unfold paren_digits.
  cbn [rmatch one_char fst snd Ascii.eqb Bool.eqb map flat_map String.append].
  rewrite Hc. cbn [flat_map fst]. rewrite !app_nil_r.
  rewrite iterate_digits by (done || (rewrite length_append; cbn [String.length]; lia)).
  reflexivity.
Qed.

(** Characters still to delete are deleted. *)
Lemma sub_from_skip r (x rest : string) :
  sub_from r (String.length x) (x +:+ rest) = sub_from r O rest.
Proof. induction x as [|c x IH]; simpl; [by destruct rest|done]. Qed.

(** One parenthesised number is deleted, and the deletion goes on after it. *)
Lemma sub_from_paren_digits (d rest : string) :
  all_digits d = true -> d <> "" ->
  sub_from paren_digits O (String "(" (d +:+ String ")" rest))
    = sub_from paren_digits O rest.
Proof.
  intros Hd Hne. destruct (rmatch_paren_digits d rest Hd Hne) as [caps Hm].
  cbn [sub_from]. rewrite Hm. cbn [fst String.length].
  replace (S (String.length (d +:+ String ")" rest)) - String.length rest)%nat
    with (S (String.length (d +:+ ")"))) by (rewrite !length_append; cbn [String.length]; lia).
  replace (d +:+ String ")" rest) with ((d +:+ ")") +:+ rest)
    by (by rewrite append_assoc).
  apply sub_from_skip.
Qed.

(** The decimal text of a natural number is a non-empty run of digits. *)
Lemma string_of_uint_digits (u : Decimal.uint) :
  all_digits (NilEmpty.string_of_uint u) = true.
Proof. induction u; simpl; done. Qed.

Lemma str_int_digits (z : Z) : 0 <= z -> all_digits (str_int z) = true /\ str_int z <> "".
Proof.
  intros Hz. unfold str_int.
  assert (H : forall u, all_digits (NilZero.string_of_uint u) = true /\
                        NilZero.string_of_uint u <> "").
  { intros u. split.
    - destruct u; try reflexivity; apply (string_of_uint_digits (_ u)).
    - destruct u; discriminate. }
  destruct z as [|p|p]; [apply (H (Decimal.D0 Decimal.Nil))|apply H|lia].
Qed.

End ReFacts.

(** ** Parsing a formatted type name back *)

Module RoundTripFacts.
Import PyStr PyStrFacts DataTypeReader Re SuffixFacts ReFacts FormatFacts.

(** An array suffix is detected, stripped whole, and given back once. *)
Lemma parse_type_name_array (a b : string) (k : nat) c :
  rstrip b "[]" = b -> last_char b = Some c -> c <> "]"%char ->
  parse_type_name ((a +:+ b) +:+ repeat "[]" k)
    = strip_length (a +:+ b) +:+ one_array_suffix k.
Proof.
  intros Hb Hc Hne. assert (b <> "") by (by destruct b).
  unfold parse_type_name. destruct k as [|k].
  - cbn [repeat one_array_suffix]. rewrite !append_nil_r.
    by rewrite (endswith_other_last a b "[]" c "]"%char).
  - rewrite (endswith_app_r _ _ _ (endswith_repeat k)).
    by rewrite rstrip_array.
Qed.

(** A name, with or without array suffix. *)
Lemma parse_plain (b : string) (k : nat) c :
  rstrip b "[]" = b -> last_char b = Some c -> c <> "]"%char ->
  parse_type_name (b +:+ repeat "[]" k) = strip_length b +:+ one_array_suffix k.
Proof. apply (parse_type_name_array "" b k c). Qed.

Lemma strip_length_suffixed (p x : string) :
  p <> "" -> mem "(" p = false ->
  strip_length (p +:+ String "(" (x +:+ ")")) = p.
Proof.
  intros Hp Hmem. unfold strip_length, find.
  rewrite find_from_first by done.
  replace (negb (0 + len p =? 0)) with true
    by (symmetry; apply negb_true_iff, Z.eqb_neq; unfold len; destruct p; [done|simpl; lia]).
  replace (p +:+ String "(" (x +:+ ")")) with ((p +:+ String "(" x) +:+ ")")
    by (by rewrite append_assoc).
  rewrite (endswith_app_r _ ")" ")") by reflexivity. cbn [andb].
  rewrite append_assoc. apply slice_prefix.
Qed.

(** A name followed by a parenthesised length, with or without array
    suffix: the name comes back. *)
Lemma parse_suffixed (p x : string) (k : nat) :
  p <> "" -> mem "(" p = false ->
  parse_type_name (p +:+ (String "(" (x +:+ ")") +:+ repeat "[]" k))
    = p +:+ one_array_suffix k.
Proof.
  intros Hp Hmem.
  replace (p +:+ (String "(" (x +:+ ")") +:+ repeat "[]" k))
    with (((p +:+ String "(" x) +:+ ")") +:+ repeat "[]" k)
    by (rewrite !append_assoc; cbn [String.append]; by rewrite !append_assoc).
  rewrite (parse_type_name_array _ ")" k ")"%char) by done.
  rewrite append_assoc. cbn [String.append]. by rewrite strip_length_suffixed.
Qed.

Lemma sub_from_other c (s : string) :
  Ascii.eqb "(" c = false ->
  sub_from paren_digits O (String c s) = String c (sub_from paren_digits O s).
Proof.
  intros Hc. cbn [sub_from]. unfold paren_digits.
  cbn [rmatch one_char fst snd flat_map map]. by rewrite Hc.
Qed.

Lemma zoned_assoc (t d q : string) :
  (t +:+ String "(" (d +:+ ")")) +:+ q = t +:+ String "(" (d +:+ String ")" q).
Proof. rewrite append_assoc. cbn [String.append]. by rewrite append_assoc. Qed.

Lemma strip_length_zoned (t q d : string) :
  zoned t q -> all_digits d = true -> d <> "" ->
  strip_length (t +:+ String "(" (d +:+ String ")" q)) = t +:+ q.
Proof.
  intros [Ht Hq] Hd Hne.
  assert (Hlast : endswith (t +:+ String "(" (d +:+ String ")" q)) ")" = false).
  { rewrite <- zoned_assoc.
    destruct Hq as [-> | ->];
      by apply (endswith_other_last _ _ ")" "e"%char ")"%char). }
  assert (Hstart : startswith (t +:+ String "(" (d +:+ String ")" q)) "time" = true)
    by (by destruct Ht as [-> | ->]).
  assert (Hidx : negb (find (t +:+ String "(" (d +:+ String ")" q)) "(" =? 0) = true).
  { unfold find. rewrite find_from_first by (by destruct Ht as [-> | ->]).
    by destruct Ht as [-> | ->]. }
  assert (Hend : negb (find (t +:+ String "(" (d +:+ String ")" q)) ")" =? 1) = true).
  { apply negb_true_iff, Z.eqb_neq. unfold find.
    destruct Ht as [-> | ->]; cbn [String.append find_from String.prefix];
      repeat (destruct (ascii_dec _ _) as [?|_]; [discriminate|]);
      match goal with
      | |- context [find_from ?s ?sub ?i] => destruct (find_from_range s sub i); lia
      end. }
  unfold strip_length. rewrite Hidx, Hlast, Hstart, Hend. cbn [andb].
  unfold sub_empty.
  assert (Hq' : sub_from paren_digits O q = q) by (by destruct Hq as [-> | ->]).
  destruct Ht as [-> | ->]; cbn [String.append];
    rewrite !sub_from_other by done;
    by rewrite sub_from_paren_digits, Hq'.
Qed.

Lemma parse_zoned (t q d : string) (k : nat) :
  zoned t q -> all_digits d = true -> d <> "" ->
  parse_type_name (t +:+ (String "(" (d +:+ ")") +:+ (q +:+ repeat "[]" k)))
    = t +:+ (q +:+ one_array_suffix k).
Proof.
  intros Hz Hd Hne.
  replace (t +:+ (String "(" (d +:+ ")") +:+ (q +:+ repeat "[]" k)))
    with (((t +:+ String "(" (d +:+ ")")) +:+ q) +:+ repeat "[]" k)
    by (rewrite !append_assoc; cbn [String.append]; by rewrite !append_assoc).
  assert (Hq : rstrip q "[]" = q /\ last_char q = Some "e"%char)
    by (destruct Hz as [_ [-> | ->]]; by split).
  rewrite (parse_type_name_array _ q k "e"%char) by (apply Hq || done).
  rewrite zoned_assoc.
  by rewrite strip_length_zoned, append_assoc.
Qed.

(** *** The length suffix, by shape *)

Lemma length_closed (x : string) :
  (if 0 <? len (String "(" x) then String "(" x +:+ ")" else String "(" x)
    = String "(" (x +:+ ")").
Proof.
  unfold len. cbn [String.length]. rewrite Nat2Z.inj_succ.
  by replace (0 <? Z.succ (Z.of_nat (String.length x))) with true
    by (symmetry; apply Z.ltb_lt; lia).
Qed.

Lemma type_length_none (name : string) : type_length name (-1) = "".
Proof. reflexivity. Qed.

Lemma type_length_date (typmod : Z) : type_length "date" typmod = "".
Proof. unfold type_length. by destruct (typmod =? -1). Qed.

Lemma type_length_open (name : string) (typmod : Z) :
  typmod <> -1 -> name <> "date" ->
  exists x, type_length name typmod = String "(" (x +:+ ")").
Proof.
  intros Hm Hd. apply Z.eqb_neq in Hm. apply String.eqb_neq in Hd.
  unfold type_length. rewrite Hm.
  destruct (String.eqb name "numeric"); [eexists; apply length_closed|].
  match goal with |- context [if (?a || ?b) then _ else _] => destruct (a || b) end;
    [eexists; apply length_closed|].
  destruct (String.eqb name "interval"); [eexists; apply length_closed|].
  rewrite Hd. eexists; apply length_closed.
Qed.

Lemma type_length_verbatim (name : string) (typmod : Z) :
  typmod <> -1 -> In name verbatim_types ->
  type_length name typmod = String "(" (str_int typmod +:+ ")").
Proof.
  intros Hm Hin. apply Z.eqb_neq in Hm. unfold type_length. rewrite Hm.
  simpl in Hin. repeat (destruct Hin as [<- | Hin]; [apply length_closed|]). done.
Qed.

(** *** The display string, parsed back *)

Ltac show_display :=
  unfold display; cbn [String.eqb Ascii.eqb Bool.eqb andb].

Ltac plain_name :=
  match goal with
  | |- parse_type_name (display _ ?b _ (repeat _ ?k)) = _ =>
      refine (parse_plain b k _ eq_refl eq_refl _); discriminate
  end.

Lemma parse_display (schema base : string) (typmod : Z) (k : nat) :
  In base known_base_names -> -1 <= typmod ->
  parse_type_name (display schema base (type_length base typmod) (repeat "[]" k))
    = display schema base "" (one_array_suffix k).
Proof.
  intros Hin Htm. destruct (Z.eq_dec typmod (-1)) as [-> | Hne].
  - rewrite type_length_none. simpl in Hin.
    repeat (destruct Hin as [<- | Hin]; [try plain_name|]); [|done].
    destruct (String.eqb schema "pg_catalog") eqn:E; unfold display; rewrite E.
    + exact (parse_plain (dquote +:+ "char" +:+ dquote) k _ eq_refl eq_refl
               ltac:(discriminate)).
    + exact (parse_plain "char" k _ eq_refl eq_refl ltac:(discriminate)).
  - assert (Hdigits : all_digits (str_int typmod) = true /\ str_int typmod <> "")
      by (apply str_int_digits; lia).
    destruct Hdigits as [Hd Hne'].
    assert (Hzoned : forall t q,
              zoned t q -> In (t +:+ q) verbatim_types ->
              parse_type_name
                (t +:+ (type_length (t +:+ q) typmod +:+ (q +:+ repeat "[]" k)))
              = t +:+ (q +:+ one_array_suffix k)).
    { intros t q Hz Hv. rewrite (type_length_verbatim _ _ Hne Hv).
      by apply parse_zoned. }
    assert (Hopen : forall p, p <> "" -> mem "(" p = false -> p <> "date" ->
              parse_type_name (p +:+ (type_length p typmod +:+ repeat "[]" k))
              = p +:+ one_array_suffix k).
    { intros p Hp Hmem Hdate. destruct (type_length_open p typmod Hne Hdate) as [x ->].
      by apply parse_suffixed. }
    simpl in Hin.
    repeat (destruct Hin as [<- | Hin];
            [first [ by (show_display; apply Hopen)
                   | idtac ] |]); [ | | | | | | done].
    + apply (Hzoned "time" " without time zone"); [by split; [left|right]|].
      simpl; tauto.
    + apply (Hzoned "timestamp" " without time zone"); [by split; right|].
      simpl; tauto.
    + apply (Hzoned "timestamp" " with time zone"); [by split; [right|left]|].
      simpl; tauto.
    + apply (Hzoned "time" " with time zone"); [by split; left|].
      simpl; tauto.
    + rewrite type_length_date.
      exact (parse_plain "date" k _ eq_refl eq_refl ltac:(discriminate)).
    + destruct (String.eqb schema "pg_catalog") eqn:E; unfold display; rewrite E.
      * exact (parse_plain (dquote +:+ "char" +:+ dquote) k _ eq_refl eq_refl
                 ltac:(discriminate)).
      * by apply (Hopen "char").
Qed.

(** *** From [get_full_type] to [parse_type_name] *)

Lemma get_full_type_no_dot (nsp : option string) (name : string) (isDup : bool)
    (numdims typmod : Z) :
  mem "." name = false ->
  get_full_type nsp name isDup numdims typmod =
    Ret (display (default "" nsp) (strip_markers name numdims).2
           (type_length (strip_markers name numdims).2 typmod)
           (array_suffix (strip_markers name numdims).1)).
Proof.
  intros H. unfold get_full_type.
  rewrite skip_schema_no_dot, bind_ret by done.
  destruct (strip_markers name numdims). by destruct nsp.
Qed.

Lemma array_suffix_repeat (numdims : Z) :
  array_suffix numdims = repeat "[]" (Z.to_nat numdims).
Proof. by destruct numdims. Qed.

Lemma one_array_suffix_to_nat (numdims : Z) :
  one_array_suffix (Z.to_nat numdims) = if 0 <? numdims then "[]" else "".
Proof.
  destruct numdims as [|p|p]; try reflexivity.
  change (Z.to_nat (Z.pos p)) with (Pos.to_nat p).
  by destruct (Pos2Nat.is_succ p) as [n ->].
Qed.

(** The known names have no dot, and what [strip_markers] keeps of them is
    a known base name. *)
Lemma known_type_names_shape (name : string) :
  In name known_type_names ->
  mem "." name = false /\
  forall numdims, In (strip_markers name numdims).2 known_base_names.
Proof.
  intros H. vm_compute in H.
  repeat (destruct H as [<- | H];
          [split; [reflexivity | intros numdims; cbv; tauto]|]).
  done.
Qed.

(** C1, as the code has it. For every known type name, every schema, every
    number of dimensions and every modifier from [-1] on, [get_full_type]
    returns a display string, and [parse_type_name] maps it to the base
    name without its length suffix -- in the quoted form for [char] of
    [pg_catalog] -- followed by one pair of brackets when the type is an
    array, however many dimensions the display string shows. *)
Theorem parse_type_name_full_type (nsp : option string) (name : string)
    (isDup : bool) (numdims typmod : Z) :
  In name known_type_names -> -1 <= typmod ->
  exists full,
    get_full_type nsp name isDup numdims typmod = Ret full /\
    parse_type_name full =
      display (default "" nsp) (strip_markers name numdims).2 ""
        (if 0 <? (strip_markers name numdims).1 then "[]" else "").
Proof.
  intros Hname Htm.
  destruct (known_type_names_shape name Hname) as [Hdot Hbase].
  eexists. split; [by apply get_full_type_no_dot|].
  rewrite array_suffix_repeat, <- one_array_suffix_to_nat.
  by apply parse_display.
Qed.

(** The theorem on a two-dimensional [numeric(10,4)]. *)
Lemma parse_type_name_numeric_array :
  exists full,
    get_full_type (Some "public") "numeric" false 2 655368 = Ret full /\
    parse_type_name full = "numeric[]".
Proof.
  apply (parse_type_name_full_type (Some "public") "numeric" false 2 655368).
  - vm_compute. tauto.
  - lia.
Defined.

(** C1 as the specification states it fails on arrays of more than one
    dimension: the two pairs of brackets of [numeric(10,4)[][]] come back
    as one pair. *)
Lemma parse_type_name_loses_dimensions :
  In "numeric" known_type_names /\
  get_full_type (Some "public") "numeric" false 2 655368 = Ret "numeric(10,4)[][]" /\
  parse_type_name "numeric(10,4)[][]" = "numeric[]" /\
  parse_type_name "numeric(10,4)[][]" <> "numeric[][]".
Proof.
  split; [vm_compute; tauto|]. repeat split; try reflexivity. discriminate.
Qed.

(** Below [-1] the modifier of a zoned time is negative, and its sign keeps
    the pattern from matching. *)
Example parse_type_name_negative_precision :
  get_full_type (Some "public") "time with time zone" false 0 (-6)
    = Ret "time(-6) with time zone" /\
  parse_type_name "time(-6) with time zone" = "time(-6) with time zone".
Proof. split; reflexivity. Qed.

End RoundTripFacts.

(** ** Which schemas a child node supports *)

Module BackendFacts.
Import SchemaChildModule.

#[local] Arguments truthy : simpl never.
#[local] Arguments py_in : simpl never.

(** X1. With [CATALOG_DB_SUPPORTED] set (the default), [SUPPORTED_SCHEMAS] and
    the schema name play no part: outside a catalog the answer is the
    parent's; inside a catalog it is the parent's when [db_support] is
    truthy, and [False], without asking the parent, when it is not. *)
Theorem backend_supported_catalog_db
    (SUPPORTED_SCHEMAS : option (list pyval)) (kwargs : gmap string pyval)
    (parent : outcome pyval) (is_catalog : pyval) :
  kwargs !! "is_catalog" = Some is_catalog ->
  BackendSupported true SUPPORTED_SCHEMAS kwargs parent =
    if truthy is_catalog then
      db_support ← getitem kwargs "db_support";
      if truthy db_support then parent else Ret (VBool false)
    else parent.
Proof.
  intros Hc. unfold BackendSupported, py_and, py_or, py_not.
  rewrite (getitem_some _ _ _ Hc). simpl.
  destruct (truthy is_catalog) eqn:Ht; simpl; rewrite ?Ht; [|done].
  destruct (getitem kwargs "db_support") as [db|e]; [|reflexivity]. simpl.
  destruct (truthy db) eqn:Hd; simpl; rewrite ?Hd, ?Ht; simpl; by rewrite ?Hd, ?Ht.
Qed.

(** The theorem in a catalog without database support: [False], even when
    the parent would raise, and whatever the list of schemas. *)
Lemma backend_supported_catalog_db_example :
  BackendSupported true (Some [VStr "pgagent"])
    (<["is_catalog" := VBool true]> {[ "db_support" := VBool false ]})
    (Raise (Exn OtherError "not asked"))
  = Ret (VBool false).
Proof.
  exact (backend_supported_catalog_db (Some [VStr "pgagent"])
           (<["is_catalog" := VBool true]> {[ "db_support" := VBool false ]})
           (Raise (Exn OtherError "not asked")) (VBool true) eq_refl).
Defined.

(** X2. With [CATALOG_DB_SUPPORTED] unset (catalog objects, pgAgent jobs), a
    node outside a catalog is never supported, and the parent is not asked;
    inside a catalog the node is supported when [db_support] is falsy, the
    schema is one of [SUPPORTED_SCHEMAS] (or there is no list) and the
    parent agrees. *)
Theorem backend_supported_catalog_only
    (SUPPORTED_SCHEMAS : option (list pyval)) (kwargs : gmap string pyval)
    (parent : outcome pyval) (is_catalog : pyval) :
  kwargs !! "is_catalog" = Some is_catalog ->
  BackendSupported false SUPPORTED_SCHEMAS kwargs parent =
    if truthy is_catalog then
      db_support ← getitem kwargs "db_support";
      if truthy db_support then Ret (VBool false)
      else
        match SUPPORTED_SCHEMAS with
        | None => parent
        | Some l =>
            schema_name ← getitem kwargs "schema_name";
            if py_in schema_name l then parent else Ret (VBool false)
        end
    else Ret (VBool false).
Proof.
  intros Hc. unfold BackendSupported, py_and, py_or, py_not, schema_listed.
  rewrite (getitem_some _ _ _ Hc). simpl.
  destruct (truthy is_catalog) eqn:Ht; simpl; rewrite ?Ht; [|done].
  destruct (getitem kwargs "db_support") as [db|e]; [|reflexivity]. simpl.
  destruct (truthy db) eqn:Hd; simpl; rewrite ?Ht; [done|].
  destruct SUPPORTED_SCHEMAS as [l|]; simpl; [|done].
  destruct (getitem kwargs "schema_name") as [v|e]; [|reflexivity]. simpl.
  destruct (py_in v l); simpl; by rewrite ?Ht.
Qed.

(** The theorem on the configuration of catalog objects: supported in
    [pg_catalog] of a catalog without database support. *)
Lemma backend_supported_catalog_only_example :
  BackendSupported false (Some [VStr "pg_catalog"])
    (<["is_catalog" := VBool true]>
       (<["db_support" := VBool false]> {[ "schema_name" := VStr "pg_catalog" ]}))
    (Ret (VBool true))
  = Ret (VBool true).
Proof.
  exact (backend_supported_catalog_only (Some [VStr "pg_catalog"])
           (<["is_catalog" := VBool true]>
              (<["db_support" := VBool false]> {[ "schema_name" := VStr "pg_catalog" ]}))
           (Ret (VBool true)) (VBool true) eq_refl).
Defined.

End BackendFacts.

(** ** Trigger flags: errors, frame and repetition *)

Module TriggerMoreFacts.
Import Trigger TriggerVocabulary TriggerFacts.

Lemma has_flag_flags (data : gmap string pyval) v t k :
  data !! "tgtype" = Some v -> as_flags v = Some t -> 0 <= k ->
  has_flag data (Z.shiftl 1 k) = Ret (Z.testbit t k).
Proof.
  intros H Hv Hk. unfold has_flag. rewrite (getitem_some _ _ _ H), bind_ret.
  destruct v; try discriminate; injection Hv as <-; simpl; by rewrite land_bit.
Qed.

Lemma has_flag_bad_type (data : gmap string pyval) v bit :
  data !! "tgtype" = Some v -> as_flags v = None ->
  has_flag data bit = Raise (Exn TypeError "unsupported operand type(s) for &").
Proof.
  intros H Hv. unfold has_flag. rewrite (getitem_some _ _ _ H), bind_ret.
  by destruct v.
Qed.

Lemma trigger_definition_flags (data : gmap string pyval) v t :
  data !! "tgtype" = Some v -> as_flags v = Some t ->
  trigger_definition data = Ret (decoded t data).
Proof.
  intros H Hv.
  assert (Hset : forall (d : gmap string pyval) key k,
            d !! "tgtype" = Some v -> 0 <= k ->
            set_flag d key (Z.shiftl 1 k) = Ret (<[key := VBool (Z.testbit t k)]> d)).
  { intros d key k Hd Hk. unfold set_flag. by rewrite (has_flag_flags d v t). }
  unfold trigger_definition, decoded.
  assert (Hfires : set_fires data = Ret (<["fires" := VStr (fires_of t)]> data)).
  { unfold set_fires, fires_of, TRIGGER_TYPE_BEFORE, TRIGGER_TYPE_INSTEAD.
    rewrite !(has_flag_flags data v t) by (done || lia).
    by destruct (Z.testbit t 1), (Z.testbit t 6). }
  rewrite Hfires, bind_ret.
  unfold TRIGGER_TYPE_ROW, TRIGGER_TYPE_INSERT, TRIGGER_TYPE_DELETE,
    TRIGGER_TYPE_UPDATE, TRIGGER_TYPE_TRUNCATE.
  repeat (rewrite Hset, bind_ret; [ | by rewrite ?lookup_insert_ne | lia ]).
  reflexivity.
Qed.

(** [trigger_definition], by what [tgtype] holds. *)
Lemma trigger_definition_cases (data : gmap string pyval) :
  trigger_definition data =
    match data !! "tgtype" with
    | None => Raise (Exn KeyError "'tgtype'")
    | Some v =>
        match as_flags v with
        | Some t => Ret (decoded t data)
        | None => Raise (Exn TypeError "unsupported operand type(s) for &")
        end
    end.
Proof.
  destruct (data !! "tgtype") as [v|] eqn:H.
  - destruct (as_flags v) as [t|] eqn:Hv.
    + by apply trigger_definition_flags with v.
    + unfold trigger_definition, set_fires.
      by rewrite (has_flag_bad_type data v TRIGGER_TYPE_BEFORE H Hv).
  - unfold trigger_definition, set_fires, has_flag.
    by rewrite (getitem_none _ _ H).
Qed.

(** X3. The outcomes of [trigger_definition] beside the integer flags: without
    [tgtype] it raises [KeyError]; with a [tgtype] that is neither an [int]
    nor a [bool] ([None], a string, a float) it raises [TypeError], and the
    record is not returned; with a [bool] it decodes the flags 0 or 1. *)
Theorem trigger_definition_outcomes (data : gmap string pyval) :
  (data !! "tgtype" = None ->
   trigger_definition data = Raise (Exn KeyError "'tgtype'")) /\
  (forall v, data !! "tgtype" = Some v -> as_flags v = None ->
     trigger_definition data = Raise (Exn TypeError "unsupported operand type(s) for &")) /\
  (forall b, data !! "tgtype" = Some (VBool b) ->
     trigger_definition data = Ret (decoded (Z.b2z b) data)).
Proof.
  rewrite trigger_definition_cases. repeat split.
  - by intros ->.
  - by intros v -> ->.
  - by intros b ->.
Qed.

(** The theorem on a record without flags, and on flags that are [None]. *)
Lemma trigger_definition_outcomes_example :
  trigger_definition {[ "name" := VStr "trg" ]} = Raise (Exn KeyError "'tgtype'") /\
  trigger_definition {[ "tgtype" := VNone ]}
    = Raise (Exn TypeError "unsupported operand type(s) for &").
Proof.
  split.
  - apply (proj1 (trigger_definition_outcomes {[ "name" := VStr "trg" ]})). reflexivity.
  - apply (proj1 (proj2 (trigger_definition_outcomes {[ "tgtype" := VNone ]})) VNone);
      reflexivity.
Defined.

Ltac in_keys := unfold trigger_keys; apply list_elem_of_In; simpl; tauto.
Ltac not_in_keys :=
  unfold trigger_keys; rewrite list_elem_of_In; simpl; intuition discriminate.

Lemma decoded_lookup_other (t : Z) (data : gmap string pyval) k :
  k ∉ trigger_keys -> decoded t data !! k = data !! k.
Proof.
  intros Hk. unfold decoded.
  repeat (rewrite lookup_insert_ne;
          [|intros <-; apply Hk; in_keys]).
  reflexivity.
Qed.

(** X4. [trigger_definition] writes its six keys and nothing else: every other
    key of the record, [tgtype] among them, keeps its value, and no key is
    lost. *)
Theorem trigger_definition_frame (data data' : gmap string pyval) :
  trigger_definition data = Ret data' ->
  (forall k, k ∉ trigger_keys -> data' !! k = data !! k) /\
  data' !! "tgtype" = data !! "tgtype" /\
  dom data' = dom data ∪ list_to_set trigger_keys.
Proof.
  rewrite trigger_definition_cases.
  destruct (data !! "tgtype") as [v|] eqn:H; [|discriminate].
  destruct (as_flags v) as [t|]; [|discriminate]. intros [= <-].
  split; [intros k; apply decoded_lookup_other|].
  split; [rewrite <- H; apply decoded_lookup_other; not_in_keys|].
  unfold decoded, trigger_keys. rewrite !dom_insert_L. cbn [list_to_set].
  apply set_eq. intros x. rewrite !elem_of_union, !elem_of_singleton.
  rewrite elem_of_empty. tauto.
Qed.

(** The frame of a record that carries a trigger name next to its flags. *)
Lemma trigger_definition_frame_example :
  exists data',
    trigger_definition (<["name" := VStr "trg"]> {[ "tgtype" := VInt 7 ]}) = Ret data' /\
    data' !! "name" = Some (VStr "trg") /\
    data' !! "tgtype" = Some (VInt 7).
Proof.
  exists (decoded 7 (<["name" := VStr "trg"]> {[ "tgtype" := VInt 7 ]})).
  assert (Hrun : trigger_definition (<["name" := VStr "trg"]> {[ "tgtype" := VInt 7 ]})
                 = Ret (decoded 7 (<["name" := VStr "trg"]> {[ "tgtype" := VInt 7 ]})))
    by reflexivity.
  split; [exact Hrun|].
  destruct (trigger_definition_frame _ _ Hrun) as (Hother & Htg & _).
  split; [|exact Htg].
  rewrite Hother; [reflexivity|]. not_in_keys.
Defined.

Lemma decoded_again (t : Z) (data : gmap string pyval) :
  decoded t (decoded t data) = decoded t data.
Proof.
  unfold decoded at 1.
  repeat (rewrite insert_id;
          [|unfold decoded; by rewrite ?lookup_insert_ne, ?lookup_insert_eq by done]).
  reflexivity.
Qed.

(** X5. Decoding twice is decoding once: [trigger_definition] run on its own
    result gives that result again, and a failing run fails the same way. *)
Theorem trigger_definition_idempotent (data : gmap string pyval) :
  trigger_definition data ≫= trigger_definition = trigger_definition data.
Proof.
  rewrite (trigger_definition_cases data).
  destruct (data !! "tgtype") as [v|] eqn:H; [|reflexivity].
  destruct (as_flags v) as [t|] eqn:Hv; [|reflexivity].
  rewrite bind_ret, (trigger_definition_flags _ v t); [|
    by rewrite decoded_lookup_other by not_in_keys | done].
  by rewrite decoded_again.
Qed.

End TriggerMoreFacts.

(** ** More on the classification and the list of types *)

Module TypesMoreFacts.
Import PyStr DataTypeReader TypesVocabulary TypesFacts.

#[local] Arguments truthy : simpl never.
#[local] Arguments py_in : simpl never.

(** The result of [get_length_precision], by the table that holds the
    identifier. *)
Lemma get_length_precision_cases (v : pyval) :
  get_length_precision v =
    if truthy v then
      if py_in v L_types then (true, false, "L")
      else if py_in v D_types then (true, false, "D")
      else if py_in v P_types then (true, true, "P")
      else (false, false, " ")
    else (false, false, "").
Proof.
  unfold get_length_precision.
  by destruct (truthy v), (py_in v L_types), (py_in v D_types), (py_in v P_types).
Qed.

(** X6. The flags follow from the type value: precision exactly for [P],
    length exactly for [L], [D] and [P]; the type value is empty exactly
    for a falsy identifier, and one of five texts in all. *)
Theorem get_length_precision_flags (v : pyval) :
  In (get_length_precision v).2 [ ""; " "; "L"; "D"; "P" ] /\
  (get_length_precision v).1.2 = String.eqb (get_length_precision v).2 "P" /\
  (get_length_precision v).1.1 =
    String.eqb (get_length_precision v).2 "L" || String.eqb (get_length_precision v).2 "D"
    || String.eqb (get_length_precision v).2 "P" /\
  ((get_length_precision v).1.2 = true -> (get_length_precision v).1.1 = true) /\
  ((get_length_precision v).2 = "" <-> truthy v = false).
Proof.
  rewrite get_length_precision_cases.
  destruct (truthy v), (py_in v L_types), (py_in v D_types), (py_in v P_types);
    simpl; intuition discriminate.
Qed.

Lemma py_in_names (s : string) (l : list pyval) :
  py_in (VStr s) l = true -> In s (names_of l).
Proof.
  unfold py_in, names_of. induction l as [|v l IH]; [done|].
  cbn [existsb omap]. intros H. apply orb_true_iff in H as [H|H].
  - destruct v; try done. cbn [py_eq] in H. apply String.eqb_eq in H as ->.
    cbn. by left.
  - destruct v; cbn; auto.
Qed.

(** X7. The names of the three tables and their array forms: every scalar name
    that is classified has its array form in the same class, but for
    [timetz], whose array form is in no table although the identifier
    1270 of that array type is. *)
Theorem get_length_precision_array_names (s : string) :
  In (get_length_precision (VStr s)).2 [ "L"; "D"; "P" ] ->
  endswith s "[]" = false ->
  (s <> "timetz" ->
   get_length_precision (VStr (s +:+ "[]")) = get_length_precision (VStr s)) /\
  (s = "timetz" ->
   get_length_precision (VStr (s +:+ "[]")) = (false, false, " ") /\
   get_length_precision (VInt 1270) = (true, false, "D")).
Proof.
  intros Hclass Hscalar. split; [|by intros ->].
  intros Hne. revert Hclass. rewrite (get_length_precision_cases (VStr s)).
  destruct (truthy (VStr s)); [|simpl; intuition discriminate].
  destruct (py_in (VStr s) L_types) eqn:HL.
  { intros _. apply py_in_names in HL. vm_compute in HL.
    repeat (destruct HL as [<- | HL]; [first [discriminate Hscalar | reflexivity]|]).
    done. }
  destruct (py_in (VStr s) D_types) eqn:HD.
  { intros _. apply py_in_names in HD. vm_compute in HD.
    repeat (destruct HD as [<- | HD];
            [first [discriminate Hscalar | reflexivity | by destruct Hne]|]).
    done. }
  destruct (py_in (VStr s) P_types) eqn:HP.
  { intros _. apply py_in_names in HP. vm_compute in HP.
    repeat (destruct HP as [<- | HP]; [first [discriminate Hscalar | reflexivity]|]).
    done. }
  simpl. intuition discriminate.
Qed.

(** The theorem on [varchar]. *)
Lemma get_length_precision_varchar_array :
  get_length_precision (VStr "varchar[]") = get_length_precision (VStr "varchar").
Proof.
  apply (get_length_precision_array_names "varchar"); [simpl; tauto|reflexivity|discriminate].
Defined.

(** *** The entries of [get_types] *)

(** The bounds the loop computes are those of the type value. *)
Lemma bounds_classified (v : pyval) :
  truthy v = true ->
  (if (get_length_precision v).1.1 then
     let min_val := if String.eqb (get_length_precision v).2 "D" then 0 else 1 in
     (min_val,
      if (get_length_precision v).1.2 then 1000
      else if negb (min_val =? 0) then 2147483647 else 10)
   else (0, 0)) = bounds_of (get_length_precision v).2.
Proof.
  intros Ht. rewrite get_length_precision_cases, Ht.
  by destruct (py_in v L_types), (py_in v D_types), (py_in v P_types).
Qed.

(** One round of the loop, read backwards from its result. *)
Lemma type_row_entry (tv tv' : option string) (row entry : gmap string pyval) :
  type_row tv row = Ret (tv', entry) ->
  entry_of_row row entry /\ is_Some tv' /\
  (tv = None -> exists e, row !! "elemoid" = Some e /\ truthy e = true).
Proof.
  unfold type_row, entry_of_row.
  destruct (row !! "elemoid") as [e|] eqn:He;
    [rewrite (getitem_some _ _ _ He), bind_ret | by rewrite (getitem_none _ _ He)].
  destruct (truthy e) eqn:Ht.
  - pose proof (bounds_classified e Ht) as Hb.
    destruct (get_length_precision e) as [[l p] t] eqn:Hglp. cbn [fst snd] in Hb.
    assert (Hbounds :
      (if l then tv0 ← read_local "typeval" (Some t);
                 Ret ((if String.eqb tv0 "D" then 0 else 1),
                      if p then 1000
                      else if negb ((if String.eqb tv0 "D" then 0 else 1) =? 0)
                           then 2147483647 else 10)
       else Ret (0, 0)) = Ret (bounds_of t)).
    { destruct l; [|by rewrite <- Hb]. cbn [read_local]. rewrite bind_ret. by rewrite <- Hb. }
    rewrite Hbounds, bind_ret.
    destruct (row !! "typname") as [n|] eqn:Hn;
      [rewrite (getitem_some _ _ _ Hn), bind_ret | by rewrite (getitem_none _ _ Hn)].
    cbn [read_local]. rewrite bind_ret.
    destruct (row !! "is_collatable") as [c|] eqn:Hc;
      [rewrite (getitem_some _ _ _ Hc), bind_ret | by rewrite (getitem_none _ _ Hc)].
    intros [= <- <-]. split; [|split; [by eexists|by exists e]].
    exists e, n, c. by rewrite Ht, Hglp.
  - cbn [bind_ret]. rewrite bind_ret.
    destruct (row !! "typname") as [n|] eqn:Hn;
      [rewrite (getitem_some _ _ _ Hn), bind_ret | by rewrite (getitem_none _ _ Hn)].
    destruct tv as [t|]; [|done]. cbn [read_local]. rewrite bind_ret.
    destruct (row !! "is_collatable") as [c|] eqn:Hc;
      [rewrite (getitem_some _ _ _ Hc), bind_ret | by rewrite (getitem_none _ _ Hc)].
    intros [= <- <-]. split; [|split; [by eexists|done]].
    exists e, n, c. rewrite Ht. repeat split. by exists t.
Qed.

Lemma entry_of_row_complete (row entry : gmap string pyval) :
  entry_of_row row entry -> complete_row row.
Proof. intros (e & n & c & He & Hn & Hc & _). by repeat split; eexists. Qed.

(** The loop, read backwards from its result: one entry per row, in the
    order of the rows, after what the list held. *)
Lemma type_rows_entries (rows : list (gmap string pyval)) :
  forall tv res out,
    type_rows rows tv res = Ret out ->
    exists entries,
      out = res ++ entries /\ Forall2 entry_of_row rows entries /\
      (tv = None -> classified_head rows).
Proof.
  induction rows as [|row rows IH]; intros tv res out; cbn [type_rows].
  - intros [= <-]. exists []. by rewrite app_nil_r.
  - destruct (type_row tv row) as [[tv' entry]|e] eqn:Hrow; [|done].
    rewrite bind_ret. intros Hout.
    destruct (type_row_entry _ _ _ _ Hrow) as (Hentry & _ & Hhead).
    destruct (IH _ _ _ Hout) as (entries & -> & Hall & _).
    exists (entry :: entries). rewrite <- app_assoc. repeat split; [by constructor|].
    exact Hhead.
Qed.

(** X8. When [get_types] returns the list of types, the list has one entry per
    row of the result set, in the order of the rows. Read key by key, the
    entry holds the type name of its row under [label] and [value] and its
    collation flag under [is_collatable]; for a row with a truthy [elemoid]
    it holds the classification of that identifier under [typval],
    [precision] and [length], and under [min_val] and [max_val] the bounds
    of its type value, (1, 2147483647) for [L], (0, 10) for [D], (1, 1000)
    for [P] and (0, 0) otherwise; for any other row both flags are [False]
    and both bounds 0; and it holds no key besides these eight. *)
Theorem get_types_entries (d : gmap string (list (gmap string pyval)))
    (rows res : list (gmap string pyval)) :
  d !! "rows" = Some rows ->
  get_types (Ret (true, PDict d)) = Ret (true, PList res) ->
  Forall2 entry_of_row rows res.
Proof.
  intros Hrows. rewrite get_types_ret. unfold rows_of_reply. cbn [payload_rows].
  rewrite (getitem_some _ _ _ Hrows), bind_ret.
  destruct (type_rows rows None []) as [out|e] eqn:Hout; [|done].
  intros [= <-].
  by destruct (type_rows_entries _ _ _ _ Hout) as (entries & -> & Hall & _).
Qed.

(** The theorem on a [numeric] row: the entry read key by key, classified
    [P] with length and precision, bounds 1 and 1000. *)
Lemma get_types_entries_numeric :
  exists entry,
    get_types (Ret (true, PDict {[ "rows" := [numeric_row] ]})) = Ret (true, PList [entry]) /\
    Forall2 entry_of_row [numeric_row] [entry] /\
    entry !! "label" = Some (VStr "numeric") /\
    entry !! "value" = Some (VStr "numeric") /\
    entry !! "typval" = Some (VStr "P") /\
    entry !! "precision" = Some (VBool true) /\
    entry !! "length" = Some (VBool true) /\
    entry !! "min_val" = Some (VInt 1) /\
    entry !! "max_val" = Some (VInt 1000) /\
    entry !! "is_collatable" = Some (VBool false).
Proof.
  assert (Hrows : ({[ "rows" := [numeric_row] ]}
                     : gmap string (list (gmap string pyval))) !! "rows"
                  = Some [numeric_row]) by reflexivity.
  eexists. split; [reflexivity|]. split.
  - apply (get_types_entries {[ "rows" := [numeric_row] ]} _ _ Hrows). reflexivity.
  - repeat split; reflexivity.
Defined.

(** X9. [get_types] returns the list of types exactly when every row has the
    three keys [elemoid], [typname] and [is_collatable] and the first row,
    if there is one, has a truthy [elemoid]; in every other case the pair
    it returns holds [False] and a message. *)
Theorem get_types_succeeds_iff (d : gmap string (list (gmap string pyval)))
    (rows : list (gmap string pyval)) :
  d !! "rows" = Some rows ->
  ((exists res, get_types (Ret (true, PDict d)) = Ret (true, PList res)) <->
   Forall complete_row rows /\ classified_head rows) /\
  ((exists msg, get_types (Ret (true, PDict d)) = Ret (false, PStr msg)) <->
   ~ (Forall complete_row rows /\ classified_head rows)).
Proof.
  intros Hrows.
  assert (Hrun : get_types (Ret (true, PDict d)) =
                 match type_rows rows None [] with
                 | Ret res => Ret (true, PList res)
                 | Raise e => Ret (false, PStr (exn_str e))
                 end).
  { rewrite get_types_ret. unfold rows_of_reply. cbn [payload_rows].
    by rewrite (getitem_some _ _ _ Hrows), bind_ret. }
  assert (Hiff : (exists out, type_rows rows None [] = Ret out) <->
                 Forall complete_row rows /\ classified_head rows).
  { split.
    - intros [out Hout].
      destruct (type_rows_entries _ _ _ _ Hout) as (entries & _ & Hall & Hhead).
      split; [|by apply Hhead].
      clear -Hall. induction Hall; constructor; eauto using entry_of_row_complete.
    - intros [Hall Hhead]. destruct Hall as [|row rows' Hrow Hall].
      + by exists [].
      + destruct Hhead as (e & He & Ht).
        destruct (type_row_truthy None row e Hrow He Ht) as [entry Hstep].
        destruct (type_rows_bound rows' Hall (get_length_precision e).2 ([] ++ [entry]))
          as [out Hout].
        eexists. cbn [type_rows]. rewrite Hstep, bind_ret. exact Hout. }
  rewrite Hrun. split.
  - rewrite <- Hiff. split.
    + intros [res H]. destruct (type_rows rows None []); [by eexists|done].
    + intros [out ->]. by eexists.
  - rewrite <- Hiff. split.
    + intros [msg H] [out Hout]. by rewrite Hout in H.
    + intros H. destruct (type_rows rows None []) as [out|e]; [|by eexists].
      exfalso. apply H. by eexists.
Qed.

(** The theorem on the two example rows: in one order the list comes
    back, in the other the first row has no element type. *)
Lemma get_types_succeeds_example :
  (exists res, get_types (Ret (true, PDict {[ "rows" := [numeric_row; untyped_row] ]}))
               = Ret (true, PList res)) /\
  (exists msg, get_types (Ret (true, PDict {[ "rows" := [untyped_row; numeric_row] ]}))
               = Ret (false, PStr msg)).
Proof.
  assert (H1 : ({[ "rows" := [numeric_row; untyped_row] ]}
                  : gmap string (list (gmap string pyval))) !! "rows"
               = Some [numeric_row; untyped_row]) by reflexivity.
  assert (H2 : ({[ "rows" := [untyped_row; numeric_row] ]}
                  : gmap string (list (gmap string pyval))) !! "rows"
               = Some [untyped_row; numeric_row]) by reflexivity.
  split.
  - apply (proj1 (get_types_succeeds_iff _ _ H1)).
    split.
    + repeat constructor; by eexists.
    + exists (VInt 1700). by split.
  - apply (proj2 (get_types_succeeds_iff _ _ H2)).
    intros [_ (e & He & Ht)]. vm_compute in He. injection He as <-. discriminate Ht.
Defined.

End TypesMoreFacts.

(** ** More on formatting and parsing type names *)

Module NameMoreFacts.
Import PyStr PyStrFacts DataTypeReader Re SuffixFacts ReFacts FormatFacts RoundTripFacts.

Lemma take_all (s : string) : take (String.length s) s = s.
Proof. induction s as [|c s IH]; simpl; [done|]. by rewrite IH. Qed.

(** [s[1:]] drops the first character. *)
Lemma slice_tail (c : ascii) (s : string) : slice (String c s) (Some 1) None = s.
Proof.
  unfold slice, clip, len. cbn [String.length]. rewrite Nat2Z.inj_succ.
  change (1 <? 0) with false. cbv iota.
  rewrite Z.min_r by lia. change (Z.to_nat 1) with 1%nat.
  cbn [drop]. replace (S (String.length s) - 1)%nat with (String.length s) by lia.
  apply take_all.
Qed.

(** [s[:-len(r)]] drops the suffix [r]. *)
Lemma slice_suffix (p r : string) :
  r <> "" -> slice (p +:+ r) None (Some (- len r)) = p.
Proof.
  intros Hr. unfold slice, clip, len. rewrite length_append.
  assert (0 < String.length r)%nat by (destruct r; [done|simpl; lia]).
  replace (- Z.of_nat (String.length r) <? 0) with true by (symmetry; apply Z.ltb_lt; lia).
  rewrite Z.max_r by lia. rewrite Z.min_r by lia.
  replace (Z.of_nat (String.length p + String.length r) + - Z.of_nat (String.length r))
    with (Z.of_nat (String.length p)) by lia.
  rewrite Nat2Z.id, Nat.sub_0_r.
  change (drop 0 (p +:+ r)) with (p +:+ r). apply take_app.
Qed.

Lemma prefix_app (p s r : string) :
  p <> "" -> s <> "" -> String.length p = 1%nat ->
  String.prefix p (s +:+ r) = String.prefix p s.
Proof.
  intros Hp Hs Hlen. destruct p as [|a [|? ?]]; try done.
  destruct s as [|b s]; [done|]. simpl. destruct (ascii_dec a b); [|done].
  by destruct (s +:+ r), s.
Qed.

(** What the three marker steps of [get_full_type] keep of a name that
    carries no array marker. *)
Lemma strip_markers_plain (n : string) (k : Z) :
  startswith n "_" = false -> endswith n "[]" = false ->
  strip_markers n k =
    (k, if startswith n dquote && endswith n dquote then slice n (Some 1) (Some (-1)) else n).
Proof. intros H1 H2. unfold strip_markers. by rewrite H1, H2. Qed.

Lemma strip_markers_underscore (n : string) (k : Z) :
  startswith n "_" = false -> endswith n "[]" = false ->
  strip_markers ("_" +:+ n) k = strip_markers n (if k =? 0 then 1 else k).
Proof.
  intros H1 H2. rewrite (strip_markers_plain n) by done.
  unfold strip_markers. change ("_" +:+ n) with (String "_" n).
  change (startswith (String "_" n) "_") with (String.prefix "" n).
  replace (String.prefix "" n) with true by (by destruct n).
  by rewrite slice_tail, H2.
Qed.

Lemma strip_markers_brackets (n : string) (k : Z) :
  startswith n "_" = false -> endswith n "[]" = false ->
  strip_markers (n +:+ "[]") k = strip_markers n (if k =? 0 then 1 else k).
Proof.
  intros H1 H2. rewrite (strip_markers_plain n) by done.
  unfold strip_markers.
  assert (Hstart : startswith (n +:+ "[]") "_" = false).
  { destruct n as [|c n]; [done|]. unfold startswith in *.
    by rewrite (prefix_app "_" (String c n) "[]"). }
  rewrite Hstart, (endswith_app_r n "[]" "[]") by done.
  change (-2) with (- len "[]"). by rewrite (slice_suffix n "[]").
Qed.

Lemma array_suffix_negative (k : Z) : k <= 0 -> array_suffix k = "".
Proof.
  intros Hk. unfold array_suffix.
  by replace (0 <? k) with false by (symmetry; apply Z.ltb_ge; lia).
Qed.

(** X10. The three spellings of an array type agree. For a name without dot
    and without array marker, the leading underscore and the trailing
    pair of brackets stand for the same thing: a number of dimensions of
    1 when the caller passes 0, and the number the caller passes
    otherwise. A negative number of dimensions is kept as it is, and then
    the display string shows no brackets at all. *)
Theorem get_full_type_array_spellings (nsp : option string) (n : string)
    (isDup : bool) (k typmod : Z) :
  mem "." n = false -> startswith n "_" = false -> endswith n "[]" = false ->
  get_full_type nsp ("_" +:+ n) isDup k typmod =
    get_full_type nsp n isDup (if k =? 0 then 1 else k) typmod /\
  get_full_type nsp (n +:+ "[]") isDup k typmod =
    get_full_type nsp n isDup (if k =? 0 then 1 else k) typmod /\
  (k < 0 ->
   get_full_type nsp (n +:+ "[]") isDup k typmod = get_full_type nsp n isDup 0 typmod).
Proof.
  intros Hdot H1 H2.
  assert (Hd1 : mem "." ("_" +:+ n) = false) by (by rewrite mem_app, Hdot).
  assert (Hd2 : mem "." (n +:+ "[]") = false) by (by rewrite mem_app, Hdot).
  rewrite !get_full_type_no_dot by done.
  rewrite strip_markers_underscore, strip_markers_brackets by done.
  repeat split. intros Hk.
  replace (k =? 0) with false by (symmetry; apply Z.eqb_neq; lia).
  rewrite !(strip_markers_plain n) by done. cbn [fst snd].
  by rewrite (array_suffix_negative k), (array_suffix_negative 0) by lia.
Qed.

(** The theorem on [int4]: [_int4], [int4[]] and one dimension. *)
Lemma get_full_type_int4_array :
  get_full_type None "_int4" false 0 (-1) = Ret "int4[]" /\
  get_full_type None "int4[]" false 0 (-1) = Ret "int4[]" /\
  get_full_type None "int4[]" false (-2) (-1) = Ret "int4".
Proof.
  destruct (get_full_type_array_spellings None "int4" false 0 (-1) eq_refl eq_refl eq_refl)
    as (Ha & Hb & _).
  destruct (get_full_type_array_spellings None "int4" false (-2) (-1) eq_refl eq_refl eq_refl)
    as (_ & _ & Hc).
  split; [exact Ha|]. split; [exact Hb|]. apply Hc. lia.
Defined.

(** X11. A plain name comes back as it is. With no modifier ([-1]) and no
    dimensions, a name without dot, array marker or surrounding quotes is
    its own display string -- but for [char] in schema [pg_catalog], which
    is shown in double quotes. *)
Theorem get_full_type_plain_name (nsp : option string) (typname : string)
    (isDup : bool) (numdims : Z) :
  mem "." typname = false -> startswith typname "_" = false ->
  endswith typname "[]" = false ->
  startswith typname dquote && endswith typname dquote = false ->
  numdims <= 0 ->
  get_full_type nsp typname isDup numdims (-1) =
    Ret (if String.eqb typname "char" && String.eqb (default "" nsp) "pg_catalog"
         then dquote +:+ "char" +:+ dquote else typname).
Proof.
  intros Hdot H1 H2 Hq Hk.
  rewrite get_full_type_no_dot, strip_markers_plain, Hq by done. cbn [fst snd].
  rewrite array_suffix_negative by done. rewrite type_length_none.
  f_equal. unfold display.
  destruct (String.eqb typname "char" && String.eqb (default "" nsp) "pg_catalog"); [done|].
  repeat match goal with
         | |- context [String.eqb typname ?c] =>
             destruct (String.eqb_spec typname c) as [->|_]; [reflexivity|]
         end.
  by rewrite !append_nil_r.
Qed.

(** The theorem on a type of the user's. *)
Lemma get_full_type_plain_example :
  get_full_type (Some "public") "my_type" true 0 (-1) = Ret "my_type".
Proof.
  apply (get_full_type_plain_name (Some "public") "my_type" true 0);
    first [reflexivity | lia].
Defined.

(** X12. When the schema prefix is found -- anywhere in the type name --, the
    call either raises [IndexError], the index after the prefix lying
    beyond the name, or builds its result from one character of the name
    and nothing else of it. *)
Theorem get_full_type_prefix_found (schema typname : string) (isDup : bool)
    (numdims typmod : Z) :
  0 <= find typname (schema +:+ ".") \/ 0 <= find typname (schema +:+ dquote +:+ ".") ->
  get_full_type (Some schema) typname isDup numdims typmod =
    Raise (Exn IndexError "string index out of range") \/
  exists c : ascii,
    get_full_type (Some schema) typname isDup numdims typmod =
      Ret (display schema (strip_markers (String c "") numdims).2
             (type_length (strip_markers (String c "") numdims).2 typmod)
             (array_suffix (strip_markers (String c "") numdims).1)).
Proof.
  intros Hfound. unfold get_full_type.
  destruct (skip_schema schema typname) as [name|e] eqn:Hskip.
  - right. pose proof (skip_schema_one_char _ _ _ Hfound Hskip) as Hlen.
    destruct name as [|c [|? ?]]; try discriminate Hlen.
    exists c. rewrite bind_ret. by destruct (strip_markers (String c "") numdims).
  - left. rewrite bind_raise. f_equal.
    revert Hskip. unfold skip_schema, index.
    repeat match goal with
           | |- context [if ?b then _ else _] => destruct b
           end; congruence.
Qed.

(** The theorem on a name that is the prefix and no more, and on a dotted
    name when no schema is given. *)
Lemma get_full_type_prefix_examples :
  get_full_type (Some "public") "public." false 0 (-1)
    = Raise (Exn IndexError "string index out of range") /\
  get_full_type (Some "") "a.b" false 0 (-1) = Ret ".".
Proof.
  split.
  - destruct (get_full_type_prefix_found "public" "public." false 0 (-1)) as [H|[c H]];
      [left; vm_compute; discriminate | exact H | discriminate H].
  - destruct (get_full_type_prefix_found "" "a.b" false 0 (-1)) as [H|[c H]];
      [left; vm_compute; discriminate | discriminate H | ].
    rewrite H. vm_compute in H. injection H as H. by rewrite H.
Defined.

(** *** [parse_type_name] on any name *)

Lemma rstrip_last (b chars : string) c :
  last_char b = Some c -> mem c chars = false -> rstrip b chars = b.
Proof.
  intros Hc Hmem. induction b as [|a b IH]; [done|].
  cbn [last_char] in Hc. cbn [rstrip].
  destruct (last_char b) as [d|] eqn:Hlast.
  - rewrite IH by done. by destruct b.
  - destruct b; [|simpl in Hlast; by destruct (last_char b)].
    injection Hc as ->. cbn [rstrip]. by rewrite Hmem.
Qed.

(** Without opening parenthesis there is nothing for the pattern to
    delete. *)
Lemma sub_from_no_paren (s : string) :
  mem "(" s = false -> sub_from paren_digits O s = s.
Proof.
  induction s as [|c s IH]; [done|]. cbn [mem]. intros H.
  apply orb_false_elim in H as [Hc Hs].
  rewrite sub_from_other by done. by rewrite IH.
Qed.

Lemma strip_length_plain (b : string) :
  mem "(" b = false -> endswith b ")" = false -> strip_length b = b.
Proof.
  intros Hmem Hend. unfold strip_length.
  rewrite (find_absent "(" b "(") by done. rewrite Hend. cbn [negb Z.eqb andb].
  destruct (startswith b "time"); [|done].
  destruct (negb _); [|done]. by apply sub_from_no_paren.
Qed.

(** X13. Any name comes back without its length suffix. For a name [p] without
    opening parenthesis that ends in a character other than a bracket or a
    closing parenthesis: followed by any number of bracket pairs it comes
    back with one pair (none when there is none); and so it does when a
    parenthesised text, whatever it holds, stands between the name and the
    brackets. *)
Theorem parse_type_name_any_name (p : string) (k : nat) (c : ascii) :
  mem "(" p = false -> last_char p = Some c -> mem c "[])" = false ->
  parse_type_name (p +:+ repeat "[]" k) = p +:+ one_array_suffix k /\
  forall x,
    parse_type_name (p +:+ (String "(" (x +:+ ")") +:+ repeat "[]" k))
      = p +:+ one_array_suffix k.
Proof.
  intros Hmem Hlast Hc. cbn [mem] in Hc.
  apply orb_false_elim in Hc as [Hc1 Hc]. apply orb_false_elim in Hc as [Hc2 Hc].
  apply orb_false_elim in Hc as [Hc3 _].
  apply Ascii.eqb_neq in Hc1, Hc2, Hc3.
  split.
  - rewrite (parse_plain p k c); [|apply (rstrip_last p "[]" c) | |]; try done.
    + rewrite strip_length_plain; [done|done|].
      by apply (endswith_other_last "" p ")" c ")"%char).
    + cbn [mem]. apply Ascii.eqb_neq in Hc1, Hc2. by rewrite Hc1, Hc2.
  - intros x. apply parse_suffixed; [by destruct p|done].
Qed.

(** The theorem on a type of the user's with three dimensions. *)
Lemma parse_type_name_my_type :
  parse_type_name "my_type[][][]" = "my_type[]" /\
  parse_type_name "my_type(10,2)[][][]" = "my_type[]".
Proof.
  destruct (parse_type_name_any_name "my_type" 3 "e" eq_refl eq_refl eq_refl) as [H1 H2].
  split; [exact H1 | exact (H2 "10,2")].
Defined.

(** X14. The index of the opening parenthesis is used as a truth value: [0],
    found at the start, counts as not found, and [-1], not found, counts
    as found. So a name that starts with the parenthesis keeps its length
    suffix, and a name without opening parenthesis that ends with a
    closing one loses its last character. *)
Theorem parse_type_name_index_as_truth :
  (forall x, endswith (String "(" x) "[]" = false ->
     parse_type_name (String "(" x) = String "(" x) /\
  (forall p, mem "(" p = false -> parse_type_name (p +:+ ")") = p).
Proof.
  split.
  - intros x Harr. unfold parse_type_name. rewrite Harr.
    assert (Hidx : find (String "(" x) "(" = 0).
    { unfold find. cbn [find_from String.prefix].
      destruct (ascii_dec "(" "("); [|done]. by destruct x. }
    unfold strip_length. by rewrite Hidx.
  - intros p Hmem. unfold parse_type_name.
    rewrite (endswith_other_last p ")" "[]" ")"%char "]"%char) by done.
    unfold strip_length.
    rewrite (find_absent "(" (p +:+ ")") "(") by (by rewrite ?mem_app, ?Hmem).
    rewrite (endswith_app_r p ")" ")") by done. cbn [negb Z.eqb andb].
    change (-1) with (- len ")"). by apply slice_suffix.
Qed.

(** The theorem on [(10)] and on [numeric)]. *)
Lemma parse_type_name_index_examples :
  parse_type_name "(10)" = "(10)" /\ parse_type_name "numeric)" = "numeric".
Proof.
  split.
  - apply (proj1 parse_type_name_index_as_truth "10)"). reflexivity.
  - apply (proj2 parse_type_name_index_as_truth "numeric"). reflexivity.
Defined.

End NameMoreFacts.

(** ** More on the vacuum settings *)

Module VacuumMoreFacts.
Import Builtins VacuumSettings VacuumVocabulary VacuumFacts.

Section WithFloatText.
Variable float_repr : float -> string.
Variable vacuum_fields : gmap string (gmap string (list pyval)).

(** The three configured fields are read, or the row is not configured. *)
Lemma fields_read kind sub (row : gmap string pyval) (row_name : pyval)
    {A} (k : pyval -> pyval -> pyval -> outcome A) (a : A) :
  vacuum_fields !! kind = Some sub -> row !! "name" = Some row_name ->
  (v0 ← field float_repr vacuum_fields kind row_name 0;
   v1 ← field float_repr vacuum_fields kind row_name 1;
   v2 ← field float_repr vacuum_fields kind row_name 2;
   k v0 v1 v2) = Ret a ->
  exists name label column_type,
    configured sub row name label column_type /\
    field float_repr vacuum_fields kind row_name 0 = Ret name /\
    field float_repr vacuum_fields kind row_name 1 = Ret label /\
    field float_repr vacuum_fields kind row_name 2 = Ret column_type /\
    k name label column_type = Ret a.
Proof.
  intros Hkind Hname. unfold field at 1 2 3.
  rewrite (getitem_some _ _ _ Hkind), !bind_ret.
  destruct row_name as [| | | |n]; try done. cbn [lookup_key].
  destruct (sub !! n) as [triple|] eqn:Hn;
    [rewrite (getitem_some _ _ _ Hn), !bind_ret | by rewrite (getitem_none _ _ Hn)].
  destruct triple as [|name [|label [|column_type rest]]]; try done.
  cbn [list_item lookup list_lookup]. rewrite !bind_ret. intros Hk.
  exists name, label, column_type. split; [by exists n, rest|].
  repeat split; try done;
    by apply (field_some float_repr vacuum_fields kind sub n
                (name :: label :: column_type :: rest)).
Qed.

Lemma table_row_described table (row row' : gmap string pyval) :
  vacuum_fields !! "table" = Some table ->
  table_row float_repr vacuum_fields row = Ret row' <-> described_by table row row'.
Proof.
  intros Htable. split.
  - unfold table_row.
    destruct (row !! "name") as [row_name|] eqn:Hname;
      [rewrite (getitem_some _ _ _ Hname), bind_ret | by rewrite (getitem_none _ _ Hname)].
    intros H.
    destruct (fields_read "table" table row row_name
                (fun v0 v1 v2 => Ret (<["column_type" := v2]> (<["label" := v1]>
                                        (<["name" := v0]> row)))) row' Htable Hname H)
      as (name & label & ct & Hconf & _ & _ & _ & [= <-]).
    by exists name, label, ct.
  - intros (name & label & ct & (n & rest & Hname & Hn) & ->). unfold table_row.
    rewrite (getitem_some _ _ _ Hname), bind_ret.
    rewrite (field_some float_repr vacuum_fields "table" table n
               (name :: label :: ct :: rest) 0%nat name) by done.
    rewrite (field_some float_repr vacuum_fields "table" table n
               (name :: label :: ct :: rest) 1%nat label) by done.
    by rewrite (field_some float_repr vacuum_fields "table" table n
                  (name :: label :: ct :: rest) 2%nat ct).
Qed.

End WithFloatText.

(** X15. [get_vacuum_table_settings] returns the result set of the defaults
    query exactly when every row of it is named by a text that the table
    sub-mapping configures with at least three fields; the result set then
    comes back with each row's [name], [label] and [column_type] set from
    these, the rows in their order and nothing else changed. *)
Theorem table_settings_described (float_repr : float -> string)
    (vacuum_fields : gmap string (gmap string (list pyval)))
    (table : gmap string (list pyval))
    (d : gmap string (list (gmap string pyval))) (rows : list (gmap string pyval))
    (out : vacuum_result) :
  vacuum_fields !! "table" = Some table -> d !! "rows" = Some rows ->
  get_vacuum_table_settings float_repr vacuum_fields (Ret (true, PDict d)) = Ret out <->
  exists rows', Forall2 (described_by table) rows rows' /\
                out = Res (PDict (<["rows" := rows']> d)).
Proof.
  intros Htable Hrows. unfold get_vacuum_table_settings.
  rewrite (getitem_some _ _ _ Htable), !bind_ret. cbn [negb payload_rows].
  rewrite (getitem_some _ _ _ Hrows), bind_ret.
  assert (Hloop : forall rows',
            for_rows (table_row float_repr vacuum_fields) rows = Ret rows' <->
            Forall2 (described_by table) rows rows').
  { intros rows'. rewrite for_rows_ret. split; intros H.
    - eapply Forall2_impl; [exact H|]. intros r r'. by apply table_row_described.
    - eapply Forall2_impl; [exact H|]. intros r r'. by apply table_row_described. }
  split.
  - destruct (for_rows _ rows) as [rows'|e] eqn:Hfor; [|done].
    rewrite bind_ret. intros [= <-]. exists rows'. split; [by apply Hloop|done].
  - intros (rows' & Hall & ->). apply Hloop in Hall. by rewrite Hall.
Qed.

(** The theorem on the example configuration and one row. *)
Lemma table_settings_described_example :
  get_vacuum_table_settings no_float_text example_fields
    (example_reply [default_row threshold (VStr "50")])
  = Ret (Res (PDict (<["rows" :=
                        [described (VStr threshold) (VStr "Threshold") (VStr "integer")
                           (default_row threshold (VStr "50"))]]>
                     {[ "rows" := [default_row threshold (VStr "50")] ]}))).
Proof.
  assert (Htable : example_fields !! "table" =
            Some (<[scale_factor := [VStr scale_factor; VStr "Scale factor"; VStr "number"]]>
                  {[ threshold := [VStr threshold; VStr "Threshold"; VStr "integer"] ]}))
    by reflexivity.
  assert (Hrows : ({[ "rows" := [default_row threshold (VStr "50")] ]}
                     : gmap string (list (gmap string pyval))) !! "rows"
                  = Some [default_row threshold (VStr "50")]) by reflexivity.
  apply (proj2 (table_settings_described no_float_text example_fields _ _ _ _ Htable Hrows)).
  eexists. split; [|reflexivity].
  constructor; [|constructor].
  exists (VStr threshold), (VStr "Threshold"), (VStr "integer"). split; [|reflexivity].
  by exists threshold, [].
Defined.

(** *** The rows of [parse_vacuum_data] *)

Section Parsed.
Variable float_repr : float -> string.
Variable vacuum_fields : gmap string (gmap string (list pyval)).
Variable result : gmap string pyval.

Lemma parse_table_row_parsed kind sub (row row' : gmap string pyval) :
  vacuum_fields !! kind = Some sub ->
  parse_table_row float_repr vacuum_fields result kind row = Ret row' ->
  parsed_by sub row row'.
Proof.
  intros Hkind. unfold parse_table_row.
  destruct (row !! "name") as [row_name|] eqn:Hname;
    [rewrite (getitem_some _ _ _ Hname), bind_ret | by rewrite (getitem_none _ _ Hname)].
  intros H.
  destruct (fields_read float_repr vacuum_fields kind sub row row_name
              (fun v0 v1 v2 =>
                 let row := described v0 v1 v2 row in
                 name ← getitem row "name";
                 live ← lookup_key float_repr result name;
                 match live with
                 | VNone => Ret row
                 | _ =>
                     column_type ← getitem row "column_type";
                     name ← getitem row "name";
                     live ← lookup_key float_repr result name;
                     value ← coerce column_type live;
                     Ret (<["setting" := value]> (<["value" := value]> row))
                 end) row' Hkind Hname H)
    as (name & label & ct & Hconf & _ & _ & _ & Hk).
  exists name, label, ct. split; [done|]. revert Hk. cbv zeta.
  rewrite (getitem_some _ _ _ (described_name _ _ _ _)), bind_ret.
  destruct (lookup_key float_repr result name) as [live|e] eqn:Hlive; [|done].
  rewrite bind_ret.
  rewrite (getitem_some _ _ _ (described_column_type _ _ _ _)).
  destruct live; rewrite ?bind_ret, ?Hlive, ?bind_ret;
    first [ by intros [= <-]; left
          | destruct (coerce ct _) as [value|e]; [|done];
            rewrite bind_ret; intros [= <-]; right; by exists value ].
Qed.

Lemma parse_toast_row_parsed kind sub (row row' : gmap string pyval) :
  vacuum_fields !! kind = Some sub ->
  parse_toast_row float_repr vacuum_fields result kind row = Ret row' ->
  parsed_by sub row row'.
Proof.
  intros Hkind. unfold parse_toast_row.
  destruct (row !! "name") as [row_name|] eqn:Hname;
    [rewrite (getitem_some _ _ _ Hname), bind_ret | by rewrite (getitem_none _ _ Hname)].
  destruct (field float_repr vacuum_fields kind row_name 0) as [v|e] eqn:Hfirst; [|done].
  rewrite bind_ret. cbv zeta. rewrite <- Hfirst. intros H.
  destruct (fields_read float_repr vacuum_fields kind sub row row_name
              (fun v0 v1 v2 =>
                 let row := described v0 v1 v2 row in
                 live ← getitem result ("toast_" +:+ py_str float_repr v);
                 guard ← (if truthy live
                          then live ← getitem result ("toast_" +:+ py_str float_repr v);
                               Ret (match live with VNone => false | _ => true end)
                          else Ret false);
                 if guard : bool then
                   column_type ← getitem row "column_type";
                   live ← getitem result ("toast_" +:+ py_str float_repr v);
                   value ← coerce column_type live;
                   Ret (<["setting" := value]> (<["value" := value]> row))
                 else Ret row) row' Hkind Hname H)
    as (name & label & ct & Hconf & _ & _ & _ & Hk).
  exists name, label, ct. split; [done|]. revert Hk. cbv zeta.
  destruct (getitem result _) as [live|e] eqn:Hlive; [|done]. rewrite bind_ret.
  rewrite (getitem_some _ _ _ (described_column_type _ _ _ _)).
  destruct (truthy live); rewrite ?bind_ret; [|by intros [= <-]; left].
  destruct live; rewrite ?bind_ret, ?Hlive, ?bind_ret;
    first [ by intros [= <-]; left
          | destruct (coerce ct _) as [value|e]; [|done];
            rewrite bind_ret; intros [= <-]; right; by exists value ].
Qed.

End Parsed.

(** X16. When [parse_vacuum_data] returns, it returns one row for each row of
    the defaults query, in order. For the kinds [table] and [toast] each
    row is named by a text the kind's sub-mapping configures, and comes
    back with [name], [label] and [column_type] set from it and, when a
    live value was converted, that value stored under both [value] and
    [setting]; every other key of the row is as it was. For any other
    configured kind the rows come back untouched. *)
Theorem parse_vacuum_data_rows_parsed (float_repr : float -> string)
    (vacuum_fields : gmap string (gmap string (list pyval)))
    (result : gmap string pyval) (kind : string) (sub : gmap string (list pyval))
    (d : gmap string (list (gmap string pyval))) (rows : list (gmap string pyval))
    (out : vacuum_result) :
  vacuum_fields !! kind = Some sub -> d !! "rows" = Some rows ->
  parse_vacuum_data float_repr vacuum_fields (Ret (true, PDict d)) result kind = Ret out ->
  exists rows',
    out = ResRows rows' /\
    if String.eqb kind "table" || String.eqb kind "toast"
    then Forall2 (parsed_by sub) rows rows'
    else rows' = rows.
Proof.
  intros Hkind Hrows.
  rewrite (parse_vacuum_data_rows float_repr vacuum_fields result kind sub d rows) by done.
  destruct (String.eqb kind "table"); [|destruct (String.eqb kind "toast")]; cbn [orb].
  - destruct (for_rows _ rows) as [rows'|e] eqn:Hfor; [|done].
    rewrite bind_ret. intros [= <-]. exists rows'. split; [done|].
    apply for_rows_ret in Hfor. eapply Forall2_impl; [exact Hfor|].
    intros r r'. by apply parse_table_row_parsed.
  - destruct (for_rows _ rows) as [rows'|e] eqn:Hfor; [|done].
    rewrite bind_ret. intros [= <-]. exists rows'. split; [done|].
    apply for_rows_ret in Hfor. eapply Forall2_impl; [exact Hfor|].
    intros r r'. by apply parse_toast_row_parsed.
  - intros [= <-]. by exists rows.
Qed.

(** The theorem on the example configuration: a live threshold of 50. *)
Lemma parse_vacuum_data_rows_example :
  exists rows',
    ResRows [stored (VInt 50)
               (described (VStr threshold) (VStr "Threshold") (VStr "integer")
                  (default_row threshold (VStr "20")))] = ResRows rows' /\
    Forall2 (parsed_by (<[scale_factor := [VStr scale_factor; VStr "Scale factor"; VStr "number"]]>
                        {[ threshold := [VStr threshold; VStr "Threshold"; VStr "integer"] ]}))
      [default_row threshold (VStr "20")] rows'.
Proof.
  assert (Htable : example_fields !! "table" =
            Some (<[scale_factor := [VStr scale_factor; VStr "Scale factor"; VStr "number"]]>
                  {[ threshold := [VStr threshold; VStr "Threshold"; VStr "integer"] ]}))
    by reflexivity.
  assert (Hrows : ({[ "rows" := [default_row threshold (VStr "20")] ]}
                     : gmap string (list (gmap string pyval))) !! "rows"
                  = Some [default_row threshold (VStr "20")]) by reflexivity.
  assert (Hrun : parse_vacuum_data no_float_text example_fields
                   (Ret (true, PDict {[ "rows" := [default_row threshold (VStr "20")] ]}))
                   {[ threshold := VStr "50" ]} "table"
                 = Ret (ResRows [stored (VInt 50)
                          (described (VStr threshold) (VStr "Threshold") (VStr "integer")
                             (default_row threshold (VStr "20")))])) by reflexivity.
  exact (parse_vacuum_data_rows_parsed no_float_text example_fields
           {[ threshold := VStr "50" ]} "table" _ _ _ _ Htable Hrows Hrun).
Defined.

(** X17. The live settings must hold every name the defaults query returns:
    for kind [table] a configured name that the live settings lack, and for
    kind [toast] a name whose [toast_] key they lack, makes the call raise
    [KeyError] for that key instead of leaving the row without value. *)
Theorem parse_vacuum_data_missing_live (float_repr : float -> string)
    (vacuum_fields : gmap string (gmap string (list pyval)))
    (result : gmap string pyval) (kind : string) (sub : gmap string (list pyval))
    (d : gmap string (list (gmap string pyval)))
    (pre post : list (gmap string pyval)) (row : gmap string pyval)
    (name : string) (label column_type : pyval) :
  vacuum_fields !! kind = Some sub ->
  d !! "rows" = Some (pre ++ row :: post) ->
  configured sub row (VStr name) label column_type ->
  (kind = "table" ->
   Forall (fun r => returns (parse_table_row float_repr vacuum_fields result kind r)) pre ->
   result !! name = None ->
   parse_vacuum_data float_repr vacuum_fields (Ret (true, PDict d)) result kind
     = Raise (Exn KeyError (repr_str name))) /\
  (kind = "toast" ->
   Forall (fun r => returns (parse_toast_row float_repr vacuum_fields result kind r)) pre ->
   result !! ("toast_" +:+ name) = None ->
   parse_vacuum_data float_repr vacuum_fields (Ret (true, PDict d)) result kind
     = Raise (Exn KeyError (repr_str ("toast_" +:+ name)))).
Proof.
  intros Hkind Hrows (n & rest & Hname & Hn).
  assert (Hf : forall i v, (VStr name :: label :: column_type :: rest) !! i = Some v ->
             field float_repr vacuum_fields kind (VStr n) i = Ret v).
  { intros i v. by apply field_some with sub. }
  rewrite (parse_vacuum_data_rows float_repr vacuum_fields result kind sub d _ Hkind Hrows).
  split.
  - intros -> Hpre Hlive. cbn [String.eqb Ascii.eqb Bool.eqb].
    rewrite (for_rows_raise _ pre post row (Exn KeyError (repr_str name))); try done.
    unfold parse_table_row.
    rewrite (getitem_some _ _ _ Hname), bind_ret.
    rewrite (Hf 0%nat (VStr name)), (Hf 1%nat label), (Hf 2%nat column_type) by done.
    rewrite !bind_ret. fold (described (VStr name) label column_type row).
    rewrite (getitem_some _ _ _ (described_name _ _ _ _)), bind_ret.
    cbn [lookup_key]. by rewrite (getitem_none _ _ Hlive).
  - intros -> Hpre Hlive. cbn [String.eqb Ascii.eqb Bool.eqb].
    rewrite (for_rows_raise _ pre post row (Exn KeyError (repr_str ("toast_" +:+ name))));
      try done.
    unfold parse_toast_row.
    rewrite (getitem_some _ _ _ Hname), bind_ret.
    rewrite (Hf 0%nat (VStr name)), (Hf 1%nat label), (Hf 2%nat column_type) by done.
    rewrite !bind_ret. cbn [py_str]. by rewrite (getitem_none _ _ Hlive).
Qed.

(** The theorem on the example configuration, with no live settings. *)
Lemma parse_vacuum_data_missing_live_example :
  parse_vacuum_data no_float_text example_fields
    (Ret (true, PDict {[ "rows" := [default_row threshold (VStr "20")] ]})) ∅ "table"
    = Raise (Exn KeyError "'autovacuum_vacuum_threshold'") /\
  parse_vacuum_data no_float_text example_fields
    (Ret (true, PDict {[ "rows" := [default_row threshold (VStr "20")] ]})) ∅ "toast"
    = Raise (Exn KeyError "'toast_autovacuum_vacuum_threshold'").
Proof.
  assert (Htable : example_fields !! "table" =
            Some (<[scale_factor := [VStr scale_factor; VStr "Scale factor"; VStr "number"]]>
                  {[ threshold := [VStr threshold; VStr "Threshold"; VStr "integer"] ]}))
    by reflexivity.
  assert (Htoast : example_fields !! "toast" =
            Some (<[scale_factor := [VStr scale_factor; VStr "Scale factor"; VStr "number"]]>
                  (<[threshold := [VStr threshold; VStr "Threshold"; VStr "integer"]]>
                  {[ "toast_only" := [VStr "toast_only"; VStr "Only for TOAST"; VStr "integer"] ]})))
    by reflexivity.
  assert (Hrows : ({[ "rows" := [default_row threshold (VStr "20")] ]}
                     : gmap string (list (gmap string pyval))) !! "rows"
                  = Some ([] ++ default_row threshold (VStr "20") :: [])) by reflexivity.
  split.
  - apply (proj1 (parse_vacuum_data_missing_live no_float_text example_fields ∅ "table" _
                    _ [] [] (default_row threshold (VStr "20")) threshold
                    (VStr "Threshold") (VStr "integer") Htable Hrows
                    ltac:(by exists threshold, []))); [done|constructor|done].
  - apply (proj2 (parse_vacuum_data_missing_live no_float_text example_fields ∅ "toast" _
                    _ [] [] (default_row threshold (VStr "20")) threshold
                    (VStr "Threshold") (VStr "integer") Htoast Hrows
                    ltac:(by exists threshold, []))); [done|constructor|done].
Defined.

End VacuumMoreFacts.

(** ** More on rule definitions *)

Module RuleMoreFacts.
Import PyStr PyStrFacts Re Rule RuleVocabulary NameMoreFacts.

(** *** What a match leaves to read *)

Lemma one_char_in (p : ascii -> bool) (st st' : mstate) :
  In st' (one_char p st) ->
  exists c, p c = true /\ st.1 = String c st'.1 /\ st'.2 = st.2.
Proof.
  unfold one_char. destruct st as [[|c rest] caps]; cbn [fst snd]; [done|].
  destruct (p c) eqn:Hp; [|done]. intros [<-|[]]. by exists c.
Qed.

Lemma iterate_suffix (step : mstate -> list mstate) (fuel : nat) :
  (forall st st', In st' (step st) -> exists w, st.1 = w +:+ st'.1) ->
  forall st st', In st' (iterate step fuel st) -> exists w, st.1 = w +:+ st'.1.
Proof.
  intros Hstep. induction fuel as [|fuel IH]; intros st st'; cbn [iterate].
  - intros [<-|[]]. by exists "".
  - intros H. apply in_app_or in H as [H|[<-|[]]]; [|by exists ""].
    apply in_flat_map in H as (mid & Hmid & H).
    destruct (_ <? _)%nat; [|done].
    destruct (Hstep _ _ Hmid) as [w1 ->]. destruct (IH _ _ H) as [w2 ->].
    exists (w1 +:+ w2). by rewrite append_assoc.
Qed.

(** Whatever the pattern, a match reads a prefix of the text: what is left
    is a suffix of it. *)
Lemma rmatch_suffix (r : regex) :
  forall st st', In st' (rmatch r st) -> exists w, st.1 = w +:+ st'.1.
Proof.
  assert (Hone : forall p st st', In st' (one_char p st) -> exists w, st.1 = w +:+ st'.1).
  { intros p st st' H. destruct (one_char_in p st st' H) as (c & _ & -> & _).
    by exists (String c ""). }
  induction r as [| | | | |r1 IH1 r2 IH2|r1 IH1 r2 IH2|r1 IH1|r1 IH1|r1 IH1|n r1 IH1];
    intros st st'; cbn [rmatch]; eauto.
  - intros [<-|[]]. by exists "".
  - intros H. apply in_flat_map in H as (mid & Hmid & H).
    destruct (IH1 _ _ Hmid) as [w1 ->]. destruct (IH2 _ _ H) as [w2 ->].
    exists (w1 +:+ w2). by rewrite append_assoc.
  - intros H. apply in_app_or in H as [H|H]; eauto.
  - by apply iterate_suffix.
  - intros H. apply in_flat_map in H as (mid & Hmid & H).
    destruct (IH1 _ _ Hmid) as [w1 ->].
    destruct (iterate_suffix _ _ IH1 _ _ H) as [w2 ->].
    exists (w1 +:+ w2). by rewrite append_assoc.
  - intros H. apply in_app_or in H as [H|[<-|[]]]; eauto. by exists "".
  - intros H. apply in_map_iff in H as (mid & <- & H). cbn [fst]. eauto.
Qed.

(** *** Searching *)

Lemma search_some (r : regex) (s : string) (caps : gmap nat string) :
  search r s = Some caps ->
  exists pre s' st rest,
    s = pre +:+ s' /\ rmatch r (s', ∅) = st :: rest /\ caps = st.2.
Proof.
  induction s as [|c s IH]; cbn [search].
  - destruct (rmatch r ("", ∅)) as [|st rest] eqn:E; [done|].
    intros [= <-]. by exists "", "", st, rest.
  - destruct (rmatch r (String c s, ∅)) as [|st rest] eqn:E.
    + intros H. destruct (IH H) as (pre & s' & st & rest & -> & Hm & ->).
      by exists (String c pre), s', st, rest.
    + intros [= <-]. by exists "", (String c s), st, rest.
Qed.

Lemma search_none (r : regex) (pre s' : string) :
  search r (pre +:+ s') = None -> rmatch r (s', ∅) = [].
Proof.
  induction pre as [|c pre IH]; cbn [String.append].
  - destruct s' as [|c s']; cbn [search];
      by destruct (rmatch r _) as [|st rest].
  - cbn [search]. by destruct (rmatch r (String c (pre +:+ s'), ∅)).
Qed.

(** *** Whitespace and literal words *)

Lemma iterate_space_in (fuel : nat) :
  forall st st', In st' (iterate (rmatch Space) fuel st) ->
    st'.2 = st.2 /\ exists w, all_space w = true /\ st.1 = w +:+ st'.1.
Proof.
  induction fuel as [|fuel IH]; intros st st'; cbn [iterate].
  - intros [<-|[]]. split; [done|]. by exists "".
  - intros H. apply in_app_or in H as [H|[<-|[]]]; [|split; [done|]; by exists ""].
    apply in_flat_map in H as (mid & Hmid & H).
    destruct (_ <? _)%nat; [|done].
    destruct (one_char_in _ _ _ Hmid) as (c & Hc & -> & <-).
    destruct (IH _ _ H) as (-> & w & Hw & ->).
    split; [done|]. exists (String c w). split; [|done]. cbn [all_space]. by rewrite Hc, Hw.
Qed.

(** One or more characters of whitespace: what can be read. *)
Lemma plus_space_in (st st' : mstate) :
  In st' (rmatch (Plus Space) st) ->
  st'.2 = st.2 /\
  exists c w, is_space c = true /\ all_space w = true /\ st.1 = w +:+ String c st'.1.
Proof.
  cbn [rmatch]. intros H. apply in_flat_map in H as (mid & Hmid & H).
  destruct (one_char_in _ _ _ Hmid) as (c & Hc & -> & <-).
  destruct (iterate_space_in _ _ _ H) as (-> & w & Hw & ->).
  split; [done|]. clear H Hmid.
  revert c Hc. induction w as [|a w IH]; intros c Hc.
  - by exists c, "".
  - cbn [all_space] in Hw. apply andb_true_iff in Hw as [Ha Hw].
    destruct (IH Hw a Ha) as (c' & w' & Hc' & Hw' & Heq).
    exists c', (String c w'). cbn [all_space String.append]. rewrite Hc, Hw'.
    repeat split; [done|]. cbn [String.append] in Heq. by rewrite Heq.
Qed.

(** ... and one character of whitespace can always be read. *)
Lemma plus_space_one (c : ascii) (s : string) (caps : gmap nat string) :
  is_space c = true -> In (s, caps) (rmatch (Plus Space) (String c s, caps)).
Proof.
  intros Hc. cbn [rmatch]. apply in_flat_map. exists (s, caps). split.
  - unfold one_char. cbn [fst snd]. rewrite Hc. by left.
  - cbn [fst]. destruct (String.length s); cbn [iterate]; [by left|].
    apply in_or_app. right. by left.
Qed.

Lemma lit_in (w : string) :
  forall st st', In st' (rmatch (lit w) st) -> st.1 = w +:+ st'.1 /\ st'.2 = st.2.
Proof.
  induction w as [|c w IH]; intros st st'; cbn [lit rmatch].
  - by intros [<-|[]].
  - intros H. apply in_flat_map in H as (mid & Hmid & H).
    destruct (one_char_in _ _ _ Hmid) as (c' & Hc & -> & <-).
    apply Ascii.eqb_eq in Hc as <-.
    destruct (IH _ _ H) as [-> ->]. done.
Qed.

Lemma lit_match (w s : string) (caps : gmap nat string) :
  rmatch (lit w) (w +:+ s, caps) = [(s, caps)].
Proof.
  revert caps. induction w as [|c w IH]; intros caps; cbn [lit rmatch String.append]; [done|].
  unfold one_char. cbn [fst snd]. rewrite Ascii.eqb_refl. cbn [flat_map].
  by rewrite IH.
Qed.

(** *** The pattern of [do_instead] *)

Lemma instead_in (s : string) (st : mstate) :
  In st (rmatch instead_re (s, ∅)) ->
  is_Some (st.2 !! 1%nat) /\
  exists w c1 c2 post,
    is_space c1 = true /\ is_space c2 = true /\
    s = w +:+ String c1 ("INSTEAD" +:+ String c2 post).
Proof.
  unfold instead_re. cbn [rmatch]. fold (rmatch (lit "INSTEAD")).
  intros H. apply in_flat_map in H as (m1 & H1 & H).
  apply in_flat_map in H as (m2 & H2 & H).
  apply in_map_iff in H2 as (m2' & <- & H2).
  change (In m1 (rmatch (Plus Space) (s, ∅))) in H1.
  change (In st (rmatch (Plus Space)
                   (m2'.1, <[1%nat := consumed m1.1 m2'.1]> m2'.2))) in H.
  destruct (plus_space_in _ _ H1) as (_ & c1 & w1 & Hc1 & _ & Hs). cbn [fst] in Hs.
  destruct (lit_in _ _ _ H2) as [Hm1 _].
  destruct (plus_space_in _ _ H) as (Hcaps & c2 & w2 & Hc2 & Hw2 & Hm2).
  cbn [fst snd] in Hcaps, Hm2. split.
  - rewrite Hcaps, lookup_insert_eq. by eexists.
  - subst s. rewrite Hm1, Hm2.
    destruct w2 as [|a w2].
    + exists w1, c1, c2, st.1. by cbn [String.append].
    + cbn [all_space] in Hw2. apply andb_true_iff in Hw2 as [Ha _].
      exists w1, c1, a, (w2 +:+ String c2 st.1). by cbn [String.append].
Qed.

Lemma instead_match (c1 c2 : ascii) (post : string) :
  is_space c1 = true -> is_space c2 = true ->
  rmatch instead_re (String c1 ("INSTEAD" +:+ String c2 post), ∅) <> [].
Proof.
  intros Hc1 Hc2.
  assert (H : In (post, <[1%nat := "INSTEAD"]> (∅ : gmap nat string))
                (rmatch instead_re (String c1 ("INSTEAD" +:+ String c2 post), ∅))).
  { unfold instead_re. cbn [rmatch]. fold (rmatch (lit "INSTEAD")).
    apply in_flat_map. exists ("INSTEAD" +:+ String c2 post, ∅). split.
    { by apply (plus_space_one c1 _ ∅). }
    apply in_flat_map. exists (String c2 post, <[1%nat := "INSTEAD"]> ∅). split.
    - rewrite lit_match. cbn [map fst snd]. left. f_equal. f_equal.
      unfold consumed. rewrite length_append.
      replace (String.length "INSTEAD" + String.length (String c2 post)
               - String.length (String c2 post))%nat
        with (String.length "INSTEAD") by lia.
      apply SuffixFacts.take_app.
    - by apply (plus_space_one c2 post). }
  intros E. by rewrite E in H.
Qed.

(** X18. [do_instead] is [True] exactly when the definition holds the word
    [INSTEAD] between two characters of whitespace, wherever in the text
    that is. *)
Theorem parse_rule_definition_do_instead
    (res : gmap string (list (gmap string pyval)))
    (row : gmap string pyval) (rest : list (gmap string pyval)) (text : string) :
  res !! "rows" = Some (row :: rest) ->
  row !! "definition" = Some (VStr text) ->
  exists (res_data : gmap string pyval) (instead : bool),
    parse_rule_definition res = Ret (RuleData res_data) /\
    res_data !! "do_instead" = Some (VBool instead) /\
    (instead = true <-> spaced_word "INSTEAD" text).
Proof.
  intros Hrows Hdef. eexists _, _. split; [|split].
  - unfold parse_rule_definition.
    rewrite (getitem_some _ _ _ Hrows), bind_ret, bind_ret.
    rewrite (getitem_some _ _ _ Hdef), bind_ret. reflexivity.
  - rewrite lookup_insert_ne by done. rewrite lookup_insert_ne by done.
    apply lookup_insert_eq.
  - destruct (search instead_re text) as [caps|] eqn:Hsearch; cbn [mbind option_bind].
    + destruct (search_some _ _ _ Hsearch) as (pre & s' & st & others & -> & Hm & ->).
      assert (Hin : In st (rmatch instead_re (s', ∅))) by (rewrite Hm; by left).
      destruct (instead_in _ _ Hin) as ([x Hx] & w & c1 & c2 & post & Hc1 & Hc2 & ->).
      rewrite Hx. split; [intros _|done].
      exists (pre +:+ w), c1, c2, post. by rewrite append_assoc.
    + split; [done|]. intros (pre & c1 & c2 & post & Hc1 & Hc2 & ->). exfalso.
      apply (instead_match c1 c2 post Hc1 Hc2). by apply search_none with pre.
Qed.

(** The theorem on the first rule text of the specification. *)
Lemma parse_rule_definition_do_instead_example :
  exists (res_data : gmap string pyval) (instead : bool),
    parse_rule_definition (rule_res rule_text_1) = Ret (RuleData res_data) /\
    res_data !! "do_instead" = Some (VBool instead) /\
    (instead = true <-> spaced_word "INSTEAD" rule_text_1).
Proof.
  assert (Hrows : rule_res rule_text_1 !! "rows" = Some [ {[ "definition" := VStr rule_text_1 ]} ])
    by reflexivity.
  assert (Hdef : ({[ "definition" := VStr rule_text_1 ]} : gmap string pyval) !! "definition"
                 = Some (VStr rule_text_1)) by reflexivity.
  exact (parse_rule_definition_do_instead _ _ _ _ Hrows Hdef).
Defined.

(** *** The pattern of [statements] *)

(** Any character, newline included, is read in one way. *)
Lemma any_char_step (a : ascii) (r : string) (caps : gmap nat string) :
  rmatch (Group 2 (Alt Dot (Chr newline))) (String a r, caps)
    = [(r, <[2%nat := consumed (String a r) r]> caps)].
Proof.
  cbn [rmatch]. unfold one_char. cbn [fst snd].
  rewrite (Ascii.eqb_sym newline a). by destruct (Ascii.eqb a newline).
Qed.

(** The greedy run of any characters reads to the end of the text first. *)
Lemma iterate_any_head (s : string) :
  forall fuel caps, (String.length s <= fuel)%nat ->
    exists caps' others,
      iterate (rmatch (Group 2 (Alt Dot (Chr newline)))) fuel (s, caps)
        = ("", caps') :: others.
Proof.
  induction s as [|a r IH]; intros fuel caps Hfuel.
  - destruct fuel; cbn [iterate]; [by eexists _, _|].
    cbn [rmatch]. unfold one_char. cbn [fst app map flat_map]. by eexists _, _.
  - destruct fuel as [|fuel]; [cbn in Hfuel; lia|].
    cbn [iterate]. rewrite any_char_step. cbn [flat_map fst String.length].
    replace (String.length r <? S (String.length r))%nat with true
      by (symmetry; apply Nat.ltb_lt; lia).
    destruct (IH fuel (<[2%nat := consumed (String a r) r]> caps)) as (caps' & others & ->);
      [cbn in Hfuel; lia|].
    rewrite app_nil_r. by eexists _, _.
Qed.

(** Group 1 of the statement pattern, started anywhere, first captures
    all that is left of the text. *)
Lemma rest_head (st : mstate) :
  exists caps' others,
    rmatch (Group 1 (Star (Group 2 (Alt Dot (Chr newline))))) st = ("", caps') :: others /\
    caps' !! 1%nat = Some st.1.
Proof.
  destruct st as [s caps].
  destruct (iterate_any_head s (String.length s) caps) as (caps' & others & H); [done|].
  change (rmatch (Group 1 (Star (Group 2 (Alt Dot (Chr newline))))) (s, caps))
    with (map (fun st' : mstate => (st'.1, <[1%nat := consumed s st'.1]> st'.2))
            (iterate (rmatch (Group 2 (Alt Dot (Chr newline)))) (String.length s) (s, caps))).
  rewrite H. cbn [map fst snd]. eexists _, _. split; [done|].
  rewrite lookup_insert_eq. unfold consumed. cbn [String.length].
  by rewrite Nat.sub_0_r, take_all.
Qed.

Lemma plus_space_run (st st' : mstate) :
  In st' (rmatch (Plus Space) st) ->
  exists ws, ws <> "" /\ all_space ws = true /\ st.1 = ws +:+ st'.1.
Proof.
  cbn [rmatch]. intros H. apply in_flat_map in H as (mid & Hmid & H).
  destruct (one_char_in _ _ _ Hmid) as (c & Hc & -> & _).
  destruct (iterate_space_in _ _ _ H) as (_ & w & Hw & ->).
  exists (String c w). cbn [all_space]. by rewrite Hc, Hw.
Qed.

(** The word, then whitespace. *)
Lemma word_space_in (word : string) (st st' : mstate) :
  In st' (rmatch (Seq (lit word) (Plus Space)) st) ->
  exists ws, ws <> "" /\ all_space ws = true /\ st.1 = word +:+ (ws +:+ st'.1).
Proof.
  cbn [rmatch]. fold (rmatch (lit word)). intros H.
  apply in_flat_map in H as (mid & Hmid & H).
  destruct (lit_in _ _ _ Hmid) as [-> _].
  change (In st' (rmatch (Plus Space) mid)) in H.
  destruct (plus_space_run _ _ H) as (ws & Hne & Hws & ->). by exists ws.
Qed.

(** The first way the statement pattern matches: after [DO] and its
    whitespace, and after [INSTEAD] and its whitespace if the pattern read
    them, group 1 is all that is left of the text. *)
Lemma statement_head (s : string) (st : mstate) (others : list mstate) :
  rmatch statement_re (s, ∅) = st :: others ->
  exists ws tail x,
    st.2 !! 1%nat = Some x /\ s = "DO" +:+ (ws +:+ tail) /\
    ws <> "" /\ all_space ws = true /\
    (tail = x \/
     exists ws', ws' <> "" /\ all_space ws' = true /\ tail = "INSTEAD" +:+ (ws' +:+ x)).
Proof.
  unfold statement_re.
  set (A := Seq (lit "DO") (Plus Space)).
  set (X := Seq (lit "INSTEAD") (Plus Space)).
  set (G := Group 1 (Star (Group 2 (Alt Dot (Chr newline))))).
  change (rmatch (Seq A (Seq (Opt X) G)) (s, ∅))
    with (flat_map (fun a => flat_map (rmatch G) (rmatch X a ++ [a])) (rmatch A (s, ∅))).
  destruct (rmatch A (s, ∅)) as [|a l] eqn:HA; [done|].
  assert (Ha : In a (rmatch A (s, ∅))) by (rewrite HA; by left).
  apply word_space_in in Ha as (ws & Hne & Hws & Hs). cbn [fst] in Hs.
  cbn [flat_map].
  destruct (rmatch X a ++ [a]) as [|b l'] eqn:HX; [by destruct (rmatch X a)|].
  assert (Hb : a.1 = b.1 \/
               exists ws', ws' <> "" /\ all_space ws' = true /\
                           a.1 = "INSTEAD" +:+ (ws' +:+ b.1)).
  { assert (Hin : In b (rmatch X a ++ [a])) by (rewrite HX; by left).
    apply in_app_or in Hin as [Hin|[<-|[]]]; [right; by apply word_space_in|by left]. }
  destruct (rest_head b) as (caps' & others' & HG & Hcap).
  cbn [flat_map]. fold G in HG. rewrite HG. cbn [app].
  intros [= <- _]. exists ws, a.1, b.1. by repeat split.
Qed.

(** Where [DO] and a character of whitespace stand, the pattern matches. *)
Lemma statement_match (c : ascii) (post : string) :
  is_space c = true -> rmatch statement_re ("DO" +:+ String c post, ∅) <> [].
Proof.
  intros Hc. destruct (rest_head (post, ∅)) as (caps' & others & HG & _).
  assert (H : In ("", caps') (rmatch statement_re ("DO" +:+ String c post, ∅))).
  { unfold statement_re. cbn [rmatch]. fold (rmatch (lit "DO")). fold (rmatch (lit "INSTEAD")).
    apply in_flat_map. exists (post, ∅). split.
    - apply in_flat_map. exists (String c post, ∅). split.
      + rewrite lit_match. by left.
      + by apply (plus_space_one c post ∅).
    - apply in_flat_map. exists (post, ∅). split.
      + apply in_or_app. right. by left.
      + cbn [rmatch] in HG. rewrite HG. by left. }
  intros E. by rewrite E in H.
Qed.

(** X19. [statements] is all that follows the word [DO], the whitespace after
    it and -- when the pattern reads them -- the word [INSTEAD] and the
    whitespace after that, up to the end of the definition and across
    newlines; it is empty when the definition has no [DO] followed by
    whitespace. *)
Theorem parse_rule_definition_statements
    (res : gmap string (list (gmap string pyval)))
    (row : gmap string pyval) (rest : list (gmap string pyval)) (text : string) :
  res !! "rows" = Some (row :: rest) ->
  row !! "definition" = Some (VStr text) ->
  exists (res_data : gmap string pyval) (statements : string),
    parse_rule_definition res = Ret (RuleData res_data) /\
    res_data !! "statements" = Some (VStr statements) /\
    ((exists pre ws tail,
        text = pre +:+ ("DO" +:+ (ws +:+ tail)) /\ ws <> "" /\ all_space ws = true /\
        (tail = statements \/
         exists ws', ws' <> "" /\ all_space ws' = true /\
                     tail = "INSTEAD" +:+ (ws' +:+ statements))) \/
     (statements = "" /\
      forall pre c post, is_space c = true -> text <> pre +:+ ("DO" +:+ String c post))).
Proof.
  intros Hrows Hdef.
  exists (with_fields
            (capitalize (lower (default "" (search event_re text ≫= (fun caps => caps !! 1%nat)))))
            (match search instead_re text ≫= (fun caps => caps !! 1%nat) with
             | Some _ => true | None => false end)
            (default "" (search statement_re text ≫= (fun caps => caps !! 1%nat)))
            (default "" (search condition_re text ≫= (fun caps => caps !! 1%nat))) row),
    (default "" (search statement_re text ≫= (fun caps => caps !! 1%nat))).
  split; [|split].
  - unfold parse_rule_definition.
    rewrite (getitem_some _ _ _ Hrows), bind_ret, bind_ret.
    rewrite (getitem_some _ _ _ Hdef), bind_ret. reflexivity.
  - unfold with_fields. rewrite lookup_insert_ne by done. by rewrite lookup_insert_eq.
  - destruct (search statement_re text) as [caps|] eqn:Hsearch; cbn [mbind option_bind].
    + left. destruct (search_some _ _ _ Hsearch) as (pre & s' & st & others & -> & Hm & ->).
      destruct (statement_head _ _ _ Hm) as (ws & tail & x & Hx & -> & Hne & Hws & Htail).
      exists pre, ws, tail. rewrite Hx. by repeat split.
    + right. split; [done|]. intros pre c post Hc ->.
      apply (statement_match c post Hc). by apply search_none with pre.
Qed.

(** The theorem on the first rule text of the specification. *)
Lemma parse_rule_definition_statements_example :
  exists (res_data : gmap string pyval) (statements : string),
    parse_rule_definition (rule_res rule_text_1) = Ret (RuleData res_data) /\
    res_data !! "statements" = Some (VStr statements) /\
    ((exists pre ws tail,
        rule_text_1 = pre +:+ ("DO" +:+ (ws +:+ tail)) /\ ws <> "" /\ all_space ws = true /\
        (tail = statements \/
         exists ws', ws' <> "" /\ all_space ws' = true /\
                     tail = "INSTEAD" +:+ (ws' +:+ statements))) \/
     (statements = "" /\
      forall pre c post, is_space c = true ->
        rule_text_1 <> pre +:+ ("DO" +:+ String c post))).
Proof.
  assert (Hrows : rule_res rule_text_1 !! "rows" = Some [ {[ "definition" := VStr rule_text_1 ]} ])
    by reflexivity.
  assert (Hdef : ({[ "definition" := VStr rule_text_1 ]} : gmap string pyval) !! "definition"
                 = Some (VStr rule_text_1)) by reflexivity.
  exact (parse_rule_definition_statements _ _ _ _ Hrows Hdef).
Defined.

(** *** Every outcome *)

(** X20. [parse_rule_definition] never raises. It returns the server-error
    value, with the message of the exception, when the result set has no
    [rows], when the rows are empty, when the first row has no
    [definition] and when the definition is not a text ([None], say); in
    every other case it returns the first row, in which it has written its
    four keys and changed nothing else. *)
Theorem parse_rule_definition_outcomes (res : gmap string (list (gmap string pyval))) :
  match res !! "rows" with
  | None => parse_rule_definition res = Ret (InternalServerError "'rows'")
  | Some [] => parse_rule_definition res = Ret (InternalServerError "list index out of range")
  | Some (row :: _) =>
      match row !! "definition" with
      | None => parse_rule_definition res = Ret (InternalServerError "'definition'")
      | Some (VStr text) =>
          exists res_data,
            parse_rule_definition res = Ret (RuleData res_data) /\
            dom res_data = dom row ∪ list_to_set rule_keys /\
            forall k, k ∉ rule_keys -> res_data !! k = row !! k
      | Some _ => exists msg, parse_rule_definition res = Ret (InternalServerError msg)
      end
  end.
Proof.
  unfold parse_rule_definition.
  destruct (res !! "rows") as [[|row rest]|] eqn:Hrows;
    [rewrite (getitem_some _ _ _ Hrows) | rewrite (getitem_some _ _ _ Hrows)
    | by rewrite (getitem_none _ _ Hrows)]; [done|].
  rewrite !bind_ret.
  destruct (row !! "definition") as [v|] eqn:Hdef;
    [rewrite (getitem_some _ _ _ Hdef), bind_ret | by rewrite (getitem_none _ _ Hdef)].
  destruct v as [| | | |text]; try by eexists.
  eexists. split; [reflexivity|]. split.
  - rewrite !dom_insert_L. unfold rule_keys. cbn [list_to_set].
    apply set_eq. intros x. rewrite !elem_of_union, !elem_of_singleton.
    rewrite elem_of_empty. tauto.
  - intros k Hk.
    repeat (rewrite lookup_insert_ne;
            [|intros <-; apply Hk; unfold rule_keys; apply list_elem_of_In; simpl; tauto]).
    reflexivity.
Qed.

End RuleMoreFacts.

(** ** The event and the condition of a rule *)

Module RuleFieldFacts.
Import PyStr PyStrFacts Re Rule RuleFieldVocabulary RuleMoreFacts.

(** *** Runs of one class of characters *)

Lemma iterate_self (step : mstate -> list mstate) (fuel : nat) (st : mstate) :
  In st (iterate step fuel st).
Proof. destruct fuel; cbn [iterate]; [by left|]. apply in_or_app. right. by left. Qed.

Lemma iterate_class_in (p : ascii -> bool) (fuel : nat) :
  forall st st', In st' (iterate (one_char p) fuel st) ->
    st'.2 = st.2 /\ exists w, all_chars p w = true /\ st.1 = w +:+ st'.1.
Proof.
  induction fuel as [|fuel IH]; intros st st'; cbn [iterate].
  - intros [<-|[]]. split; [done|]. by exists "".
  - intros H. apply in_app_or in H as [H|[<-|[]]]; [|split; [done|]; by exists ""].
    apply in_flat_map in H as (mid & Hmid & H).
    destruct (_ <? _)%nat; [|done].
    destruct (one_char_in _ _ _ Hmid) as (c & Hc & -> & <-).
    destruct (IH _ _ H) as (-> & w & Hw & ->).
    split; [done|]. exists (String c w). split; [|done]. cbn [all_chars]. by rewrite Hc, Hw.
Qed.

Lemma iterate_class_reach (p : ascii -> bool) (w r : string) (caps : gmap nat string) :
  forall fuel, all_chars p w = true -> (String.length (w +:+ r) <= fuel)%nat ->
    In (r, caps) (iterate (one_char p) fuel (w +:+ r, caps)).
Proof.
  induction w as [|c w IH]; intros fuel Hw Hfuel.
  - apply iterate_self.
  - cbn [all_chars] in Hw. apply andb_true_iff in Hw as [Hc Hw].
    destruct fuel as [|fuel]; [cbn in Hfuel; lia|].
    cbn [iterate String.append]. apply in_or_app. left.
    apply in_flat_map. exists (w +:+ r, caps). split.
    + unfold one_char. cbn [fst snd]. rewrite Hc. by left.
    + cbn [fst String.length].
      replace (String.length (w +:+ r) <? S (String.length (w +:+ r)))%nat with true
        by (symmetry; apply Nat.ltb_lt; lia).
      apply IH; [done|]. cbn in Hfuel. lia.
Qed.

(** One or more characters of whitespace. *)
Lemma blank_in (st st' : mstate) :
  In st' (rmatch (Plus Space) st) ->
  st'.2 = st.2 /\ exists ws, blank ws /\ st.1 = ws +:+ st'.1.
Proof.
  cbn [rmatch]. intros H. apply in_flat_map in H as (mid & Hmid & H).
  destruct (one_char_in _ _ _ Hmid) as (c & Hc & -> & <-).
  destruct (iterate_class_in is_space _ _ _ H) as (-> & w & Hw & ->).
  split; [done|]. exists (String c w). split; [|done].
  split; [done|]. cbn [all_chars]. by rewrite Hc, Hw.
Qed.

Lemma blank_reach (ws r : string) (caps : gmap nat string) :
  blank ws -> In (r, caps) (rmatch (Plus Space) (ws +:+ r, caps)).
Proof.
  intros [Hne Hws]. destruct ws as [|c w]; [done|].
  cbn [all_chars] in Hws. apply andb_true_iff in Hws as [Hc Hw].
  cbn [rmatch String.append]. apply in_flat_map. exists (w +:+ r, caps). split.
  - unfold one_char. cbn [fst snd]. rewrite Hc. by left.
  - cbn [fst]. by apply (iterate_class_reach is_space).
Qed.

Lemma consumed_prefix (e r : string) : consumed (e +:+ r) r = e.
Proof.
  unfold consumed. rewrite length_append.
  replace (String.length e + String.length r - String.length r)%nat
    with (String.length e) by lia.
  apply SuffixFacts.take_app.
Qed.

(** *** A text between two words *)

(** The shape of the event pattern and of the condition pattern. *)
Lemma between_in (w1 w2 s : string) (st : mstate) :
  In st (rmatch (Seq (lit w1) (Seq (Plus Space) (Seq (Group 1 (Star Dot))
                   (Seq (Plus Space) (lit w2))))) (s, ∅)) ->
  exists ws e ws',
    blank ws /\ blank ws' /\ one_line e = true /\
    s = w1 +:+ (ws +:+ (e +:+ (ws' +:+ (w2 +:+ st.1)))) /\
    st.2 !! 1%nat = Some e.
Proof.
  cbn [rmatch]. fold (rmatch (lit w1)). fold (rmatch (lit w2)).
  intros H. apply in_flat_map in H as (m1 & H1 & H).
  apply in_flat_map in H as (m2 & H2 & H).
  apply in_flat_map in H as (m3 & H3 & H).
  apply in_flat_map in H as (m4 & H4 & H).
  apply in_map_iff in H3 as (m3' & <- & H3).
  destruct (lit_in _ _ _ H1) as [Hs Hc1]. cbn [fst snd] in Hs, Hc1.
  change (In m2 (rmatch (Plus Space) m1)) in H2.
  destruct (blank_in _ _ H2) as (Hc2 & ws & Hws & Hm1).
  change (In m3' (iterate (one_char (fun d => negb (Ascii.eqb d newline)))
                    (String.length m2.1) m2)) in H3.
  destruct (iterate_class_in _ _ _ _ H3) as (Hc3 & e & He & Hm2).
  change (In m4 (rmatch (Plus Space)
                   (m3'.1, <[1%nat := consumed m2.1 m3'.1]> m3'.2))) in H4.
  destruct (blank_in _ _ H4) as (Hc4 & ws' & Hws' & Hm3). cbn [fst snd] in Hc4, Hm3.
  destruct (lit_in _ _ _ H) as [Hm4 Hc5].
  exists ws, e, ws'. do 3 (split; [done|]). split.
  - by rewrite Hs, Hm1, Hm2, Hm3, Hm4.
  - rewrite Hc5, Hc4, lookup_insert_eq, Hm2. by rewrite consumed_prefix.
Qed.

Lemma between_match (w1 w2 ws e ws' post : string) :
  blank ws -> blank ws' -> one_line e = true ->
  rmatch (Seq (lit w1) (Seq (Plus Space) (Seq (Group 1 (Star Dot))
            (Seq (Plus Space) (lit w2)))))
    (w1 +:+ (ws +:+ (e +:+ (ws' +:+ (w2 +:+ post)))), ∅) <> [].
Proof.
  intros Hws Hws' He.
  set (caps := <[1%nat := e]> (∅ : gmap nat string)).
  assert (H : In (post, caps)
                (rmatch (Seq (lit w1) (Seq (Plus Space) (Seq (Group 1 (Star Dot))
                           (Seq (Plus Space) (lit w2)))))
                   (w1 +:+ (ws +:+ (e +:+ (ws' +:+ (w2 +:+ post)))), ∅))).
  { cbn [rmatch]. fold (rmatch (lit w1)). fold (rmatch (lit w2)).
    apply in_flat_map. eexists. split; [rewrite lit_match; by left|].
    apply in_flat_map. eexists. split; [by apply blank_reach|].
    apply in_flat_map. exists (ws' +:+ (w2 +:+ post), caps). split.
    - apply in_map_iff. exists (ws' +:+ (w2 +:+ post), ∅). split.
      + cbn [fst snd]. by rewrite consumed_prefix.
      + cbn [fst]. by apply (iterate_class_reach _ e).
    - apply in_flat_map. eexists. split; [by apply blank_reach|].
      rewrite lit_match. by left. }
  intros E. by rewrite E in H.
Qed.

(** What group 1 of such a pattern holds after a search. *)
Lemma search_between (w1 w2 text : string) :
  let found :=
    search (Seq (lit w1) (Seq (Plus Space) (Seq (Group 1 (Star Dot))
              (Seq (Plus Space) (lit w2))))) text ≫= (fun caps => caps !! 1%nat) in
  (exists e, found = Some e /\ between_words w1 w2 e text) \/
  (found = None /\ forall e, ~ between_words w1 w2 e text).
Proof.
  cbv zeta.
  destruct (search _ text) as [caps|] eqn:Hsearch; cbn [mbind option_bind].
  - left. destruct (search_some _ _ _ Hsearch) as (pre & s' & st & others & -> & Hm & ->).
    assert (Hin : In st (rmatch (Seq (lit w1) (Seq (Plus Space) (Seq (Group 1 (Star Dot))
                                   (Seq (Plus Space) (lit w2))))) (s', ∅)))
      by (rewrite Hm; by left).
    destruct (between_in _ _ _ _ Hin) as (ws & e & ws' & Hws & Hws' & He & -> & Hcap).
    exists e. split; [done|]. by exists pre, ws, ws', st.1.
  - right. split; [done|]. intros e (pre & ws & ws' & post & Hws & Hws' & He & ->).
    apply (between_match w1 w2 ws e ws' post Hws Hws' He). by apply search_none with pre.
Qed.

(** X21. The condition of a rule is a text that stands in the definition
    on one line between [WHERE] and [DO], whitespace on both sides; it is
    empty when the definition holds no such text. *)
Theorem parse_rule_definition_condition
    (res : gmap string (list (gmap string pyval)))
    (row : gmap string pyval) (rest : list (gmap string pyval)) (text : string) :
  res !! "rows" = Some (row :: rest) ->
  row !! "definition" = Some (VStr text) ->
  exists (res_data : gmap string pyval) (condition : string),
    parse_rule_definition res = Ret (RuleData res_data) /\
    res_data !! "condition" = Some (VStr condition) /\
    (between_words "WHERE" "DO" condition text \/
     (condition = "" /\ forall e, ~ between_words "WHERE" "DO" e text)).
Proof.
  intros Hrows Hdef. eexists _, _. split; [|split].
  - unfold parse_rule_definition.
    rewrite (getitem_some _ _ _ Hrows), bind_ret, bind_ret.
    rewrite (getitem_some _ _ _ Hdef), bind_ret. reflexivity.
  - apply lookup_insert_eq.
  - destruct (search_between "WHERE" "DO" text) as [(e & Hfound & He)|[Hfound Hnone]];
      unfold condition_re; cbn [lit] in Hfound |- *; rewrite Hfound; [by left|by right].
Qed.

(** The theorem on the first rule text of the specification. *)
Lemma parse_rule_definition_condition_example :
  exists (res_data : gmap string pyval) (condition : string),
    parse_rule_definition (rule_res rule_text_1) = Ret (RuleData res_data) /\
    res_data !! "condition" = Some (VStr condition) /\
    (between_words "WHERE" "DO" condition rule_text_1 \/
     (condition = "" /\ forall e, ~ between_words "WHERE" "DO" e rule_text_1)).
Proof.
  assert (Hrows : rule_res rule_text_1 !! "rows" = Some [ {[ "definition" := VStr rule_text_1 ]} ])
    by reflexivity.
  assert (Hdef : ({[ "definition" := VStr rule_text_1 ]} : gmap string pyval) !! "definition"
                 = Some (VStr rule_text_1)) by reflexivity.
  exact (parse_rule_definition_condition _ _ _ _ Hrows Hdef).
Defined.

(** X22. The event of a rule is a text that stands in the definition on
    one line between [ON] and [TO], whitespace on both sides, with its
    first letter in upper case and the others in lower case; it is empty
    when the definition holds no such text. *)
Theorem parse_rule_definition_event
    (res : gmap string (list (gmap string pyval)))
    (row : gmap string pyval) (rest : list (gmap string pyval)) (text : string) :
  res !! "rows" = Some (row :: rest) ->
  row !! "definition" = Some (VStr text) ->
  exists (res_data : gmap string pyval) (event : string),
    parse_rule_definition res = Ret (RuleData res_data) /\
    res_data !! "event" = Some (VStr event) /\
    ((exists e, between_words "ON" "TO" e text /\ event = capitalize (lower e)) \/
     (event = "" /\ forall e, ~ between_words "ON" "TO" e text)).
Proof.
  intros Hrows Hdef. eexists _, _. split; [|split].
  - unfold parse_rule_definition.
    rewrite (getitem_some _ _ _ Hrows), bind_ret, bind_ret.
    rewrite (getitem_some _ _ _ Hdef), bind_ret. reflexivity.
  - do 3 (rewrite lookup_insert_ne by done). apply lookup_insert_eq.
  - destruct (search_between "ON" "TO" text) as [(e & Hfound & He)|[Hfound Hnone]];
      unfold event_re; cbn [lit] in Hfound |- *; rewrite Hfound;
      [left; by exists e|by right].
Qed.

(** The theorem on the first rule text of the specification. *)
Lemma parse_rule_definition_event_example :
  exists (res_data : gmap string pyval) (event : string),
    parse_rule_definition (rule_res rule_text_1) = Ret (RuleData res_data) /\
    res_data !! "event" = Some (VStr event) /\
    ((exists e, between_words "ON" "TO" e rule_text_1 /\ event = capitalize (lower e)) \/
     (event = "" /\ forall e, ~ between_words "ON" "TO" e rule_text_1)).
Proof.
  assert (Hrows : rule_res rule_text_1 !! "rows" = Some [ {[ "definition" := VStr rule_text_1 ]} ])
    by reflexivity.
  assert (Hdef : ({[ "definition" := VStr rule_text_1 ]} : gmap string pyval) !! "definition"
                 = Some (VStr rule_text_1)) by reflexivity.
  exact (parse_rule_definition_event _ _ _ _ Hrows Hdef).
Defined.

End RuleFieldFacts.
